(** * Ollama code assistant: context sizing, token estimation,
      directory aggregation and the query client

    A shallow embedding of [ollama/ocode.py] and of the token heuristic of
    [ollama/large_context_test.py], with the properties stated about them. *)

From Stdlib Require Import ZArith NArith List Bool Lia QArith Ascii String.
From Stdlib Require DecimalString.
From Stdlib Require Import Sorted Permutation.
Import ListNotations.

#[global] Set Warnings "-notation-for-abbreviation".

(* ================================================================== *)
(** * Definitions                                                      *)
(* ================================================================== *)

(** ** Python strings *)

(** A Python [str] is a sequence of Unicode code points; [len], slicing,
    [startswith], [in] and the character predicates all work on code
    points, so that is what the model uses. *)
Module PyStr.

Definition char : Type := N.
Definition str : Type := list char.

(** A string literal of the source (ASCII only in these files). *)
Definition lit (s : string) : str :=
  List.map N_of_ascii (list_ascii_of_string s).

Definition char_eqb : char -> char -> bool := N.eqb.

Fixpoint str_eqb (a b : str) : bool :=
  match a, b with
  | [], [] => true
  | x :: a', y :: b' => char_eqb x y && str_eqb a' b'
  | _, _ => false
  end.

(** [s.startswith(p)]. *)
Fixpoint startswith (s p : str) : bool :=
  match p, s with
  | [], _ => true
  | _ :: _, [] => false
  | y :: p', x :: s' => char_eqb x y && startswith s' p'
  end.

(** [s.endswith(p)]. *)
Definition endswith (s p : str) : bool :=
  startswith (rev s) (rev p).

(** [p in s]: [p] occurs in [s] as a contiguous run. *)
Fixpoint contains (s p : str) : bool :=
  startswith s p ||
  match s with
  | [] => false
  | _ :: s' => contains s' p
  end.

(** [s[:-1]] and [s[1:]]. *)
Definition drop_last (s : str) : str := removelast s.
Definition drop_first (s : str) : str := tl s.

(** [sep.join(parts)]. *)
Fixpoint join (sep : str) (parts : list str) : str :=
  match parts with
  | [] => []
  | [p] => p
  | p :: rest => p ++ sep ++ join sep rest
  end.

(** [len(s)] as a Python integer. *)
Definition len {A : Type} (s : list A) : Z := Z.of_nat (List.length s).

End PyStr.

(** ** Context sizer ([main], ocode.py lines 402-405) *)

Module Context.
Local Open Scope Z_scope.

(** Module constants of ocode.py. *)
Definition MAX_CONTEXT_SIZE : Z := 128000.
Definition TOKEN_BUFFER : Z := 1000.

(** Python's [int.bit_length]: the number of binary digits of the absolute
    value, and [0] for [0]. *)
Definition bit_length (n : Z) : Z :=
  if n =? 0 then 0 else Z.log2 (Z.abs n) + 1.

(** Line 402: [min(MAX_CONTEXT_SIZE, token_count + TOKEN_BUFFER)]. *)
Definition capped (token_count : Z) : Z :=
  Z.min MAX_CONTEXT_SIZE (token_count + TOKEN_BUFFER).

(** Line 405: [max(4096, 2**int(dynamic_ctx_size - 1).bit_length())]. *)
Definition round_up (dynamic_ctx_size : Z) : Z :=
  Z.max 4096 (2 ^ bit_length (dynamic_ctx_size - 1)).

Definition context_size (token_count : Z) : Z :=
  round_up (capped token_count).

End Context.

(** ** Token estimators *)

Module Tokens.
Import PyStr.

Section Estimators.

(** The character classes of Python's Unicode database: [str.isspace],
    [str.isdigit] and [str.isalnum] on one character.  They are built into
    the interpreter, so the estimators are parametrised by them. *)
Variables isspace isdigit isalnum : char -> bool.

(** [text.split()]: the maximal runs of non-whitespace characters.  [cur]
    accumulates the run being read, last character first. *)
Fixpoint split_from (cur : str) (text : str) : list str :=
  match text with
  | [] => match cur with [] => [] | _ :: _ => [rev cur] end
  | c :: rest =>
      if isspace c then
        match cur with
        | [] => split_from [] rest
        | _ :: _ => rev cur :: split_from [] rest
        end
      else split_from (c :: cur) rest
  end.

Definition split (text : str) : list str := split_from [] text.

(** [sum(1 for char in text if cond(char))]. *)
Definition count_if (cond : char -> bool) (text : str) : Z :=
  len (filter cond text).

(** [ord(char) > 0x4E00 and ord(char) < 0x9FFF]. *)
Definition is_cjk (c : char) : bool :=
  ((19968 <? c) && (c <? 40959))%N.

Definition is_special (c : char) : bool :=
  negb (isalnum c || isspace c).

(** [int(x)] for a float [x]: truncation towards zero. *)
Definition py_int (x : Q) : Z := Z.quot (Qnum x) (Zpos (Qden x)).

(** [estimate_qwen_tokens] of large_context_test.py.  The float expression
    only ever holds multiples of one half, which binary floating point
    represents exactly (below 2^52), so it is evaluated over the
    rationals. *)
Definition estimated_tokens (text : str) : Q :=
  let words := len (split text) in
  let cjk_chars := count_if is_cjk text in
  let numeric_chars := count_if isdigit text in
  let special_chars := count_if is_special text in
  (inject_Z (words + cjk_chars)
   + inject_Z numeric_chars * (1 # 2)
   + inject_Z special_chars * (1 # 2))%Q.

Definition estimate_qwen_tokens (text : str) : Z :=
  py_int (estimated_tokens text).

(** [tiktoken.encoding_for_model(model)] followed by [encoding.encode];
    [None] stands for either of them raising. *)
Variable tiktoken_encode : str -> str -> option (list Z).

(** The fallback approximation of [count_tokens]: [len(text) // 4]. *)
Definition fallback_tokens (text : str) : Z := (len text / 4)%Z.

(** [count_tokens] of ocode.py. *)
Definition count_tokens (text : str) (model : str) : Z :=
  match tiktoken_encode model text with
  | Some tokens => len tokens
  | None => fallback_tokens text
  end.

End Estimators.

(** The ASCII part of the character classes, used to run the estimators on
    concrete ASCII text. *)
Definition ascii_isspace (c : char) : bool :=
  (((9 <=? c) && (c <=? 13)) || ((28 <=? c) && (c <=? 32)))%N.
Definition ascii_isdigit (c : char) : bool :=
  ((48 <=? c) && (c <=? 57))%N.
Definition ascii_isalnum (c : char) : bool :=
  (ascii_isdigit c
   || ((65 <=? c) && (c <=? 90)) || ((97 <=? c) && (c <=? 122)))%N.

End Tokens.

(** ** Content aggregator ([get_file_content], [get_directory_content]) *)

Module Aggregator.
Import PyStr.
Local Open Scope Z_scope.

(** What [open(...).read()] does on a file. *)
Inductive file_data :=
| Text (content : str)        (* decodes as UTF-8 *)
| Undecodable                 (* raises UnicodeDecodeError *)
| Unreadable (err : str).     (* raises anything else *)

(** A directory tree as the traversal sees it. *)
#[warnings="-register-all"]
Inductive node :=
| File (name : str) (st_size : Z) (data : file_data)
| Dir (name : str) (entries : list node)
| DirUnreadable (name : str) (err : str)   (* [iterdir()] raises *)
| Special (name : str).                    (* neither file nor directory *)

Definition node_name (n : node) : str :=
  match n with
  | File name _ _ | Dir name _ | DirUnreadable name _ | Special name => name
  end.

Definition is_file (n : node) : bool :=
  match n with File _ _ _ => true | _ => false end.


(** [current_dir.iterdir()], in the order the file system lists it. *)
Definition iterdir (n : node) : str + list node :=
  match n with
  | Dir _ entries => inr entries
  | DirUnreadable _ err => inl err
  | File _ _ _ | Special _ => inl (lit "Not a directory")
  end.

(** A path below the traversal root: its components, outermost first. *)
Definition relpath : Type := list str.

(** [str(path.relative_to(dir_path))]. *)
Definition rel_str (rel : relpath) : str := join (lit "/") rel.

(** [str(path)] for a path below [dir_path], which is in the form
    [pathlib] prints it: the children of [.] are printed without it, and
    a root that ends in a slash ([/] and [//]) takes no second one. *)
Definition path_str (dir_path : str) (rel : relpath) : str :=
  match rel with
  | [] => dir_path
  | _ :: _ =>
      if str_eqb dir_path (lit ".") then rel_str rel
      else if endswith dir_path (lit "/") then dir_path ++ rel_str rel
      else dir_path ++ lit "/" ++ rel_str rel
  end.

(** [path.name]. *)
Definition rel_name (rel : relpath) : str := last rel [].

(** [path.suffix]: from the last dot of the name on, when that dot is
    neither the first nor the last character. *)
Fixpoint until_dot (r : str) : option (str * str) :=
  match r with
  | [] => None
  | c :: r' =>
      if char_eqb c 46%N then Some ([], r')
      else match until_dot r' with
           | Some (before, after) => Some (c :: before, after)
           | None => None
           end
  end.

Definition suffix (name : str) : str :=
  match until_dot (rev name) with
  | Some (ext_rev, stem_rev) =>
      match ext_rev, stem_rev with
      | _ :: _, _ :: _ => 46%N :: rev ext_rev
      | _, _ => []
      end
  | None => []
  end.

Definition binary_suffixes : list str :=
  [lit ".jpg"; lit ".jpeg"; lit ".png"; lit ".gif";
   lit ".pdf"; lit ".zip"; lit ".tar"; lit ".gz"].

(** The pattern loop of [should_ignore] (lines 107-113). *)
Fixpoint matches_patterns (rel_path : str) (ignored_patterns : list str)
  : bool :=
  match ignored_patterns with
  | [] => false
  | pattern :: rest =>
      if endswith pattern (lit "/")
         && startswith rel_path (drop_last pattern) then true
      else if startswith pattern (lit "*")
              && endswith rel_path (drop_first pattern) then true
      else if contains rel_path pattern then true
      else matches_patterns rel_path rest
  end.

(** [should_ignore(path)] for the entry [entry] found at [rel]. *)
Definition should_ignore (ignored_patterns : list str)
    (rel : relpath) (entry : node) : bool :=
  if startswith (rel_name rel) (lit ".") then true
  else if matches_patterns (rel_str rel) ignored_patterns then true
  else
    match entry with
    | File name st_size _ =>
        if existsb (str_eqb (suffix name)) binary_suffixes then true
        else if 1000000 <? st_size then true
        else false
    | _ => false
    end.

(** [get_file_content(file_path)]. *)
Definition get_file_content (file_path : str) (data : file_data) : str :=
  match data with
  | Text content => content
  | Undecodable => lit "[Binary file: " ++ file_path ++ lit "]"
  | Unreadable err =>
      lit "[Error reading file " ++ file_path ++ lit ": " ++ err ++ lit "]"
  end.

(** One element appended to [result], with the path it is about. *)
Inductive item :=
| DirHeader (rel : relpath)
| FileHeader (rel : relpath)
| FileBody (rel : relpath) (content : str)
| SkippedFile (rel : relpath)
| DirError (rel : relpath) (err : str)
| Warning (file_count : Z).

Definition str_of_Z (z : Z) : str :=
  lit (DecimalString.NilZero.string_of_int (Z.to_int z)).

(** The string each element stands for in the source. *)
Definition render (dir_path : str) (it : item) : str :=
  match it with
  | DirHeader rel =>
      lit "===== Directory: " ++ path_str dir_path rel ++ lit " ====="
  | FileHeader rel => lit "===== " ++ rel_name rel ++ lit " ====="
  | FileBody _ content => content
  | SkippedFile rel =>
      lit "[Skipped file: " ++ rel_name rel
      ++ lit " - max file limit reached]"
  | DirError rel err =>
      lit "[Error reading directory " ++ path_str dir_path rel
      ++ lit ": " ++ err ++ lit "]"
  | Warning file_count =>
      lit "[Warning: Only processed " ++ str_of_Z file_count
      ++ lit " files. Additional files were skipped.]"
  end.

(** The sort key [(x.is_file(), x.name)], compared as Python compares
    tuples: [False < True], then the names by code point. *)
Fixpoint str_ltb (a b : str) : bool :=
  match a, b with
  | _, [] => false
  | [], _ :: _ => true
  | x :: a', y :: b' => (x <? y)%N || ((x =? y)%N && str_ltb a' b')
  end.

Definition key_ltb (a b : node) : bool :=
  match is_file a, is_file b with
  | false, true => true
  | true, false => false
  | _, _ => str_ltb (node_name a) (node_name b)
  end.

(** [sorted(...)]: a stable sort. *)
Fixpoint insert_sorted (x : node) (l : list node) : list node :=
  match l with
  | [] => [x]
  | y :: l' => if key_ltb y x then y :: insert_sorted x l' else x :: l
  end.

Fixpoint sorted (l : list node) : list node :=
  match l with
  | [] => []
  | x :: l' => insert_sorted x (sorted l')
  end.

(** The variables the traversal updates. *)
Record walk := mkWalk {
  result : list item;
  file_count : Z;
  next_dirs : list (relpath * node)
}.

Definition emit (w : walk) (its : list item) : walk :=
  mkWalk (result w ++ its) (file_count w) (next_dirs w).

Section Traversal.

Variable dir_path : str.
Variable ignored_patterns : list str.
Variables max_depth max_files : Z.

(** Body of the inner [for entry in sorted(...)] loop (lines 138-152),
    for an entry of the directory at [rel_dir]. *)
Definition process_entry (rel_dir : relpath) (w : walk) (entry : node)
  : walk :=
  let rel := rel_dir ++ [node_name entry] in
  if should_ignore ignored_patterns rel entry then w
  else
    match entry with
    | File _ _ data =>
        if file_count w <? max_files then
          mkWalk (result w ++ [FileHeader rel;
                               FileBody rel
                                 (get_file_content (path_str dir_path rel)
                                    data)])
                 (file_count w + 1) (next_dirs w)
        else emit w [SkippedFile rel]
    | Dir _ _ | DirUnreadable _ _ =>
        mkWalk (result w) (file_count w) (next_dirs w ++ [(rel, entry)])
    | Special _ => w
    end.

(** Body of [for current_dir in dirs_to_process] (lines 132-154). *)
Definition process_dir (w : walk) (current : relpath * node) : walk :=
  let (rel, current_dir) := current in
  let w := emit w [DirHeader rel] in
  match iterdir current_dir with
  | inr entries => fold_left (process_entry rel) (sorted entries) w
  | inl err => emit w [DirError rel err]
  end.

(** The [while] loop (lines 128-157).  One unit of [fuel] is spent per
    level; [None] means the fuel ran out before the loop condition
    failed. *)
Fixpoint bfs (fuel : nat) (dirs_to_process : list (relpath * node))
    (current_depth : Z) (result : list item) (file_count : Z)
  : option (list item * Z) :=
  if negb (match dirs_to_process with [] => true | _ => false end)
     && (current_depth <? max_depth) && (file_count <? max_files)
  then
    match fuel with
    | O => None
    | S fuel' =>
        let w := fold_left process_dir dirs_to_process
                   (mkWalk result file_count []) in
        bfs fuel' (next_dirs w) (current_depth + 1)
            (Aggregator.result w) (Aggregator.file_count w)
    end
  else Some (result, file_count).

(** Lines 125-160: the traversal from the root and the closing warning.
    The loop cannot run more than [max_depth] times. *)
Definition collect (root : node) : option (list item) :=
  match bfs (Z.to_nat max_depth) [([], root)] 0 [] 0 with
  | Some (result, file_count) =>
      if max_files <=? file_count
      then Some (result ++ [Warning file_count])
      else Some result
  | None => None
  end.

End Traversal.

(** What the project's ignore file holds, when a version-control root was
    found (lines 80-97). *)
Inductive ignore_source :=
| NoIgnoreFile                    (* no git root, or no .gitignore in it *)
| IgnoreLines (lines : list str)  (* the lines of .gitignore *)
| IgnoreUnreadable (err : str).   (* opening or reading it raises *)

Section Loading.

(** [str.isspace] on one character, as used by [str.strip]. *)
Variable isspace : char -> bool.

Fixpoint lstrip (s : str) : str :=
  match s with
  | c :: s' => if isspace c then lstrip s' else s
  | [] => []
  end.

Definition strip (s : str) : str := rev (lstrip (rev (lstrip s))).

(** [[line.strip() for line in f
      if line.strip() and not line.startswith('#')]]. *)
Definition load_patterns (lines : list str) : list str :=
  map strip
    (filter (fun line =>
               negb (match strip line with [] => true | _ => false end)
               && negb (startswith line (lit "#")))
       lines).

Definition ignored_patterns_of (src : ignore_source) : str + list str :=
  match src with
  | NoIgnoreFile => inr []
  | IgnoreLines lines => inr (load_patterns lines)
  | IgnoreUnreadable err => inl err
  end.

(** The elements of [result] at the end of [get_directory_content], or
    the exception caught by the outer handler. *)
Definition get_directory_items (dir_path : str) (src : ignore_source)
    (root : node) (max_depth max_files : Z) : option (str + list item) :=
  match ignored_patterns_of src with
  | inl err => Some (inl err)
  | inr ignored_patterns =>
      match collect dir_path ignored_patterns max_depth max_files root with
      | Some items => Some (inr items)
      | None => None
      end
  end.

(** [get_directory_content(dir_path, max_depth, max_files)]. *)
Definition get_directory_content (dir_path : str) (src : ignore_source)
    (root : node) (max_depth max_files : Z) : option str :=
  match get_directory_items dir_path src root max_depth max_files with
  | Some (inr items) =>
      Some (join (lit (String (ascii_of_nat 10)
                        (String (ascii_of_nat 10) EmptyString)))
                 (map (render dir_path) items))
  | Some (inl err) =>
      Some (lit "[Error processing directory " ++ dir_path
            ++ lit ": " ++ err ++ lit "]")
  | None => None
  end.

End Loading.

(** *** Vocabulary for statements about the output *)

(** The path an element of the output is about. *)
Definition item_path (it : item) : option relpath :=
  match it with
  | DirHeader rel | FileHeader rel | FileBody rel _
  | SkippedFile rel | DirError rel _ => Some rel
  | Warning _ => None
  end.

Definition is_body (it : item) : bool :=
  match it with FileBody _ _ => true | _ => false end.

Definition is_file_header (it : item) : bool :=
  match it with FileHeader _ => true | _ => false end.

Definition count_bodies (items : list item) : Z :=
  len (filter is_body items).

(** Depth of a path below the traversal root; the root itself is at 0. *)
Definition depth (rel : relpath) : Z := len rel.

(** One pattern against a relative path: the three tests of lines
    108-113. *)
Definition pattern_matches (rel_path pattern : str) : bool :=
  (endswith pattern (lit "/") && startswith rel_path (drop_last pattern))
  || (startswith pattern (lit "*") && endswith rel_path (drop_first pattern))
  || contains rel_path pattern.

(** The two filters of [should_ignore] that do not look at the entry's
    kind: a hidden name, or a relative path matching a pattern. *)
Definition excluded (ignored_patterns : list str) (rel : relpath) : bool :=
  startswith (rel_name rel) (lit ".")
  || matches_patterns (rel_str rel) ignored_patterns.

(** A path is clear when neither it nor any directory above it (below the
    root) is excluded. *)
Definition clear (ignored_patterns : list str) (rel : relpath) : Prop :=
  forall q rest, rel = q ++ rest -> q <> [] ->
    excluded ignored_patterns q = false.

(** What holds of the traversal's variables while the directories at depth
    [d] are being processed. *)
Record walk_inv (ignored_patterns : list str) (max_depth max_files d : Z)
    (items : list item) (count : Z) (next : list (relpath * node))
  : Prop := {
  inv_depth : forall rel, In (DirHeader rel) items -> depth rel < max_depth;
  inv_clear : forall it rel, In it items -> item_path it = Some rel ->
                clear ignored_patterns rel;
  inv_bodies : count_bodies items = count;
  inv_headers : len (filter is_file_header items) = count;
  inv_limit : count <= Z.max 0 max_files;
  inv_next_depth : forall rel n, In (rel, n) next -> depth rel = d + 1;
  inv_next_clear : forall rel n, In (rel, n) next ->
                     clear ignored_patterns rel
}.

(** [at_path root rel n]: following the names of [rel] down from [root]
    leads to the entry [n]. *)
Inductive at_path (root : node) : relpath -> node -> Prop :=
| at_root : at_path root [] root
| at_child (rel : relpath) (name : str) (entries : list node)
    (child : node) :
    at_path root rel (Dir name entries) ->
    In child entries ->
    at_path root (rel ++ [node_name child]) child.

(** What an element of the traversal's output says about the tree: a
    header or error marker names a place in the tree, a file element a
    file there that [should_ignore] lets through, and a body is what
    [get_file_content] gives for that file. *)
Definition sound_item (dir_path : str) (ignored_patterns : list str)
    (root : node) (it : item) : Prop :=
  match it with
  | DirHeader rel => exists n, at_path root rel n
  | DirError rel err => exists n, at_path root rel n /\ iterdir n = inl err
  | FileHeader rel | SkippedFile rel =>
      exists name st_size data,
        at_path root rel (File name st_size data) /\
        should_ignore ignored_patterns rel (File name st_size data) = false
  | FileBody rel content =>
      exists name st_size data,
        at_path root rel (File name st_size data) /\
        should_ignore ignored_patterns rel (File name st_size data) = false /\
        content = get_file_content (path_str dir_path rel) data
  | Warning _ => False
  end.

(** What is kept while a level is processed: every element so far is
    sound, and every directory queued is in the tree. *)
Definition sound_walk (dir_path : str) (ignored_patterns : list str)
    (root : node) (w : walk) : Prop :=
  Forall (sound_item dir_path ignored_patterns root) (result w) /\
  forall rel n, In (rel, n) (next_dirs w) -> at_path root rel n.

(** The depths of the directory headers of an output, in order. *)
Fixpoint header_depths (items : list item) : list Z :=
  match items with
  | [] => []
  | DirHeader rel :: rest => depth rel :: header_depths rest
  | _ :: rest => header_depths rest
  end.

(** What is kept of the order of the output while the directories at
    depth [d] are processed. *)
Definition ordered_walk (d : Z) (w : walk) : Prop :=
  StronglySorted Z.le (header_depths (result w)) /\
  Forall (fun x => x <= d) (header_depths (result w)) /\
  forall rel n, In (rel, n) (next_dirs w) -> depth rel = d + 1.

(** [a] does not come after [b] in the order of [sorted]. *)
Definition key_le (a b : node) : bool := negb (key_ltb b a).









(** *** A small project tree, used to run the traversal *)

Definition sample_root : node :=
  Dir (lit ".proj")
    [ File (lit "a.txt") 10 (Text (lit "0123456789"));
      File (lit ".secret") 3 (Text (lit "xyz"));
      File (lit "logo.png") 4 Undecodable;
      Dir (lit "sub")
        [ File (lit "b.py") 5 (Text (lit "print"));
          Dir (lit "deep") [ File (lit "c") 1 (Text (lit "c")) ] ];
      Dir (lit "build") [ File (lit "o") 1 (Text (lit "o")) ] ].

(** A .gitignore with a comment and the pattern [build/]. *)
Definition sample_ignore : ignore_source :=
  IgnoreLines [lit "# outputs" ++ [10%N]; lit "build/" ++ [10%N]].

(** What the traversal of the sample project gives with the default
    limits. *)
Definition sample_items : list item :=
  match get_directory_items Tokens.ascii_isspace (lit "/w/.proj")
          sample_ignore sample_root 3 50 with
  | Some (inr items) => items
  | _ => []
  end.

(** A directory with a subdirectory that cannot be listed. *)
Definition sample_locked : node :=
  Dir (lit "p")
    [ DirUnreadable (lit "locked") (lit "Permission denied");
      File (lit "x.txt") 1 (Text (lit "x"));
      File (lit "y.txt") 1 (Text (lit "y")) ].

End Aggregator.

(** ** Query client ([check_ollama_status], [create_prompt],
       [send_query_to_ollama], [main]) *)

Module Client.
Import PyStr.
Local Open Scope Z_scope.

Definition DEFAULT_MODEL : str := lit "qwen2.5-coder-128k:latest".

(** *** What the inference server sends and receives *)

(** A decoded JSON document. *)
#[warnings="-register-all"]
Inductive json :=
| JNull
| JBool (b : bool)
| JNum (z : Z)
| JStr (s : str)
| JArr (elems : list json)
| JObj (fields : list (str * json)).

(** Key lookup in a decoded object; a repeated key keeps its last value. *)
Fixpoint lookup (key : str) (fields : list (str * json)) : option json :=
  match fields with
  | [] => None
  | (k, v) :: rest =>
      match lookup key rest with
      | Some v' => Some v'
      | None => if str_eqb k key then Some v else None
      end
  end.

(** [data.get(key, default)]; [None] when [data] has no [get]. *)
Definition json_get (key : str) (default : json) (data : json)
  : option json :=
  match data with
  | JObj fields =>
      Some (match lookup key fields with Some v => v | None => default end)
  | _ => None
  end.

(** [for model in value]: the elements iterated over, when iterable. *)
Definition json_iter (value : json) : option (list json) :=
  match value with
  | JArr elems => Some elems
  | JObj fields => Some (map (fun kv => JStr (fst kv)) fields)
  | JStr s => Some (map (fun c => JStr [c]) s)
  | _ => None
  end.

(** [model["name"]]; only an object with that key has it. *)
Definition json_name (model : json) : option json :=
  match model with
  | JObj fields => lookup (lit "name") fields
  | _ => None
  end.

(** [[model["name"] for model in elems]]. *)
Fixpoint names_of (elems : list json) : option (list json) :=
  match elems with
  | [] => Some []
  | model :: rest =>
      match json_name model, names_of rest with
      | Some name, Some names => Some (name :: names)
      | _, _ => None
      end
  end.

(** [DEFAULT_MODEL in models]. *)
Definition is_default_model (name : json) : bool :=
  match name with JStr s => str_eqb s DEFAULT_MODEL | _ => false end.

(** [', '.join(models)] needs every element to be a string. *)
Fixpoint all_strings (models : list json) : option (list str) :=
  match models with
  | [] => Some []
  | JStr s :: rest =>
      match all_strings rest with
      | Some l => Some (s :: l)
      | None => None
      end
  | _ :: _ => None
  end.

(** [value[:50]]: strings and lists can be sliced. *)
Definition json_slice50 (value : json) : option json :=
  match value with
  | JStr s => Some (JStr (firstn 50 s))
  | JArr elems => Some (JArr (firstn 50 elems))
  | _ => None
  end.

(** [len(value)], when it has one. *)
Definition json_len (value : json) : option Z :=
  match value with
  | JStr s => Some (len s)
  | JArr elems => Some (len elems)
  | JObj fields => Some (len fields)
  | _ => None
  end.

(** The JSON body of a [POST /generate]; [num_ctx] is the one option that
    varies (temperature 0.2, top_k 40 and top_p 0.9 are fixed), and the
    pre-flight test sends no options at all. *)
Record generate_request := mkGenerate {
  model : str;
  prompt : str;
  stream : bool;
  num_ctx : option Z
}.

Inductive request :=
| GetVersion                              (* GET  {api}/version *)
| GetTags                                 (* GET  {api}/tags *)
| PostGenerate (body : generate_request). (* POST {api}/generate *)

(** Bytes, as the lines of a streamed body come: values below 256. *)
Definition bytes : Type := list N.

(** What [json.loads] does with a line of bytes: it decodes them as text
    and parses the text. *)
Inductive loaded :=
| Loaded (value : json)   (* returns the document *)
| NotJSON                 (* raises [json.JSONDecodeError] *)
| LoadRaises (e : str).   (* raises anything else: [UnicodeDecodeError]
                             when the bytes are not valid UTF-8 *)

(** An HTTP response: status, [response.text], the lines
    [response.iter_lines()] yields, and the exception that ends the
    iteration after them when the connection breaks in mid-stream. *)
Record response := mkResponse {
  status_code : Z;
  text : str;
  iter_lines : list bytes;
  iter_raises : option str
}.

(** *** What the program writes *)

Inductive message :=
| MsgStatusCheck              (* Performing detailed Ollama status check... *)
| MsgServerNotResponding      (* Ollama server is not responding correctly *)
| MsgConnectError (e : str)   (* Error connecting to Ollama: {e} *)
| MsgModelMissing             (* Required model '...' is not available *)
| MsgAvailableModels (models : list str)   (* Available models: ... *)
| MsgModelListFailed          (* Failed to get model list from Ollama *)
| MsgModelCheckError (e : str)   (* Error checking available models: {e} *)
| MsgModelTestFailed (status : Z)
                              (* Model test failed with status code: ... *)
| MsgModelTestError (e : str) (* Error testing model: {e} *)
| MsgOperational              (* Ollama status: Ollama is fully operational *)
| MsgPromptSize (est_tokens : Z)   (* Prompt size: ~{est_tokens} tokens *)
| MsgNotReady                 (* Ollama is not ready. Please check ... *)
| MsgStreaming                (* Streaming response from Ollama... *)
| MsgErrorStatus (status : Z) (* Error: Received status code {status} *)
| MsgStreamingCompleted       (* Streaming completed in ... seconds *)
| MsgWaiting                  (* Waiting for response ... *)
| MsgResponseCompleted        (* Response completed in ... seconds *)
| MsgCommunicationError (e : str)
                              (* Error communicating with Ollama: {e} *)
| MsgProcessingComplete       (* Processing complete! *)
| MsgStarting (debug_mode : bool)   (* Starting {script_name}... *)
| MsgTarget (target : str)
| MsgQuery (query : str)
| MsgTargetMissing (target : str)   (* Error: Target '...' does not exist *)
| MsgReadingFile (target : str)
| MsgReadBytes (n : Z) (target : str)
| MsgReadingDirectory (target : str) (max_depth max_files : Z)
| MsgProcessedDirectory (n : Z)
| MsgTargetNeither (target : str)
                      (* Error: Target '...' is neither a file nor ... *)
| MsgContextSize (dynamic_ctx_size : Z).

Inductive debug_message :=
| DbgCountTokensError
| DbgCheckingVersion
| DbgVersionStatus (status : Z)
| DbgVersionData (data : json)
| DbgCheckingModels
| DbgModelsStatus (status : Z)
| DbgAvailableModels (models : list json)
| DbgModelAvailable
| DbgTestingModel
| DbgTestStatus (status : Z)
| DbgTestSuccessful (head : json)
| DbgPromptContent (prompt : str)
| DbgVerifying
| DbgSettingUp
| DbgRequestData (body : generate_request)
| DbgSending
| DbgDecodeFailed (line : str)
| DbgResponseStatus (status : Z)
| DbgParsing
| DbgResponseKeys (keys : list str)
| DbgResponseLength (n : Z).

(** What [print] is given. *)
Inductive printed :=
| Banner                   (* "\n=== Ollama Response ===\n" *)
| Fragment (value : json)  (* chunk.get("response", ""), end="" *)
| EndOfStream              (* "\n" *)
| Answer (value : json)    (* data["response"] *)
| RawBody (text : str).    (* response.text *)

(** Everything observable, in order.  Log lines carry no time stamp and
    the "completed" lines no duration here: the clock is outside the
    model. *)
Inductive event :=
| Log (m : message)
| Debug (m : debug_message)
| Print (p : printed)
| Http (r : request).

(** What is at the target path. *)
Inductive target_kind :=
| Missing
| RegularFile (data : Aggregator.file_data)
| Directory (root : Aggregator.node) (src : Aggregator.ignore_source)
| Other.

(** Parsed command line ([args]); [target] is the path in the form
    [pathlib] prints it, [arg_stream] is [args.stream]. *)
Record arguments := mkArguments {
  target : str;
  query : str;
  debug : bool;
  arg_stream : bool;
  max_files : Z;
  max_depth : Z
}.

(** [os.path.basename(path)]: what follows the last slash. *)
Fixpoint basename_from (acc : str) (path : str) : str :=
  match path with
  | [] => rev acc
  | c :: rest =>
      if char_eqb c 47%N then basename_from [] rest
      else basename_from (c :: acc) rest
  end.

Definition basename (path : str) : str := basename_from [] path.

(** [create_prompt(content, query, target_path)]; [content.splitlines()]
    is empty exactly for the empty string. *)
Definition create_prompt (content query target_path : str) : str :=
  let formatted_content :=
    match content with
    | [] => content
    | _ :: _ =>
        lit "===== " ++ basename target_path ++ lit " =====" ++ [10%N]
        ++ content
    end in
  lit "I'll provide code from my project for you to analyze. Please focus on answering my query effectively."
  ++ [10%N; 10%N] ++ lit "Project Files:" ++ [10%N]
  ++ formatted_content
  ++ [10%N; 10%N] ++ lit "Query: " ++ query
  ++ [10%N; 10%N]
  ++ lit "Please provide a detailed answer focusing specifically on my query.".

(** *** Vocabulary for statements about traces *)

(** The HTTP requests of a trace, in order. *)
Fixpoint requests_of (tr : list event) : list request :=
  match tr with
  | [] => []
  | Http r :: rest => r :: requests_of rest
  | _ :: rest => requests_of rest
  end.

(** What a trace prints (log and debug lines apart). *)
Fixpoint printed_of (tr : list event) : list printed :=
  match tr with
  | [] => []
  | Print p :: rest => p :: printed_of rest
  | _ :: rest => printed_of rest
  end.

(** Some log line of the trace satisfies [f]. *)
Definition reported (f : message -> bool) (tr : list event) : bool :=
  existsb (fun e => match e with Log m => f m | _ => false end) tr.

(** The log lines by which a failed pre-flight step is reported. *)
Definition reports_version_failure (m : message) : bool :=
  match m with
  | MsgServerNotResponding | MsgConnectError _ => true
  | _ => false
  end.

Definition reports_model_failure (m : message) : bool :=
  match m with
  | MsgModelMissing | MsgModelListFailed | MsgModelCheckError _ => true
  | _ => false
  end.

Definition reports_test_failure (m : message) : bool :=
  match m with
  | MsgModelTestFailed _ | MsgModelTestError _ => true
  | _ => false
  end.

(** The log line of a non-success status on the query itself. *)
Definition is_error_status (status : Z) (m : message) : bool :=
  match m with MsgErrorStatus z => z =? status | _ => false end.

Definition is_not_ready (m : message) : bool :=
  match m with MsgNotReady => true | _ => false end.

Definition is_processing_complete (m : message) : bool :=
  match m with MsgProcessingComplete => true | _ => false end.

Definition is_communication_error (e : str) (m : message) : bool :=
  match m with MsgCommunicationError e' => str_eqb e' e | _ => false end.

(** Kinds of events. *)
Definition is_debug (e : event) : bool :=
  match e with Debug _ => true | _ => false end.

Definition is_print (e : event) : bool :=
  match e with Print _ => true | _ => false end.

Definition is_request (e : event) : bool :=
  match e with Http _ => true | _ => false end.

(** The requests of the status check: the two GETs, and a generate
    request without options. *)
Definition is_check_request (r : request) : bool :=
  match r with
  | GetVersion | GetTags => true
  | PostGenerate body =>
      match num_ctx body with None => true | Some _ => false end
  end.

(** The log lines of the status check. *)
Definition check_message (m : message) : bool :=
  match m with
  | MsgStatusCheck | MsgServerNotResponding | MsgConnectError _
  | MsgModelMissing | MsgAvailableModels _ | MsgModelListFailed
  | MsgModelCheckError _ | MsgModelTestFailed _ | MsgModelTestError _
  | MsgOperational => true
  | _ => false
  end.

(** What the status check may produce: its own log lines and requests,
    debug lines in debug mode only, and nothing printed. *)
Definition check_event (dbg : bool) (e : event) : bool :=
  match e with
  | Log m => check_message m
  | Debug _ => dbg
  | Print _ => false
  | Http r => is_check_request r
  end.

(** Debug lines in debug mode only; anything else. *)
Definition debug_only_if (dbg : bool) (e : event) : bool :=
  match e with Debug _ => dbg | _ => true end.

(** The model names of a decoded tags document
    ([[model["name"] for model in data.get("models", [])]]), or the
    exception the expression raises. *)
Definition listed_models (data : json) : str + list json :=
  match json_get (lit "models") (JArr []) data with
  | None => inl (lit "AttributeError")
  | Some value =>
      match json_iter value with
      | None => inl (lit "TypeError")
      | Some elems =>
          match names_of elems with
          | None => inl (lit "KeyError")
          | Some models => inr models
          end
      end
  end.

(** [data.get('response', '')[:50]] of the test answer, or the exception
    it raises. *)
Definition test_head (data : json) : str + json :=
  match json_get (lit "response") (JStr []) data with
  | None => inl (lit "AttributeError")
  | Some value =>
      match json_slice50 value with
      | None => inl (lit "TypeError")
      | Some head => inr head
      end
  end.

(** The request of step 3 of the status check. *)
Definition test_request : request :=
  PostGenerate (mkGenerate DEFAULT_MODEL (lit "Hello!") false None).

(** [request_data] of [send_query_to_ollama] (lines 266-279). *)
Definition request_data (prompt : str) (stream : bool)
    (dynamic_ctx_size : option Z) : generate_request :=
  let ctx_size :=
    match dynamic_ctx_size with
    | Some z => if z =? 0 then Context.MAX_CONTEXT_SIZE else z
    | None => Context.MAX_CONTEXT_SIZE
    end in
  mkGenerate DEFAULT_MODEL prompt stream (Some ctx_size).

(** The request that carries the user's prompt. *)
Definition query_request (prompt : str) (stream : bool)
    (dynamic_ctx_size : option Z) : request :=
  PostGenerate (request_data prompt stream dynamic_ctx_size).

Section Program.

(** The environment: character classes and tokenizer of the interpreter's
    libraries, the JSON decoder on text (for [response.json()]) and on
    bytes (for the lines of a stream), the inference server as a state
    machine, and the file system. *)
Variable isspace : char -> bool.
Variable tiktoken_encode : str -> str -> option (list Z).
Variable json_loads : str -> option json.
Variable json_loads_bytes : bytes -> loaded.
Variable server : Type.
Variable serve : server -> request -> (str + response) * server.
Variable filesystem : str -> target_kind.

(** The state the program changes: the server it talks to and the global
    [DEBUG_MODE]. *)
Record state := mkState {
  srv : server;
  DEBUG_MODE : bool
}.

(** A computation maps a state to its result, the new state and the
    events it produced, oldest first. *)
Definition M (A : Type) : Type := state -> A * state * list event.

Definition ret {A : Type} (a : A) : M A := fun st => (a, st, []).

Definition bind {A B : Type} (m : M A) (k : A -> M B) : M B :=
  fun st =>
    let '(a, st1, ev1) := m st in
    let '(b, st2, ev2) := k a st1 in
    (b, st2, ev1 ++ ev2).

Local Notation "x <- c1 ;; c2" := (bind c1 (fun x => c2))
  (at level 61, c1 at next level, right associativity).
Local Notation "c1 ;; c2" := (bind c1 (fun _ => c2))
  (at level 61, right associativity).

Definition emit (e : event) : M unit := fun st => (tt, st, [e]).

Definition log (m : message) : M unit := emit (Log m).

Definition print (p : printed) : M unit := emit (Print p).

(** [debug(message)]: printed only in debug mode. *)
Definition debug_log (m : debug_message) : M unit :=
  fun st => (tt, st, if DEBUG_MODE st then [Debug m] else []).

Definition set_debug (flag : bool) : M unit :=
  fun st => (tt, mkState (srv st) flag, []).

(** [requests.get] / [requests.post]: [inl e] is the exception raised. *)
Definition http (r : request) : M (str + response) :=
  fun st =>
    let (answer, s) := serve (srv st) r in
    (answer, mkState s (DEBUG_MODE st), [Http r]).

(** [response.json()]. *)
Definition response_json (r : response) : option json := json_loads (text r).

(** [count_tokens(text)], with its debug line on the fallback path. *)
Definition count_tokens (text : str) : M Z :=
  match tiktoken_encode (lit "gpt-4") text with
  | Some _ => ret tt
  | None => debug_log DbgCountTokensError
  end ;;
  ret (Tokens.count_tokens tiktoken_encode text (lit "gpt-4")).

(** Step 1 of [check_ollama_status]: the version endpoint answers. *)
Definition check_version : M bool :=
  debug_log DbgCheckingVersion ;;
  r <- http GetVersion ;;
  match r with
  | inl e => log (MsgConnectError e) ;; ret false
  | inr response =>
      debug_log (DbgVersionStatus (status_code response)) ;;
      if status_code response =? 200 then
        match response_json response with
        | Some data => debug_log (DbgVersionData data) ;; ret true
        | None => log (MsgConnectError (lit "JSONDecodeError")) ;; ret false
        end
      else log MsgServerNotResponding ;; ret false
  end.

(** Step 2: the tags endpoint lists [DEFAULT_MODEL]. *)
Definition check_model : M bool :=
  debug_log DbgCheckingModels ;;
  r <- http GetTags ;;
  match r with
  | inl e => log (MsgModelCheckError e) ;; ret false
  | inr response =>
      debug_log (DbgModelsStatus (status_code response)) ;;
      if status_code response =? 200 then
        match response_json response with
        | None => log (MsgModelCheckError (lit "JSONDecodeError")) ;; ret false
        | Some data =>
            match listed_models data with
            | inl e => log (MsgModelCheckError e) ;; ret false
            | inr models =>
                debug_log (DbgAvailableModels models) ;;
                if existsb is_default_model models then
                  debug_log DbgModelAvailable ;; ret true
                else
                  log MsgModelMissing ;;
                  match all_strings models with
                  | Some l => log (MsgAvailableModels l)
                  | None => log (MsgModelCheckError (lit "TypeError"))
                  end ;;
                  ret false
            end
        end
      else log MsgModelListFailed ;; ret false
  end.

(** Step 3: a trivial prompt is answered. *)
Definition check_test : M bool :=
  debug_log DbgTestingModel ;;
  r <- http test_request ;;
  match r with
  | inl e => log (MsgModelTestError e) ;; ret false
  | inr response =>
      if status_code response =? 200 then
        match response_json response with
        | None => log (MsgModelTestError (lit "JSONDecodeError")) ;; ret false
        | Some data =>
            debug_log (DbgTestStatus (status_code response)) ;;
            match test_head data with
            | inl e => log (MsgModelTestError e) ;; ret false
            | inr head => debug_log (DbgTestSuccessful head) ;; ret true
            end
        end
      else log (MsgModelTestFailed (status_code response)) ;; ret false
  end.

(** [check_ollama_status()]: the three steps in order, stopping at the
    first that fails. *)
Definition check_ollama_status : M bool :=
  log MsgStatusCheck ;;
  ok <- check_version ;;
  if negb ok then ret false else
  ok <- check_model ;;
  if negb ok then ret false else
  ok <- check_test ;;
  if negb ok then ret false else
  log MsgOperational ;; ret true.

(** The body of the streaming loop (lines 307-312) over the lines
    yielded; [Some e] is an exception that leaves the loop: the handler of
    line 311 catches [json.JSONDecodeError] and nothing else. *)
Fixpoint stream_lines (lines : list bytes) : M (option str) :=
  match lines with
  | [] => ret None
  | line :: rest =>
      match line with
      | [] => stream_lines rest
      | _ :: _ =>
          match json_loads_bytes line with
          | NotJSON => debug_log (DbgDecodeFailed line) ;; stream_lines rest
          | LoadRaises e => ret (Some e)
          | Loaded chunk =>
              match json_get (lit "response") (JStr []) chunk with
              | None => ret (Some (lit "AttributeError"))
              | Some value => print (Fragment value) ;; stream_lines rest
              end
          end
      end
  end.

(** The non-streaming branch once the response is there (lines 327-343). *)
Definition collect_response (response : Client.response) : M unit :=
  debug_log (DbgResponseStatus (status_code response)) ;;
  if status_code response =? 200 then
    match response_json response with
    | None => log (MsgCommunicationError (lit "JSONDecodeError"))
    | Some data =>
        debug_log DbgParsing ;;
        match data with
        | JObj fields =>
            debug_log (DbgResponseKeys (map fst fields)) ;;
            log MsgResponseCompleted ;;
            match lookup (lit "response") fields with
            | Some value =>
                match json_len value with
                | Some n =>
                    debug_log (DbgResponseLength n) ;;
                    print Banner ;;
                    print (Answer value)
                | None => log (MsgCommunicationError (lit "TypeError"))
                end
            | None => ret tt
            end
        | _ => log (MsgCommunicationError (lit "AttributeError"))
        end
    end
  else
    log (MsgErrorStatus (status_code response)) ;;
    print (RawBody (text response)).

(** The part of [send_query_to_ollama] that follows the status check
    (lines 265-348): build the request, send it, relay the answer. *)
Definition issue_query (prompt : str) (stream : bool)
    (dynamic_ctx_size : option Z) : M unit :=
  let request := query_request prompt stream dynamic_ctx_size in
  debug_log DbgSettingUp ;;
  debug_log (DbgRequestData (request_data prompt stream dynamic_ctx_size)) ;;
  debug_log DbgSending ;;
  if stream then
    log MsgStreaming ;;
    print Banner ;;
    r <- http request ;;
    match r with
    | inl e => log (MsgCommunicationError e) ;; log MsgProcessingComplete
    | inr response =>
        if negb (status_code response =? 200) then
          log (MsgErrorStatus (status_code response))
        else
          failure <- stream_lines (iter_lines response) ;;
          match failure with
          | Some e => log (MsgCommunicationError e)
          | None =>
              match iter_raises response with
              | Some e => log (MsgCommunicationError e)
              | None => print EndOfStream ;; log MsgStreamingCompleted
              end
          end ;;
          log MsgProcessingComplete
    end
  else
    log MsgWaiting ;;
    r <- http request ;;
    match r with
    | inl e => log (MsgCommunicationError e)
    | inr response => collect_response response
    end ;;
    log MsgProcessingComplete.

(** [send_query_to_ollama(prompt, stream, dynamic_ctx_size)]. *)
Definition send_query_to_ollama (prompt : str) (stream : bool)
    (dynamic_ctx_size : option Z) : M unit :=
  est_tokens <- count_tokens prompt ;;
  log (MsgPromptSize est_tokens) ;;
  debug_log (DbgPromptContent prompt) ;;
  debug_log DbgVerifying ;;
  ok <- check_ollama_status ;;
  if negb ok then log MsgNotReady
  else issue_query prompt stream dynamic_ctx_size.

(** The second half of [main] (lines 397-412), once [content] is read:
    build the prompt, size the context, send the query. *)
Definition ask (args : arguments) (content : str) : M (option Z) :=
  let prompt := create_prompt content (query args) (target args) in
  token_count <- count_tokens prompt ;;
  let dynamic_ctx_size := Context.context_size token_count in
  log (MsgContextSize dynamic_ctx_size) ;;
  send_query_to_ollama prompt (arg_stream args) (Some dynamic_ctx_size) ;;
  ret (Some 0).

(** [main()], with the parsed arguments; the result is the exit code
    ([None] only if the traversal's loop were cut short, which
    [get_directory_content] excludes by the fuel it passes). *)
Definition main (args : arguments) : M (option Z) :=
  set_debug (debug args) ;;
  log (MsgStarting (debug args)) ;;
  log (MsgTarget (target args)) ;;
  log (MsgQuery (query args)) ;;
  match filesystem (target args) with
  | Missing => log (MsgTargetMissing (target args)) ;; ret (Some 1)
  | RegularFile data =>
      log (MsgReadingFile (target args)) ;;
      let content := Aggregator.get_file_content (target args) data in
      log (MsgReadBytes (len content) (target args)) ;;
      ask args content
  | Directory root src =>
      log (MsgReadingDirectory (target args) (max_depth args)
             (max_files args)) ;;
      match Aggregator.get_directory_content isspace (target args) src root
              (max_depth args) (max_files args) with
      | Some content =>
          log (MsgProcessedDirectory (len content)) ;;
          ask args content
      | None => ret None
      end
  | Other => log (MsgTargetNeither (target args)) ;; ret (Some 1)
  end.

(** *** The three pre-flight checks, as conditions on the server *)

(** The server's answer to a request, and its state afterwards. *)
Definition answer (s : server) (r : request) : str + response :=
  fst (serve s r).
Definition after (s : server) (r : request) : server := snd (serve s r).

(** The version endpoint is reachable: it answers 200 with a JSON body. *)
Definition version_reachable (s : server) : bool :=
  match answer s GetVersion with
  | inr response =>
      (status_code response =? 200)
      && match response_json response with Some _ => true | None => false end
  | inl _ => false
  end.

(** The target model is in the tags list. *)
Definition model_present (s : server) : bool :=
  match answer s GetTags with
  | inr response =>
      (status_code response =? 200)
      && match response_json response with
         | Some data =>
             match listed_models data with
             | inr models => existsb is_default_model models
             | inl _ => false
             end
         | None => false
         end
  | inl _ => false
  end.

(** The trivial test prompt succeeds. *)
Definition test_succeeds (s : server) : bool :=
  match answer s test_request with
  | inr response =>
      (status_code response =? 200)
      && match response_json response with
         | Some data =>
             match test_head data with inr _ => true | inl _ => false end
         | None => false
         end
  | inl _ => false
  end.

(** All three, each asked of the server as the previous request left
    it. *)
Definition checks_pass (s : server) : bool :=
  version_reachable s
  && model_present (after s GetVersion)
  && test_succeeds (after (after s GetVersion) GetTags).

(** The server once the three checks have been made. *)
Definition after_checks (s : server) : server :=
  after (after (after s GetVersion) GetTags) test_request.

(** The requests the status check makes: it stops at the first check that
    fails. *)
Definition check_requests (s : server) : list request :=
  if version_reachable s then
    if model_present (after s GetVersion) then
      [GetVersion; GetTags; test_request]
    else [GetVersion; GetTags]
  else [GetVersion].

(** The first check that fails is the one reported. *)
Definition failure_reported (s : server) (ev : list event) : Prop :=
  if version_reachable s then
    if model_present (after s GetVersion) then
      if test_succeeds (after (after s GetVersion) GetTags) then True
      else reported reports_test_failure ev = true
    else reported reports_model_failure ev = true
  else reported reports_version_failure ev = true.

(** *** What a computation may do *)

(** [emits dbg P m]: started with [DEBUG_MODE = dbg], the computation [m]
    leaves the flag as it is and produces only events that satisfy
    [P]. *)
Definition emits {A : Type} (dbg : bool) (P : event -> bool) (m : M A)
  : Prop :=
  forall st,
    DEBUG_MODE st = dbg ->
    DEBUG_MODE (snd (fst (m st))) = dbg /\
    forallb P (snd (m st)) = true.

(** *** The fragments of a streamed answer *)

(** What the streaming loop prints for one line when the line is empty,
    is no JSON, or is a JSON object. *)
Definition fragment_of (line : bytes) : list printed :=
  match line with
  | [] => []
  | _ :: _ =>
      match json_loads_bytes line with
      | Loaded (JObj fields) =>
          [Fragment (match lookup (lit "response") fields with
                     | Some v => v
                     | None => JStr []
                     end)]
      | _ => []
      end
  end.

(** The line is one the loop gets past: it is empty, [json.loads] raises
    [JSONDecodeError] on it, or it holds an object. *)
Definition passable (line : bytes) : Prop :=
  line = [] \/ json_loads_bytes line = NotJSON \/
  exists fields, json_loads_bytes line = Loaded (JObj fields).

End Program.

(** *** A sample server, used to run the client *)

(** The bodies it sends, as JSON text. *)
Definition quoted (s : string) : str := [34%N] ++ lit s ++ [34%N].

Definition version_body : str :=
  lit "{" ++ quoted "version" ++ lit ":" ++ quoted "0.5.1" ++ lit "}".

Definition tags_body : str :=
  lit "{" ++ quoted "models" ++ lit ":[{" ++ quoted "name" ++ lit ":"
  ++ [34%N] ++ DEFAULT_MODEL ++ [34%N] ++ lit "}]}".

Definition hello_body : str :=
  lit "{" ++ quoted "response" ++ lit ":" ++ quoted "Hi!" ++ lit "}".

Definition error_body : str := lit "Internal Server Error".

(** [json.loads] on those bodies. *)
Definition sample_loads (text : str) : option json :=
  if str_eqb text version_body then
    Some (JObj [(lit "version", JStr (lit "0.5.1"))])
  else if str_eqb text tags_body then
    Some (JObj [(lit "models",
                 JArr [JObj [(lit "name", JStr DEFAULT_MODEL)]])])
  else if str_eqb text hello_body then
    Some (JObj [(lit "response", JStr (lit "Hi!"))])
  else None.

(** [json.loads] on the same bodies as bytes; the byte 255 occurs in no
    valid UTF-8. *)
Definition sample_loads_bytes (line : bytes) : loaded :=
  if existsb (N.eqb 255) line then LoadRaises (lit "UnicodeDecodeError")
  else match sample_loads line with
       | Some value => Loaded value
       | None => NotJSON
       end.

(** A server that passes the three checks and then answers the query
    itself with [status] and [body]. *)
Definition sample_serve (status : Z) (body : str) (s : unit) (r : request)
  : (str + response) * unit :=
  match r with
  | GetVersion => (inr (mkResponse 200 version_body [version_body] None), s)
  | GetTags => (inr (mkResponse 200 tags_body [tags_body] None), s)
  | PostGenerate b =>
      match num_ctx b with
      | None => (inr (mkResponse 200 hello_body [hello_body] None), s)
      | Some _ => (inr (mkResponse status body [body] None), s)
      end
  end.

(** A server that is not running: every request raises. *)
Definition down_serve (s : unit) (r : request) : (str + response) * unit :=
  (inl (lit "Connection refused"), s).

Definition no_tokenizer (model text : str) : option (list Z) := None.

(** A file system with one source file and the sample project. *)
Definition sample_filesystem (path : str) : target_kind :=
  if str_eqb path (lit "a.py") then
    RegularFile (Aggregator.Text (lit "x = 1"))
  else if str_eqb path (lit "/w/.proj") then
    Directory Aggregator.sample_root Aggregator.sample_ignore
  else if str_eqb path (lit "/dev/null") then Other
  else Missing.

(** A server that passes the three checks and then drops the connection
    on the query itself. *)
Definition flaky_serve (s : unit) (r : request) : (str + response) * unit :=
  match r with
  | PostGenerate b =>
      match num_ctx b with
      | Some _ => (inl (lit "Connection reset"), s)
      | None => sample_serve 200 hello_body s r
      end
  | _ => sample_serve 200 hello_body s r
  end.

(** A decoder that also knows the one-element array [[1]]. *)
Definition array_loads_bytes (line : bytes) : loaded :=
  if str_eqb line (lit "[1]") then Loaded (JArr [JNum 1])
  else sample_loads_bytes line.

End Client.

(** ** The lightweight variant ([ollama-lite.py]) *)

Module Lite.
Import PyStr.
Local Open Scope Z_scope.

(** The parsed command line; [prompt] is [None] when the positional
    argument is left out. *)
Record arguments := mkArguments {
  model : str;
  context : Z;
  pipe : bool;
  prompt : option str
}.

(** An environment, as a dictionary kept in insertion order. *)
Definition environment : Type := list (str * str).

(** [env[key]], when present. *)
Fixpoint env_get (key : str) (env : environment) : option str :=
  match env with
  | [] => None
  | (k, v) :: rest => if str_eqb k key then Some v else env_get key rest
  end.

(** [env[key] = value]. *)
Fixpoint env_set (key value : str) (env : environment) : environment :=
  match env with
  | [] => [(key, value)]
  | (k, v) :: rest =>
      if str_eqb k key then (k, value) :: rest
      else (k, v) :: env_set key value rest
  end.

(** What running the model does: [Popen] or [communicate] raises, or the
    process ends with a return code and its two outputs. *)
Inductive outcome :=
| Raised (e : str)
| Exited (returncode : Z) (stdout stderr : str).

(** What the script finds around it. *)
Record world := mkWorld {
  environ : environment;
  stdin_isatty : bool;
  stdin_text : str;
  run : list str -> environment -> str -> outcome
}.

(** What the script does: the code it exits with (the argument of
    [sys.exit], or 0 when [main] returns), what it prints on each stream,
    and the process it started, if any, with its command, environment and
    input. *)
Record result := mkResult {
  exit_code : Z;
  out : list str;
  err : list str;
  launched : option (list str * environment * str)
}.

(** Lines 30-32: the environment passed to the process. *)
Definition process_env (args : arguments) (w : world) : environment :=
  env_set (lit "OLLAMA_CONTEXT_LENGTH")
    (Aggregator.str_of_Z (context args))
    (env_set (lit "OLLAMA_MAX_INPUT_TOKENS")
       (Aggregator.str_of_Z (context args))
       (environ w)).

(** Lines 35-38: the prompt from the arguments, or from standard input
    when [--pipe] is given or standard input is not a terminal. *)
Definition effective_prompt (args : arguments) (w : world) : option str :=
  if pipe args || negb (stdin_isatty w) then Some (stdin_text w)
  else prompt args.

(** [main()] of ollama-lite.py. *)
Definition main (args : arguments) (w : world) : result :=
  let env := process_env args w in
  match effective_prompt args w with
  | None | Some [] =>
      mkResult 1 []
        [lit "No prompt provided. Use --help for usage information."]
        None
  | Some (c :: p) =>
      let ollama_cmd := [lit "ollama"; lit "run"; model args] in
      let started := Some (ollama_cmd, env, c :: p) in
      match run w ollama_cmd env (c :: p) with
      | Raised e => mkResult 1 [] [lit "Error: " ++ e] started
      | Exited returncode stdout stderr =>
          if negb (returncode =? 0) then
            mkResult returncode [] [lit "Ollama error: " ++ stderr] started
          else mkResult 0 [stdout] [] started
      end
  end.

(** A model runner that echoes its input and fails when [OLLAMA_FAIL] is
    set in its environment. *)
Definition sample_run (cmd : list str) (env : environment) (input : str)
  : outcome :=
  match env_get (lit "OLLAMA_FAIL") env with
  | Some _ => Exited 3 [] (lit "model not found")
  | None => Exited 0 (lit "echo: " ++ input) []
  end.

End Lite.

(** ** The context-window test ([large_context_test.py]) *)

Module ContextTest.
Import PyStr.
Local Open Scope Z_scope.

(** The two-line header and the blank line after it (lines 47-48). *)
Definition header : str :=
  lit "This is a test file to check the context window size of the Ollama model."
  ++ [10%N]
  ++ lit "Each line contains a number that we'll use to determine how much context is actually being used."
  ++ [10%N; 10%N].

(** One numbered line (line 63). *)
Definition numbered_line (i : Z) : str :=
  Aggregator.str_of_Z i ++ lit ". This is line number "
  ++ Aggregator.str_of_Z i ++ lit " in our context window test." ++ [10%N].

(** [range(1, num_lines + 1)]. *)
Definition line_numbers (num_lines : Z) : list Z :=
  map Z.of_nat (seq 1 (Z.to_nat num_lines)).

(** What [generate_test_file] writes to the output file. *)
Definition file_content (num_lines : Z) : str :=
  header ++ flat_map numbered_line (line_numbers num_lines).

Section Capture.

(** [str.isspace] on one character, as used by [str.strip]. *)
Variable isspace : char -> bool.

(** The marker [run_context_test] waits for. *)
Definition response_marker : str := lit "=== Ollama Response ===".

(** The loop of [run_context_test] over the lines of the child's output
    (lines 102-111): [model_output], given [in_response_block]. *)
Fixpoint model_output (in_response_block : bool) (lines : list str)
  : list str :=
  match lines with
  | [] => []
  | line :: rest =>
      if contains line response_marker then model_output true rest
      else if in_response_block
              && negb (match Aggregator.strip isspace line with
                       | [] => true
                       | _ :: _ => false
                       end)
              && negb (startswith line (lit "["))
      then Aggregator.strip isspace line :: model_output in_response_block rest
      else model_output in_response_block rest
  end.

End Capture.

(** Counting the newline characters of a text. *)
Definition newlines (text : str) : Z :=
  Tokens.count_if (N.eqb 10) text.

End ContextTest.

(* ================================================================== *)
(** * Properties                                                       *)
(* ================================================================== *)

Module ContextFacts.
Import Context.
Local Open Scope Z_scope.

Lemma bit_length_pos (n : Z) :
  0 < n -> bit_length n = Z.log2 n + 1.
Proof.
  intros Hn. unfold bit_length.
  destruct (Z.eqb_spec n 0) as [->|_]; [lia|].
  now rewrite Z.abs_eq by lia.
Qed.

Lemma bit_length_nonneg (n : Z) : 0 <= bit_length n.
Proof.
  unfold bit_length. destruct (n =? 0); [lia|].
  pose proof (Z.log2_nonneg (Z.abs n)). lia.
Qed.

Lemma bit_length_mono (x y : Z) :
  0 <= x <= y -> bit_length x <= bit_length y.
Proof.
  intros [Hx Hxy]. unfold bit_length.
  destruct (Z.eqb_spec x 0) as [->|Hx0].
  - destruct (y =? 0); [lia|]. pose proof (Z.log2_nonneg (Z.abs y)). lia.
  - destruct (Z.eqb_spec y 0) as [->|Hy0]; [lia|].
    rewrite !Z.abs_eq by lia.
    pose proof (Z.log2_le_mono x y Hxy). lia.
Qed.

(** [2 ** (n - 1).bit_length()] is at least [n] when [n] is positive. *)
Lemma pow2_bit_length_ge (n : Z) :
  1 <= n -> n <= 2 ^ bit_length (n - 1).
Proof.
  intros Hn. destruct (Z.eq_dec n 1) as [->|Hne].
  - vm_compute. discriminate.
  - rewrite bit_length_pos by lia.
    pose proof (Z.log2_spec (n - 1)) as H.
    replace (Z.succ (Z.log2 (n - 1))) with (Z.log2 (n - 1) + 1) in H by lia.
    lia.
Qed.

(** ... and no power of two in between is skipped. *)
Lemma pow2_bit_length_least (n j : Z) :
  1 <= n -> 0 <= j -> n <= 2 ^ j -> 2 ^ bit_length (n - 1) <= 2 ^ j.
Proof.
  intros Hn Hj Hle. destruct (Z.eq_dec n 1) as [->|Hne].
  - change (2 ^ bit_length (1 - 1)) with 1.
    pose proof (Z.pow_pos_nonneg 2 j). lia.
  - rewrite bit_length_pos by lia.
    apply Z.pow_le_mono_r; [lia|].
    destruct (Z_lt_le_dec j (Z.log2 (n - 1) + 1)) as [Hlt|]; [|lia].
    exfalso.
    assert (2 ^ j <= 2 ^ Z.log2 (n - 1)) by (apply Z.pow_le_mono_r; lia).
    pose proof (Z.log2_spec (n - 1)). lia.
Qed.

Lemma capped_bounds (tc : Z) :
  0 <= tc -> 1000 <= capped tc <= 128000.
Proof. unfold capped, MAX_CONTEXT_SIZE, TOKEN_BUFFER. lia. Qed.

Lemma capped_mono (a b : Z) : a <= b -> capped a <= capped b.
Proof. unfold capped. lia. Qed.

(** The result is a power of two and respects the floor, whatever the
    token count. *)
Lemma context_size_power_of_two (tc : Z) :
  exists k, 0 <= k /\ context_size tc = 2 ^ k.
Proof.
  unfold context_size, round_up.
  pose proof (bit_length_nonneg (capped tc - 1)) as Hk.
  destruct (Z.max_spec 4096 (2 ^ bit_length (capped tc - 1))) as [[_ ->]|[_ ->]].
  - now exists (bit_length (capped tc - 1)).
  - exists 12. split; [lia|reflexivity].
Qed.

Lemma context_size_floor (tc : Z) : 4096 <= context_size tc.
Proof. unfold context_size, round_up. lia. Qed.

(** From 64537 estimated tokens on, the rounding step lands on 2^17. *)
Lemma context_size_saturates (tc : Z) :
  64537 <= tc -> context_size tc = 131072.
Proof.
  intros H. unfold context_size, round_up.
  assert (Hc : 65537 <= capped tc <= 128000)
    by (unfold capped, MAX_CONTEXT_SIZE, TOKEN_BUFFER; lia).
  rewrite bit_length_pos by lia.
  assert (Z.log2 (capped tc - 1) = 16) as ->.
  { apply Z.log2_unique; [lia|]. change (2 ^ 16) with 65536.
    change (2 ^ Z.succ 16) with 131072. lia. }
  reflexivity.
Qed.

(** C1 (fails on the code): the context size is supposed to stay within
    [MAX_CONTEXT_SIZE = 128000]; for an estimate of 127000 tokens the code
    caps the sum at 128000 and then rounds it up to 131072, above the
    maximum it has just applied. *)
Theorem context_size_exceeds_maximum :
  capped 127000 = MAX_CONTEXT_SIZE /\
  context_size 127000 = 131072 /\
  MAX_CONTEXT_SIZE < context_size 127000.
Proof. vm_compute. repeat split. Qed.

(** C2: for a non-negative estimate, the context size is the estimate plus
    the 1000-token buffer, capped at 128000, rounded up to the least power
    of two that is not below it, with a floor of 4096; an estimate of 5000
    gives 8192. *)
Theorem context_size_rounds_up (tc : Z) (Htc : 0 <= tc) :
  let n := Z.min (tc + TOKEN_BUFFER) MAX_CONTEXT_SIZE in
  (exists k, 0 <= k /\
     n <= 2 ^ k /\
     (forall j, 0 <= j -> n <= 2 ^ j -> 2 ^ k <= 2 ^ j) /\
     context_size tc = Z.max 4096 (2 ^ k)) /\
  context_size 5000 = 8192.
Proof.
  intros n. split; [|reflexivity].
  assert (Hn : n = capped tc) by (unfold n, capped; lia).
  pose proof (capped_bounds tc Htc) as Hb.
  exists (bit_length (capped tc - 1)). rewrite Hn.
  split; [apply bit_length_nonneg|].
  split; [apply pow2_bit_length_ge; lia|].
  split; [|reflexivity].
  intros j Hj Hle. apply pow2_bit_length_least; lia.
Qed.

Lemma context_size_rounds_up_witness :
  0 <= 5000 /\
  let n := Z.min (5000 + TOKEN_BUFFER) MAX_CONTEXT_SIZE in
  (exists k, 0 <= k /\
     n <= 2 ^ k /\
     (forall j, 0 <= j -> n <= 2 ^ j -> 2 ^ k <= 2 ^ j) /\
     context_size 5000 = Z.max 4096 (2 ^ k)) /\
  context_size 5000 = 8192.
Proof. split; [lia | apply (context_size_rounds_up 5000); lia]. Defined.

(** C3: among non-negative estimates, a larger estimate never yields a
    smaller context size. *)
Theorem context_size_monotone (a b : Z) (Ha : 0 <= a) (Hab : a <= b) :
  context_size a <= context_size b.
Proof.
  unfold context_size, round_up.
  pose proof (capped_bounds a Ha) as Hca.
  pose proof (capped_mono a b Hab) as Hm.
  apply Z.max_le_compat_l.
  apply Z.pow_le_mono_r; [lia|].
  apply bit_length_mono. lia.
Qed.

Lemma context_size_monotone_witness :
  0 <= 3000 /\ 3000 <= 70000 /\ context_size 3000 <= context_size 70000.
Proof.
  split; [lia | split; [lia | apply (context_size_monotone 3000 70000); lia]].
Defined.

(** Outside the range of token counts the rounding is not monotone, which
    is why the estimate is taken non-negative above. *)
Example context_size_negative_estimate :
  context_size (-11000) = 16384 /\ context_size 0 = 4096.
Proof. vm_compute. split; reflexivity. Qed.

(** *** Further properties of the context sizer *)

(** Rounding a value in [(2^k, 2^(k+1)]] up. *)
Lemma round_up_in_range (n k : Z) :
  12 <= k -> 2 ^ k < n <= 2 ^ (k + 1) -> round_up n = 2 ^ (k + 1).
Proof.
  intros Hk [Hlo Hhi]. unfold round_up.
  assert (Hp : 0 < 2 ^ k) by (apply Z.pow_pos_nonneg; lia).
  rewrite bit_length_pos by lia.
  assert (Z.log2 (n - 1) = k) as ->.
  { apply Z.log2_unique; [lia|].
    replace (Z.succ k) with (k + 1) by lia. lia. }
  assert (2 ^ 12 <= 2 ^ (k + 1)) by (apply Z.pow_le_mono_r; lia).
  change (2 ^ 12) with 4096 in *. lia.
Qed.

Lemma round_up_small (n : Z) : 1 <= n <= 4096 -> round_up n = 4096.
Proof.
  intros [Hlo Hhi]. unfold round_up.
  pose proof (pow2_bit_length_least n 12 Hlo) as H.
  change (2 ^ 12) with 4096 in H. lia.
Qed.

(** The sizer has six possible results. *)
Theorem context_size_values (tc : Z) (Htc : 0 <= tc) :
  In (context_size tc) [4096; 8192; 16384; 32768; 65536; 131072].
Proof.
  pose proof (capped_bounds tc Htc) as Hb. unfold context_size.
  set (n := capped tc) in *. clearbody n.
  destruct (Z_le_gt_dec n 4096).
  { rewrite round_up_small by lia. cbn. auto. }
  destruct (Z_le_gt_dec n 8192).
  { rewrite (round_up_in_range n 12) by (cbn; lia). cbn. auto. }
  destruct (Z_le_gt_dec n 16384).
  { rewrite (round_up_in_range n 13) by (cbn; lia). cbn. auto. }
  destruct (Z_le_gt_dec n 32768).
  { rewrite (round_up_in_range n 14) by (cbn; lia). cbn. auto 6. }
  destruct (Z_le_gt_dec n 65536).
  { rewrite (round_up_in_range n 15) by (cbn; lia). cbn. auto 6. }
  rewrite (round_up_in_range n 16) by (cbn; lia). cbn. auto 7.
Qed.

Lemma context_size_values_witness :
  0 <= 20000 /\
  In (context_size 20000) [4096; 8192; 16384; 32768; 65536; 131072].
Proof. split; [lia | apply (context_size_values 20000); lia]. Defined.

(** As long as the estimate plus the buffer is within the maximum, the
    window holds both, and above the floor it is less than twice as large
    as needed. *)
Theorem context_size_holds_prompt (tc : Z)
    (Htc : 0 <= tc) (Hmax : tc + TOKEN_BUFFER <= MAX_CONTEXT_SIZE) :
  tc + TOKEN_BUFFER <= context_size tc /\
  (4096 <= tc + TOKEN_BUFFER -> context_size tc < 2 * (tc + TOKEN_BUFFER)).
Proof.
  unfold context_size, round_up.
  assert (Hn : capped tc = tc + TOKEN_BUFFER) by (unfold capped; lia).
  rewrite Hn. unfold TOKEN_BUFFER, MAX_CONTEXT_SIZE in *.
  pose proof (pow2_bit_length_ge (tc + 1000)) as Hge.
  split; [lia|]. intros Hbig.
  rewrite bit_length_pos by lia.
  pose proof (Z.log2_spec (tc + 1000 - 1)) as Hlog.
  rewrite Z.pow_add_r by (try apply Z.log2_nonneg; lia).
  change (2 ^ 1) with 2. lia.
Qed.

Lemma context_size_holds_prompt_witness :
  0 <= 5000 /\ 5000 + TOKEN_BUFFER <= MAX_CONTEXT_SIZE /\
  5000 + TOKEN_BUFFER <= context_size 5000 /\
  (4096 <= 5000 + TOKEN_BUFFER ->
   context_size 5000 < 2 * (5000 + TOKEN_BUFFER)).
Proof.
  split; [lia|]. split; [vm_compute; discriminate|].
  apply (context_size_holds_prompt 5000); [lia | vm_compute; discriminate].
Defined.

(** Past that point the window stops growing: an estimate above 130072
    gets 131072 tokens, less than the prompt and the buffer need. *)
Theorem context_size_too_small (tc : Z) (Htc : 130072 < tc) :
  context_size tc = 131072 /\ context_size tc < tc + TOKEN_BUFFER.
Proof.
  rewrite context_size_saturates by lia. unfold TOKEN_BUFFER. lia.
Qed.

Lemma context_size_too_small_witness :
  130072 < 200000 /\
  context_size 200000 = 131072 /\ context_size 200000 < 200000 + TOKEN_BUFFER.
Proof. split; [lia | apply (context_size_too_small 200000); lia]. Defined.

End ContextFacts.

Module TokensFacts.
Import PyStr Tokens.
Local Open Scope Z_scope.

Lemma len_app {A : Type} (a b : list A) : len (a ++ b) = len a + len b.
Proof. unfold len. rewrite length_app. lia. Qed.

Lemma len_nonneg {A : Type} (a : list A) : 0 <= len a.
Proof. unfold len. lia. Qed.

Lemma count_if_app (cond : char -> bool) (a b : str) :
  count_if cond (a ++ b) = count_if cond a + count_if cond b.
Proof. unfold count_if. now rewrite filter_app, len_app. Qed.

Lemma count_if_nonneg (cond : char -> bool) (a : str) : 0 <= count_if cond a.
Proof. apply len_nonneg. Qed.

Section Estimators.

Variables isspace isdigit isalnum : char -> bool.

(** A whitespace character between two texts closes the run being read:
    the words of the whole are the words of the parts. *)
Lemma split_from_sep (sp : char) (w t cur : str) :
  isspace sp = true ->
  split_from isspace cur (t ++ sp :: w) =
  split_from isspace cur t ++ split_from isspace [] w.
Proof.
  intros Hsp. revert cur.
  induction t as [|c t IH]; intros cur; simpl.
  - rewrite Hsp. now destruct cur.
  - destruct (isspace c).
    + destruct cur; simpl; now rewrite IH.
    + apply IH.
Qed.

Lemma split_sep (sp : char) (t w : str) :
  isspace sp = true ->
  len (split isspace (t ++ sp :: w)) =
  len (split isspace t) + len (split isspace w).
Proof.
  intros Hsp. unfold split. now rewrite (split_from_sep sp), len_app.
Qed.

(** The truncated float expression, as integer arithmetic. *)
Lemma estimate_qwen_tokens_eq (text : str) :
  estimate_qwen_tokens isspace isdigit isalnum text =
  len (split isspace text) + count_if is_cjk text
  + (count_if isdigit text + count_if (is_special isspace isalnum) text) / 2.
Proof.
  unfold estimate_qwen_tokens, estimated_tokens, py_int.
  pose proof (len_nonneg (split isspace text)) as Hw.
  pose proof (count_if_nonneg is_cjk text) as Hc.
  pose proof (count_if_nonneg isdigit text) as Hn.
  pose proof (count_if_nonneg (is_special isspace isalnum) text) as Hs.
  set (W := len (split isspace text)) in *.
  set (C := count_if is_cjk text) in *.
  set (D := count_if isdigit text) in *.
  set (S := count_if (is_special isspace isalnum) text) in *.
  cbn [Qnum Qden Qplus Qmult inject_Z Pos.mul].
  rewrite Z.quot_div_nonneg by lia.
  replace (((W + C) * 2 + D * 1 * 1) * 2 + S * 1 * 2)
    with ((W + C) * 4 + (D + S) * 2) by lia.
  rewrite Z.add_comm, Z.div_add by lia.
  change 4 with (2 * 2) at 1.
  rewrite Z.mul_comm.
  rewrite Z.div_mul_cancel_l by lia. lia.
Qed.

Lemma fallback_tokens_nonneg (text : str) : 0 <= fallback_tokens text.
Proof.
  unfold fallback_tokens. apply Z.div_pos; [apply len_nonneg | lia].
Qed.

Variable tiktoken_encode : str -> str -> option (list Z).

Lemma count_tokens_nonneg (text model : str) :
  0 <= count_tokens tiktoken_encode text model.
Proof.
  unfold count_tokens. destruct (tiktoken_encode model text).
  - apply len_nonneg.
  - apply fallback_tokens_nonneg.
Qed.

End Estimators.

(** C4: both estimators return a non-negative integer, and appending a
    space and further text never lowers the Qwen heuristic nor the
    [len(text) // 4] fallback of [count_tokens]. *)
Theorem token_estimators_nonneg_monotone
    (isspace isdigit isalnum : char -> bool)
    (tiktoken_encode : str -> str -> option (list Z))
    (Hspace : isspace 32%N = true) (t w model : str) :
  0 <= estimate_qwen_tokens isspace isdigit isalnum t /\
  0 <= count_tokens tiktoken_encode t model /\
  estimate_qwen_tokens isspace isdigit isalnum t <=
    estimate_qwen_tokens isspace isdigit isalnum (t ++ lit " " ++ w) /\
  fallback_tokens t <= fallback_tokens (t ++ lit " " ++ w).
Proof.
  change (lit " ") with [32%N]. cbn [app].
  rewrite !estimate_qwen_tokens_eq.
  rewrite (split_sep isspace 32%N) by assumption.
  rewrite !count_if_app.
  unfold fallback_tokens. rewrite len_app.
  pose proof (count_tokens_nonneg tiktoken_encode t model) as Hct.
  set (sw := @cons char 32%N w).
  pose proof (len_nonneg t) as Ht.
  pose proof (len_nonneg sw) as Hw.
  pose proof (len_nonneg (split isspace t)) as Hwt.
  pose proof (len_nonneg (split isspace w)) as Hww.
  pose proof (count_if_nonneg is_cjk t) as Hc1.
  pose proof (count_if_nonneg is_cjk sw) as Hc2.
  pose proof (count_if_nonneg isdigit t) as Hd1.
  pose proof (count_if_nonneg isdigit sw) as Hd2.
  pose proof (count_if_nonneg (is_special isspace isalnum) t) as Hs1.
  pose proof (count_if_nonneg (is_special isspace isalnum) sw) as Hs2.
  set (Wt := len (split isspace t)) in *.
  set (Ww := len (split isspace w)) in *.
  set (Ct := count_if is_cjk t) in *.
  set (Cw := count_if is_cjk sw) in *.
  set (Dt := count_if isdigit t) in *.
  set (Dw := count_if isdigit sw) in *.
  set (St := count_if (is_special isspace isalnum) t) in *.
  set (Sw := count_if (is_special isspace isalnum) sw) in *.
  set (Lt := len t) in *.
  set (Lw := len sw) in *.
  clearbody Wt Ww Ct Cw Dt Dw St Sw Lt Lw.
  assert (H0 : 0 <= (Dt + St) / 2) by (apply Z.div_pos; lia).
  assert (H1 : (Dt + St) / 2 <= (Dt + Dw + (St + Sw)) / 2)
    by (apply Z.div_le_mono; lia).
  assert (H2 : Lt / 4 <= (Lt + Lw) / 4) by (apply Z.div_le_mono; lia).
  repeat split; try assumption; lia.
Qed.

(** The heuristic on a line of the generated test file. *)
Example estimate_qwen_tokens_sample :
  estimate_qwen_tokens ascii_isspace ascii_isdigit ascii_isalnum
    (lit "12. This is line number 12 in our context window test.") = 14.
Proof. vm_compute. reflexivity. Qed.

Lemma token_estimators_nonneg_monotone_witness :
  let est := estimate_qwen_tokens ascii_isspace ascii_isdigit ascii_isalnum in
  let enc := fun _ _ : str => @None (list Z) in
  ascii_isspace 32%N = true /\
  0 <= est (lit "line 7.") /\
  0 <= count_tokens enc (lit "line 7.") (lit "gpt-4") /\
  est (lit "line 7.") <= est (lit "line 7." ++ lit " " ++ lit "x1") /\
  fallback_tokens (lit "line 7.")
    <= fallback_tokens (lit "line 7." ++ lit " " ++ lit "x1").
Proof.
  split; [reflexivity|].
  apply (token_estimators_nonneg_monotone
           ascii_isspace ascii_isdigit ascii_isalnum
           (fun _ _ => None) eq_refl
           (lit "line 7.") (lit "x1") (lit "gpt-4")).
Defined.

(** *** Further properties of the estimators *)

Lemma count_if_cons (cond : char -> bool) (c : char) (text : str) :
  count_if cond (c :: text)
  = (if cond c then 1 else 0) + count_if cond text.
Proof.
  unfold count_if, len. cbn [filter].
  destruct (cond c); cbn [List.length]; lia.
Qed.

(** The estimate of two texts joined by a space is at least the sum of
    their estimates, and at most one more when the space is not counted
    as a digit (the two halves of an odd count meet). *)
Theorem estimate_qwen_tokens_joined
    (isspace isdigit isalnum : char -> bool)
    (Hspace : isspace 32%N = true) (t w : str) :
  let est := estimate_qwen_tokens isspace isdigit isalnum in
  est t + est w <= est (t ++ lit " " ++ w) /\
  (isdigit 32%N = false -> est (t ++ lit " " ++ w) <= est t + est w + 1).
Proof.
  cbv zeta. change (lit " ") with [32%N]. cbn [app].
  rewrite !estimate_qwen_tokens_eq.
  rewrite (split_sep isspace 32%N) by assumption.
  rewrite !count_if_app, !count_if_cons.
  assert (is_special isspace isalnum 32%N = false) as ->
    by (unfold is_special; now rewrite Hspace, orb_true_r).
  change (is_cjk 32%N) with false. cbv iota.
  pose proof (count_if_nonneg isdigit t) as Hd1.
  pose proof (count_if_nonneg isdigit w) as Hd2.
  pose proof (count_if_nonneg (is_special isspace isalnum) t) as Hs1.
  pose proof (count_if_nonneg (is_special isspace isalnum) w) as Hs2.
  set (Wt := len (split isspace t)). set (Ww := len (split isspace w)).
  set (Ct := count_if is_cjk t). set (Cw := count_if is_cjk w).
  set (Dt := count_if isdigit t) in *. set (Dw := count_if isdigit w) in *.
  set (St := count_if (is_special isspace isalnum) t) in *.
  set (Sw := count_if (is_special isspace isalnum) w) in *.
  clearbody Wt Ww Ct Cw Dt Dw St Sw.
  pose proof (Z.div_mod (Dt + St) 2) as H1.
  pose proof (Z.mod_pos_bound (Dt + St) 2) as H1'.
  pose proof (Z.div_mod (Dw + Sw) 2) as H2.
  pose proof (Z.mod_pos_bound (Dw + Sw) 2) as H2'.
  split.
  - destruct (isdigit 32%N).
    + pose proof (Z.div_mod (Dt + (1 + Dw) + (St + (0 + Sw))) 2) as H3.
      pose proof (Z.mod_pos_bound (Dt + (1 + Dw) + (St + (0 + Sw))) 2).
      lia.
    + pose proof (Z.div_mod (Dt + (0 + Dw) + (St + (0 + Sw))) 2) as H3.
      pose proof (Z.mod_pos_bound (Dt + (0 + Dw) + (St + (0 + Sw))) 2).
      lia.
  - intros ->.
    pose proof (Z.div_mod (Dt + (0 + Dw) + (St + (0 + Sw))) 2) as H3.
    pose proof (Z.mod_pos_bound (Dt + (0 + Dw) + (St + (0 + Sw))) 2).
    lia.
Qed.

Lemma estimate_qwen_tokens_joined_witness :
  let est := estimate_qwen_tokens ascii_isspace ascii_isdigit ascii_isalnum in
  ascii_isspace 32%N = true /\
  est (lit "a1,") + est (lit "b2;")
    <= est (lit "a1," ++ lit " " ++ lit "b2;") /\
  (ascii_isdigit 32%N = false ->
   est (lit "a1," ++ lit " " ++ lit "b2;")
     <= est (lit "a1,") + est (lit "b2;") + 1).
Proof.
  split; [reflexivity|].
  apply (estimate_qwen_tokens_joined ascii_isspace ascii_isdigit
           ascii_isalnum eq_refl (lit "a1,") (lit "b2;")).
Defined.

(** Both sides of the bound are reached. *)
Example estimate_qwen_tokens_joined_odd :
  let est := estimate_qwen_tokens ascii_isspace ascii_isdigit ascii_isalnum in
  est (lit "a1,") = 2 /\ est (lit "b2;") = 2 /\
  est (lit "a1," ++ lit " " ++ lit "b2;") = 4 /\
  est (lit "a1") = 1 /\ est (lit "b2") = 1 /\
  est (lit "a1" ++ lit " " ++ lit "b2") = 3.
Proof. vm_compute. repeat split. Qed.

(** Without a tokenizer, a prompt of fewer than 12388 characters is given
    the floor of 4096 tokens. *)
Theorem short_prompt_context_floor
    (tiktoken_encode : str -> str -> option (list Z)) (text model : str)
    (Hfallback : tiktoken_encode model text = None)
    (Hshort : len text < 12388) :
  Context.context_size (count_tokens tiktoken_encode text model) = 4096.
Proof.
  unfold count_tokens. rewrite Hfallback. unfold fallback_tokens.
  pose proof (len_nonneg text) as Hlen.
  assert (Hq : 0 <= len text / 4 <= 3096).
  { split; [apply Z.div_pos; lia|].
    apply Z.lt_succ_r. apply Z.div_lt_upper_bound; lia. }
  unfold Context.context_size.
  apply ContextFacts.round_up_small.
  unfold Context.capped, Context.MAX_CONTEXT_SIZE, Context.TOKEN_BUFFER. lia.
Qed.

Lemma short_prompt_context_floor_witness :
  (fun _ _ : str => @None (list Z)) (lit "gpt-4") (lit "explain this")
    = None /\
  len (lit "explain this") < 12388 /\
  Context.context_size
    (count_tokens (fun _ _ => None) (lit "explain this") (lit "gpt-4"))
  = 4096.
Proof.
  split; [reflexivity|]. split; [reflexivity|].
  apply (short_prompt_context_floor (fun _ _ => None)
           (lit "explain this") (lit "gpt-4")); reflexivity.
Defined.

End TokensFacts.

Module AggregatorFacts.
Import PyStr Aggregator.
Local Open Scope Z_scope.

(** An invariant kept by every step of a left fold is kept by the fold. *)
Lemma fold_left_inv {A B : Type} (P : A -> Prop) (f : A -> B -> A)
    (l : list B) (a : A) :
  P a -> (forall a x, In x l -> P a -> P (f a x)) -> P (fold_left f l a).
Proof.
  revert a. induction l as [|x l IH]; intros a Ha Hstep; simpl.
  - exact Ha.
  - apply IH.
    + apply Hstep; [now left | exact Ha].
    + intros a' y Hy. apply Hstep. now right.
Qed.

Lemma insert_sorted_In (x y : node) (l : list node) :
  In y (insert_sorted x l) <-> y = x \/ In y l.
Proof.
  induction l as [|z l IH]; simpl.
  - intuition.
  - destruct (key_ltb z x); simpl; rewrite ?IH; intuition.
Qed.

(** Sorting neither loses nor invents entries. *)
Lemma sorted_In (y : node) (l : list node) : In y (sorted l) <-> In y l.
Proof.
  induction l as [|x l IH]; simpl.
  - reflexivity.
  - rewrite insert_sorted_In, IH. intuition.
Qed.

Lemma should_ignore_excluded (pats : list str) (rel : relpath) (e : node) :
  should_ignore pats rel e = false -> excluded pats rel = false.
Proof.
  unfold should_ignore, excluded.
  destruct (startswith (rel_name rel) (lit ".")); [discriminate|].
  destruct (matches_patterns (rel_str rel) pats); [discriminate|].
  reflexivity.
Qed.

Lemma clear_root (pats : list str) : clear pats [].
Proof.
  intros q rest H Hq. symmetry in H. apply app_eq_nil in H. tauto.
Qed.

Lemma clear_snoc (pats : list str) (rel : relpath) (x : str) :
  clear pats rel -> excluded pats (rel ++ [x]) = false ->
  clear pats (rel ++ [x]).
Proof.
  intros Hrel Hx q rest Heq Hq.
  destruct rest as [|r rest] using rev_ind.
  - rewrite app_nil_r in Heq. now subst q.
  - clear IHrest. rewrite app_assoc in Heq.
    apply app_inj_tail in Heq as [Heq _].
    now apply (Hrel q rest).
Qed.

Lemma count_bodies_app (a b : list item) :
  count_bodies (a ++ b) = count_bodies a + count_bodies b.
Proof.
  unfold count_bodies, len. rewrite filter_app, length_app. lia.
Qed.

Lemma count_headers_app (a b : list item) :
  len (filter is_file_header (a ++ b)) =
  len (filter is_file_header a) + len (filter is_file_header b).
Proof. unfold len. rewrite filter_app, length_app. lia. Qed.

Lemma depth_snoc (rel : relpath) (x : str) : depth (rel ++ [x]) = depth rel + 1.
Proof. unfold depth, len. rewrite length_app. simpl. lia. Qed.

Section Walk.

Variable dir_path : str.
Variable pats : list str.
Variables max_depth max_files : Z.

Local Notation "'inv' d w" :=
  (walk_inv pats max_depth max_files d
     (result w) (file_count w) (next_dirs w))
  (at level 10, d at level 9, w at level 9).

(** Appending elements that are not directory headers, that are about
    clear paths, and that account for the change of the file counter. *)
Lemma walk_inv_emit (d : Z) (w : walk) (its : list item) (count : Z)
    (next : list (relpath * node)) :
  inv d w ->
  (forall rel, ~ In (DirHeader rel) its) ->
  (forall it rel, In it its -> item_path it = Some rel -> clear pats rel) ->
  count = file_count w + count_bodies its ->
  count = file_count w + len (filter is_file_header its) ->
  count <= Z.max 0 max_files ->
  (forall rel n, In (rel, n) next -> depth rel = d + 1 /\ clear pats rel) ->
  walk_inv pats max_depth max_files d (result w ++ its) count next.
Proof.
  intros [Hd Hc Hb Hh Hl Hnd Hnc] Hnohdr Hclear Hcount Hcount' Hle Hnext.
  constructor.
  - intros rel Hin. apply in_app_or in Hin as [Hin|Hin]; [now apply Hd|].
    now apply Hnohdr in Hin.
  - intros it rel Hin Hp. apply in_app_or in Hin as [Hin|Hin]; eauto.
  - rewrite count_bodies_app. lia.
  - rewrite count_headers_app. lia.
  - exact Hle.
  - intros rel n Hin. now apply Hnext in Hin.
  - intros rel n Hin. now apply Hnext in Hin.
Qed.

Lemma process_entry_inv (d : Z) (rel_dir : relpath) (w : walk) (e : node) :
  depth rel_dir = d -> clear pats rel_dir -> inv d w ->
  inv d (process_entry dir_path pats max_files rel_dir w e).
Proof.
  intros Hdepth Hclear Hinv. unfold process_entry.
  destruct (should_ignore pats (rel_dir ++ [node_name e]) e) eqn:Hign;
    [exact Hinv|].
  assert (Hrel : clear pats (rel_dir ++ [node_name e]))
    by (apply clear_snoc;
        [exact Hclear | now apply should_ignore_excluded with e]).
  assert (Hnext : forall rel n, In (rel, n) (next_dirs w) ->
                    depth rel = d + 1 /\ clear pats rel)
    by (intros rel n Hin; split;
        [eapply inv_next_depth | eapply inv_next_clear]; eauto).
  pose proof (inv_limit _ _ _ _ _ _ _ Hinv) as Hlim.
  destruct e as [name size data|name entries|name err|name]; cbn [node_name].
  - destruct (Z.ltb_spec (file_count w) max_files) as [Hlt|Hge]; cbn.
    + apply walk_inv_emit; try assumption; cbn; try lia.
      * intros rel [H|[H|[]]]; discriminate.
      * intros it rel [<-|[<-|[]]] [= <-]; exact Hrel.
    + apply walk_inv_emit; try assumption; cbn; try lia.
      * intros rel [H|[]]; discriminate.
      * intros it rel [<-|[]] [= <-]; exact Hrel.
  - cbn. rewrite <- (app_nil_r (result w)).
    apply walk_inv_emit; try assumption; cbn; try lia; try tauto.
    intros rel n Hin. apply in_app_or in Hin as [Hin|[[= <- <-]|[]]].
    + now apply Hnext in Hin.
    + split; [rewrite depth_snoc; lia | exact Hrel].
  - cbn. rewrite <- (app_nil_r (result w)).
    apply walk_inv_emit; try assumption; cbn; try lia; try tauto.
    intros rel n Hin. apply in_app_or in Hin as [Hin|[[= <- <-]|[]]].
    + now apply Hnext in Hin.
    + split; [rewrite depth_snoc; lia | exact Hrel].
  - exact Hinv.
Qed.

Lemma process_dir_inv (d : Z) (w : walk) (rel : relpath) (n : node) :
  d < max_depth -> depth rel = d -> clear pats rel -> inv d w ->
  inv d (process_dir dir_path pats max_files w (rel, n)).
Proof.
  intros Hlt Hdepth Hclear Hinv. unfold process_dir.
  assert (Hhdr : inv d (emit w [DirHeader rel])).
  { destruct Hinv as [Hd Hc Hb Hh Hl Hnd Hnc]. constructor; cbn; auto.
    - intros r Hin. apply in_app_or in Hin as [Hin|[[= <-]|[]]]; auto. lia.
    - intros it r Hin Hp. apply in_app_or in Hin as [Hin|[<-|[]]]; eauto.
      now injection Hp as <-.
    - rewrite count_bodies_app. cbn. lia.
    - rewrite count_headers_app. cbn. lia. }
  destruct (iterdir n) as [err|entries].
  - destruct Hhdr as [Hd Hc Hb Hh Hl Hnd Hnc]. constructor; cbn; auto.
    + intros r Hin. apply in_app_or in Hin as [Hin|[[=]|[]]]. auto.
    + intros it r Hin Hp. apply in_app_or in Hin as [Hin|[<-|[]]]; eauto.
      now injection Hp as <-.
    + rewrite count_bodies_app. cbn in *. lia.
    + rewrite count_headers_app. cbn in *. lia.
  - apply (fold_left_inv (fun w => inv d w)); [exact Hhdr|].
    intros w' e _ Hw'. now apply process_entry_inv.
Qed.

Lemma process_level_inv (d : Z) (dirs : list (relpath * node)) (w : walk) :
  d < max_depth ->
  (forall rel n, In (rel, n) dirs -> depth rel = d /\ clear pats rel) ->
  inv d w ->
  inv d (fold_left (process_dir dir_path pats max_files) dirs w).
Proof.
  intros Hlt Hdirs Hinv.
  apply (fold_left_inv (fun w => inv d w)); [exact Hinv|].
  intros w' [rel n] Hin Hw'. destruct (Hdirs rel n Hin).
  now apply process_dir_inv.
Qed.

Lemma walk_inv_restart (d d' : Z) (items : list item) (count : Z)
    (next : list (relpath * node)) :
  walk_inv pats max_depth max_files d items count next ->
  walk_inv pats max_depth max_files d' items count [].
Proof.
  intros [Hd Hc Hb Hh Hl _ _]. constructor; auto; intros rel n [].
Qed.

(** The loop keeps the invariant, whatever the fuel. *)
Lemma bfs_inv (fuel : nat) :
  forall dirs d items count items' count',
    (forall rel n, In (rel, n) dirs -> depth rel = d /\ clear pats rel) ->
    walk_inv pats max_depth max_files d items count [] ->
    bfs dir_path pats max_depth max_files fuel dirs d items count
      = Some (items', count') ->
    walk_inv pats max_depth max_files d items' count' [].
Proof.
  induction fuel as [|fuel IH]; intros dirs d items count items' count'
    Hdirs Hinv Hrun; cbn in Hrun;
    destruct (negb match dirs with [] => true | _ :: _ => false end
              && (d <? max_depth) && (count <? max_files)) eqn:Hcond;
    try discriminate; try (injection Hrun as <- <-; exact Hinv).
  apply andb_prop in Hcond as [Hcond _].
  apply andb_prop in Hcond as [_ Hlt]. apply Z.ltb_lt in Hlt.
  pose proof (process_level_inv d dirs (mkWalk items count []) Hlt Hdirs Hinv)
    as Hw.
  set (w := fold_left (process_dir dir_path pats max_files) dirs
              (mkWalk items count [])) in *.
  apply (walk_inv_restart (d + 1) d items' count' []).
  apply (IH (next_dirs w) (d + 1) (result w) (file_count w)).
  - intros rel n Hin. split.
    + eapply inv_next_depth; eauto.
    + eapply inv_next_clear; eauto.
  - eapply walk_inv_restart; exact Hw.
  - exact Hrun.
Qed.

(** [max_depth - current_depth] units of fuel are enough for the loop to
    reach the end. *)
Lemma bfs_total (fuel : nat) :
  forall dirs d items count,
    (Z.to_nat (max_depth - d) <= fuel)%nat ->
    exists out,
      bfs dir_path pats max_depth max_files fuel dirs d items count
        = Some out.
Proof.
  induction fuel as [|fuel IH]; intros dirs d items count Hfuel; cbn;
    destruct (negb match dirs with [] => true | _ :: _ => false end
              && (d <? max_depth) && (count <? max_files)) eqn:Hcond;
    eauto.
  - apply andb_prop in Hcond as [Hcond _].
    apply andb_prop in Hcond as [_ Hlt]. apply Z.ltb_lt in Hlt. lia.
  - apply andb_prop in Hcond as [Hcond _].
    apply andb_prop in Hcond as [_ Hlt]. apply Z.ltb_lt in Hlt.
    apply IH. lia.
Qed.

Lemma collect_total (root : node) :
  exists items,
    collect dir_path pats max_depth max_files root = Some items.
Proof.
  unfold collect.
  destruct (bfs_total (Z.to_nat max_depth) [([], root)] 0 [] 0)
    as [[items count] ->]; [f_equal; lia|].
  destruct (max_files <=? count); eauto.
Qed.

(** The invariant at the end of the traversal. *)
Lemma collect_inv (root : node) (items : list item) :
  collect dir_path pats max_depth max_files root = Some items ->
  (forall rel, In (DirHeader rel) items -> depth rel < max_depth) /\
  (forall it rel, In it items -> item_path it = Some rel ->
     clear pats rel) /\
  count_bodies items <= Z.max 0 max_files /\
  len (filter is_file_header items) = count_bodies items.
Proof.
  unfold collect.
  destruct (bfs dir_path pats max_depth max_files (Z.to_nat max_depth)
              [([], root)] 0 [] 0) as [[items0 count]|] eqn:Hrun;
    [|discriminate].
  apply bfs_inv in Hrun.
  - destruct Hrun as [Hd Hc Hb Hh Hl _ _]. intros Hout.
    assert (Hshape : items = items0 \/ items = items0 ++ [Warning count])
      by (destruct (max_files <=? count); injection Hout as <-; auto).
    destruct Hshape as [->| ->].
    + repeat split; auto; lia.
    + repeat split.
      * intros rel Hin. apply in_app_or in Hin as [Hin|[[=]|[]]]. auto.
      * intros it rel Hin Hp.
        apply in_app_or in Hin as [Hin|[<-|[]]]; [eauto|discriminate].
      * rewrite count_bodies_app. cbn. lia.
      * rewrite count_headers_app, count_bodies_app. cbn. lia.
  - intros rel n [[= <- <-]|[]]. split; [reflexivity | apply clear_root].
  - constructor; cbn; try tauto; try reflexivity; try lia.
Qed.

(** *** The output only grows *)

Lemma process_entry_extends (rel_dir : relpath) (w : walk) (e : node) :
  exists more,
    result (process_entry dir_path pats max_files rel_dir w e)
    = result w ++ more.
Proof.
  unfold process_entry.
  destruct (should_ignore pats (rel_dir ++ [node_name e]) e);
    [exists []; now rewrite app_nil_r|].
  destruct e; try destruct (file_count w <? max_files); cbn;
    eauto; exists []; now rewrite app_nil_r.
Qed.

Lemma fold_extends {B : Type} (f : walk -> B -> walk) (l : list B) :
  (forall w x, exists more, result (f w x) = result w ++ more) ->
  forall w, exists more, result (fold_left f l w) = result w ++ more.
Proof.
  intros Hf. induction l as [|x l IH]; intros w; cbn.
  - exists []. now rewrite app_nil_r.
  - destruct (IH (f w x)) as [m2 ->]. destruct (Hf w x) as [m1 ->].
    exists (m1 ++ m2). now rewrite app_assoc.
Qed.

Lemma process_dir_extends (w : walk) (current : relpath * node) :
  exists more,
    result (process_dir dir_path pats max_files w current)
    = result w ++ more.
Proof.
  destruct current as [rel n]. unfold process_dir.
  destruct (iterdir n) as [err|entries].
  - cbn. rewrite <- app_assoc. eauto.
  - destruct (fold_extends (process_entry dir_path pats max_files rel)
                (sorted entries) (process_entry_extends rel)
                (emit w [DirHeader rel])) as [more ->].
    cbn. rewrite <- app_assoc. eauto.
Qed.

Lemma bfs_extends (fuel : nat) :
  forall dirs d items count items' count',
    bfs dir_path pats max_depth max_files fuel dirs d items count
      = Some (items', count') ->
    exists more, items' = items ++ more.
Proof.
  induction fuel as [|fuel IH]; intros dirs d items count items' count' Hrun;
    cbn in Hrun;
    destruct (negb match dirs with [] => true | _ :: _ => false end
              && (d <? max_depth) && (count <? max_files));
    try discriminate;
    try (injection Hrun as <- <-; exists []; now rewrite app_nil_r).
  apply IH in Hrun as [m2 ->].
  destruct (fold_extends (process_dir dir_path pats max_files) dirs
              process_dir_extends (mkWalk items count [])) as [m1 ->].
  cbn. exists (m1 ++ m2). now rewrite app_assoc.
Qed.

(** A file of the directory being listed that [should_ignore] lets through
    leaves its body, or a skip marker once the limit is reached. *)
Lemma process_entries_file (rel_dir : relpath) (name : str) (size : Z)
    (data : file_data) (l : list node) :
  forall w,
    In (File name size data) l ->
    should_ignore pats (rel_dir ++ [name]) (File name size data) = false ->
    let w' := fold_left (process_entry dir_path pats max_files rel_dir) l w in
    (In (FileHeader (rel_dir ++ [name])) (result w') /\
     In (FileBody (rel_dir ++ [name])
           (get_file_content (path_str dir_path (rel_dir ++ [name])) data))
        (result w')) \/
    In (SkippedFile (rel_dir ++ [name])) (result w').
Proof.
  induction l as [|e l IH]; intros w Hin Hign; [destruct Hin|].
  destruct Hin as [->|Hin]; [|now apply IH].
  cbn [fold_left].
  set (w1 := process_entry dir_path pats max_files rel_dir w
               (File name size data)).
  destruct (fold_extends (process_entry dir_path pats max_files rel_dir) l
              (process_entry_extends rel_dir) w1) as [more Hmore].
  cbn zeta. rewrite Hmore.
  subst w1. unfold process_entry. cbn [node_name]. rewrite Hign.
  destruct (file_count w <? max_files); cbn [result emit].
  - left. split; apply in_or_app; left; apply in_or_app; right; cbn; auto.
  - right. apply in_or_app; left; apply in_or_app; right; cbn; auto.
Qed.

(** With a positive depth and file limit the root is listed, whatever its
    name: its header comes first, and its own files follow. *)
Lemma collect_root (root : node) (items : list item) :
  0 < max_depth -> 0 < max_files ->
  collect dir_path pats max_depth max_files root = Some items ->
  (exists more, items = DirHeader [] :: more) /\
  (forall name entries fname size data,
     root = Dir name entries ->
     In (File fname size data) entries ->
     should_ignore pats [fname] (File fname size data) = false ->
     (In (FileHeader [fname]) items /\
      In (FileBody [fname]
            (get_file_content (path_str dir_path [fname]) data)) items) \/
     In (SkippedFile [fname]) items).
Proof.
  intros Hdepth Hfiles. unfold collect.
  destruct (Z.to_nat max_depth) as [|fuel] eqn:Hfuel; [lia|].
  cbn [bfs negb andb].
  destruct (Z.ltb_spec 0 max_depth); [|lia].
  destruct (Z.ltb_spec 0 max_files); [|lia].
  cbn [andb fold_left].
  set (w := process_dir dir_path pats max_files (mkWalk [] 0 []) ([], root)).
  destruct (bfs dir_path pats max_depth max_files fuel (next_dirs w) (0 + 1)
              (result w) (file_count w)) as [[items0 count]|] eqn:Hrun;
    [|discriminate].
  apply bfs_extends in Hrun as [more ->]. intros Hout.
  assert (Hshape : exists tail, items = result w ++ tail).
  { destruct (max_files <=? count); injection Hout as <-;
      [rewrite <- app_assoc|]; eauto. }
  destruct Hshape as [tail ->]. clear Hout. split.
  - subst w. unfold process_dir.
    destruct (iterdir root) as [err|entries]; [cbn; eauto|].
    destruct (fold_extends (process_entry dir_path pats max_files [])
                (sorted entries) (process_entry_extends [])
                (emit (mkWalk [] 0 []) [DirHeader []])) as [m ->].
    cbn. eauto.
  - intros name entries fname size data -> Hin Hign.
    subst w. unfold process_dir. cbn [iterdir].
    apply sorted_In in Hin.
    destruct (process_entries_file [] fname size data (sorted entries)
                (emit (mkWalk [] 0 []) [DirHeader []]) Hin Hign)
      as [[H1 H2]|H1]; [left; split | right]; apply in_or_app; left;
      assumption.
Qed.

(** *** What the traversal reaches *)

















Section Reach.

Variable root : node.
Variable items' : list item.
Variable count' : Z.
Variable fuel0 : nat.
Hypothesis Hrun :
  bfs dir_path pats max_depth max_files fuel0 [([], root)] 0 [] 0
  = Some (items', count').
Hypothesis Hlimit : count' < max_files.



End Reach.




End Walk.

Lemma matches_patterns_existsb (rel_path : str) (pats : list str) :
  matches_patterns rel_path pats = existsb (pattern_matches rel_path) pats.
Proof.
  induction pats as [|p pats IH]; cbn [matches_patterns existsb];
    [reflexivity|].
  unfold pattern_matches at 1.
  destruct (endswith p (lit "/") && startswith rel_path (drop_last p));
    [reflexivity|].
  destruct (startswith p (lit "*") && endswith rel_path (drop_first p));
    [reflexivity|].
  destruct (contains rel_path p); [reflexivity|]. exact IH.
Qed.

Lemma excluded_intro (pats : list str) (q : relpath) :
  startswith (rel_name q) (lit ".") = true \/
  (exists pattern, In pattern pats /\
                   pattern_matches (rel_str q) pattern = true) ->
  excluded pats q = true.
Proof.
  unfold excluded. intros [->|Hpat]; [reflexivity|].
  rewrite matches_patterns_existsb.
  apply orb_true_iff. right. now apply existsb_exists.
Qed.

Section Claims.

Variable isspace : char -> bool.
Variable dir_path : str.
Variable src : ignore_source.
Variables max_depth max_files : Z.

(** The model of [get_directory_content] always returns: the fuel it
    gives its loop is enough. *)
Lemma get_directory_items_total (root : node) :
  exists out,
    get_directory_items isspace dir_path src root max_depth max_files
    = Some out.
Proof.
  unfold get_directory_items.
  destruct (ignored_patterns_of isspace src) as [err|pats]; [eauto|].
  destruct (collect_total dir_path pats max_depth max_files root)
    as [items ->].
  eauto.
Qed.

Lemma get_directory_items_collect (root : node) (pats : list str)
    (items : list item) :
  ignored_patterns_of isspace src = inr pats ->
  get_directory_items isspace dir_path src root max_depth max_files
    = Some (inr items) ->
  collect dir_path pats max_depth max_files root = Some items.
Proof.
  unfold get_directory_items. intros ->.
  destruct (collect dir_path pats max_depth max_files root);
    [|discriminate].
  now intros [= ->].
Qed.

End Claims.

(** C5: [get_directory_content] returns, and in what it returns every
    directory visited (every directory header) lies at a depth below
    [max_depth], at most [max_files] file bodies are present, and every
    file header is paired with a body: files beyond the limit leave no
    header and no body. *)
Theorem traversal_bounded (isspace : char -> bool) (dir_path : str)
    (src : ignore_source) (root : node) (max_depth max_files : Z)
    (Hfiles : 0 <= max_files) :
  exists out,
    get_directory_items isspace dir_path src root max_depth max_files
      = Some out /\
    match out with
    | inl _ => True
    | inr items =>
        (forall rel, In (DirHeader rel) items -> depth rel < max_depth) /\
        count_bodies items <= max_files /\
        len (filter is_file_header items) = count_bodies items
    end.
Proof.
  destruct (get_directory_items_total isspace dir_path src max_depth
              max_files root) as [out Hout].
  exists out. split; [exact Hout|].
  destruct out as [err|items]; [exact I|].
  destruct (ignored_patterns_of isspace src) as [err|pats] eqn:Hpats.
  - unfold get_directory_items in Hout. rewrite Hpats in Hout. discriminate.
  - apply (get_directory_items_collect _ _ _ _ _ _ pats) in Hout;
      [|exact Hpats].
    apply collect_inv in Hout as (Hd & _ & Hb & Hh).
    repeat split; [exact Hd | lia | exact Hh].
Qed.

Lemma traversal_bounded_witness :
  0 <= 2 /\
  exists out,
    get_directory_items Tokens.ascii_isspace (lit "/w/.proj") sample_ignore
      sample_root 2 2 = Some out /\
    match out with
    | inl _ => True
    | inr items =>
        (forall rel, In (DirHeader rel) items -> depth rel < 2) /\
        count_bodies items <= 2 /\
        len (filter is_file_header items) = count_bodies items
    end.
Proof.
  split; [lia|].
  apply (traversal_bounded Tokens.ascii_isspace (lit "/w/.proj")
           sample_ignore sample_root 2 2).
  lia.
Defined.

(** C6: an entry below the root whose name begins with a dot, or whose
    relative path matches a loaded pattern (prefix for a pattern ending in
    a slash, suffix for one starting with an asterisk, or substring), has
    nothing in the output: no element is about it or about anything
    beneath it. *)
Theorem ignored_entries_absent (isspace : char -> bool) (dir_path : str)
    (src : ignore_source) (root : node) (max_depth max_files : Z)
    (patterns : list str) (q : relpath)
    (Hpat : ignored_patterns_of isspace src = inr patterns)
    (Hq : q <> [])
    (Hexcl : startswith (rel_name q) (lit ".") = true \/
             exists pattern, In pattern patterns /\
                             pattern_matches (rel_str q) pattern = true) :
  exists items,
    get_directory_items isspace dir_path src root max_depth max_files
      = Some (inr items) /\
    forall it rest, In it items -> item_path it <> Some (q ++ rest).
Proof.
  destruct (collect_total dir_path patterns max_depth max_files root)
    as [items Hrun].
  exists items. split.
  - unfold get_directory_items. now rewrite Hpat, Hrun.
  - intros it rest Hin Hpath.
    apply collect_inv in Hrun as (_ & Hclear & _).
    pose proof (Hclear it (q ++ rest) Hin Hpath q rest eq_refl Hq) as Hfalse.
    rewrite (excluded_intro patterns q Hexcl) in Hfalse. discriminate.
Qed.

Lemma ignored_entries_absent_witness :
  ignored_patterns_of Tokens.ascii_isspace sample_ignore
    = inr [lit "build/"] /\
  [lit "build"] <> [] /\
  (startswith (rel_name [lit "build"]) (lit ".") = true \/
   exists pattern, In pattern [lit "build/"] /\
                   pattern_matches (rel_str [lit "build"]) pattern = true) /\
  exists items,
    get_directory_items Tokens.ascii_isspace (lit "/w/.proj") sample_ignore
      sample_root 3 50 = Some (inr items) /\
    forall it rest, In it items ->
      item_path it <> Some ([lit "build"] ++ rest).
Proof.
  assert (Hpat : ignored_patterns_of Tokens.ascii_isspace sample_ignore
                 = inr [lit "build/"]) by reflexivity.
  assert (Hq : [lit "build"] <> []) by discriminate.
  assert (Hexcl :
            startswith (rel_name [lit "build"]) (lit ".") = true \/
            exists pattern, In pattern [lit "build/"] /\
              pattern_matches (rel_str [lit "build"]) pattern = true)
    by (right; exists (lit "build/"); split; [now left | reflexivity]).
  repeat split; try assumption.
  exact (ignored_entries_absent Tokens.ascii_isspace (lit "/w/.proj")
           sample_ignore sample_root 3 50 [lit "build/"] [lit "build"]
           Hpat Hq Hexcl).
Defined.

(** The scenario of the specification: a directory with one 10-byte file
    and one hidden file yields exactly one file body. *)
Example one_body_for_one_visible_file :
  let root := Dir (lit "d")
                [ File (lit "notes.txt") 10 (Text (lit "0123456789"));
                  File (lit ".hidden") 4 (Text (lit "nope")) ] in
  get_directory_items Tokens.ascii_isspace (lit "d") NoIgnoreFile root 3 50
  = Some (inr [DirHeader [];
               FileHeader [lit "notes.txt"];
               FileBody [lit "notes.txt"] (lit "0123456789")]).
Proof. reflexivity. Qed.

(** *** Where the elements of the output come from *)

Section Provenance.

Variable dir_path : str.
Variable pats : list str.
Variables max_depth max_files : Z.
Variable root : node.

Local Notation sound := (sound_item dir_path pats root).

Local Notation sound_walk := (sound_walk dir_path pats root).

Lemma process_entry_sound (rel_dir : relpath) (name : str)
    (entries : list node) (w : walk) (e : node) :
  at_path root rel_dir (Dir name entries) -> In e entries ->
  sound_walk w ->
  sound_walk (process_entry dir_path pats max_files rel_dir w e).
Proof.
  intros Hdir Hin [Hres Hnext]. unfold process_entry.
  pose proof (at_child root rel_dir name entries e Hdir Hin) as Hat.
  destruct (should_ignore pats (rel_dir ++ [node_name e]) e) eqn:Hign;
    [now split|].
  destruct e as [fname size data|dname dentries|dname err|sname];
    cbn [node_name] in *.
  - destruct (file_count w <? max_files); split; cbn; try assumption;
      apply Forall_app; split; try assumption;
      repeat constructor; cbn; eauto 10.
  - split; cbn; [assumption|].
    intros rel n Hq. apply in_app_or in Hq as [Hq|[[= <- <-]|[]]]; auto.
  - split; cbn; [assumption|].
    intros rel n Hq. apply in_app_or in Hq as [Hq|[[= <- <-]|[]]]; auto.
  - now split.
Qed.

Lemma process_dir_sound (w : walk) (rel : relpath) (n : node) :
  at_path root rel n -> sound_walk w ->
  sound_walk (process_dir dir_path pats max_files w (rel, n)).
Proof.
  intros Hat [Hres Hnext]. unfold process_dir.
  assert (Hhdr : sound_walk (emit w [DirHeader rel])).
  { split; cbn; [|assumption].
    apply Forall_app. split; [assumption|].
    repeat constructor. cbn. eauto. }
  destruct (iterdir n) as [err|entries] eqn:Hiter.
  - destruct Hhdr as [Hres' Hnext']. split; cbn in *; [|assumption].
    apply Forall_app. split; [assumption|].
    repeat constructor. cbn. eauto.
  - destruct n as [| name entries' | |]; try discriminate.
    injection Hiter as ->.
    apply (fold_left_inv sound_walk); [exact Hhdr|].
    intros w' e He Hw'. apply (proj1 (sorted_In _ _)) in He.
    now apply (process_entry_sound rel name entries).
Qed.

Lemma bfs_sound (fuel : nat) :
  forall dirs d items count items' count',
    (forall rel n, In (rel, n) dirs -> at_path root rel n) ->
    Forall sound items ->
    bfs dir_path pats max_depth max_files fuel dirs d items count
      = Some (items', count') ->
    Forall sound items'.
Proof.
  induction fuel as [|fuel IH]; intros dirs d items count items' count'
    Hdirs Hitems Hrun; cbn in Hrun;
    destruct (negb match dirs with [] => true | _ :: _ => false end
              && (d <? max_depth) && (count <? max_files));
    try discriminate; try (injection Hrun as <- <-; exact Hitems).
  assert (Hw : sound_walk
                 (fold_left (process_dir dir_path pats max_files) dirs
                    (mkWalk items count []))).
  { apply (fold_left_inv sound_walk).
    - split; [exact Hitems | intros rel n []].
    - intros w [rel n] Hin Hw. apply process_dir_sound; auto. }
  destruct Hw as [Hres Hnext].
  now apply IH in Hrun.
Qed.

(** The traversal adds nothing of its own: apart from the closing
    warning, every element of its output is sound. *)
Lemma collect_sound (items : list item) :
  collect dir_path pats max_depth max_files root = Some items ->
  forall it, In it items -> sound it \/ exists n, it = Warning n.
Proof.
  unfold collect.
  destruct (bfs dir_path pats max_depth max_files (Z.to_nat max_depth)
              [([], root)] 0 [] 0) as [[items0 count]|] eqn:Hrun;
    [|discriminate].
  apply bfs_sound in Hrun.
  - intros Hout it Hin. rewrite Forall_forall in Hrun.
    destruct (max_files <=? count); injection Hout as <-; auto.
    apply in_app_or in Hin as [Hin|[<-|[]]]; eauto.
  - intros rel n [[= <- <-]|[]]. constructor.
  - constructor.
Qed.

End Provenance.

(** A file body in the output is the content, as [get_file_content] reads
    it, of a file that exists at that path in the tree, is not hidden,
    matches no ignore pattern, has none of the binary suffixes and is at
    most 1000000 bytes long. *)
Theorem bodies_come_from_files (isspace : char -> bool) (dir_path : str)
    (src : ignore_source) (root : node) (max_depth max_files : Z)
    (patterns : list str) (items : list item) (rel : relpath)
    (content : str)
    (Hpat : ignored_patterns_of isspace src = inr patterns)
    (Hrun : get_directory_items isspace dir_path src root
              max_depth max_files = Some (inr items))
    (Hin : In (FileBody rel content) items) :
  exists name st_size data,
    at_path root rel (File name st_size data) /\
    content = get_file_content (path_str dir_path rel) data /\
    excluded patterns rel = false /\
    existsb (str_eqb (suffix name)) binary_suffixes = false /\
    st_size <= 1000000.
Proof.
  apply (get_directory_items_collect _ _ _ _ _ _ patterns) in Hrun;
    [|exact Hpat].
  destruct (collect_sound _ _ _ _ _ _ Hrun _ Hin) as [Hs|[n Hn]];
    [|discriminate].
  destruct Hs as (name & size & data & Hat & Hign & ->).
  exists name, size, data. split; [exact Hat|]. split; [reflexivity|].
  split; [now apply should_ignore_excluded with (File name size data)|].
  unfold should_ignore in Hign.
  destruct (startswith (rel_name rel) (lit ".")); [discriminate|].
  destruct (matches_patterns (rel_str rel) patterns); [discriminate|].
  destruct (existsb (str_eqb (suffix name)) binary_suffixes);
    [discriminate|].
  destruct (Z.ltb_spec 1000000 size); [discriminate|].
  split; [reflexivity|lia].
Qed.

(** Every directory header is about a place in the tree, and every
    directory error marker about a place whose listing fails with the
    error shown. *)
Theorem directory_markers_sound (isspace : char -> bool) (dir_path : str)
    (src : ignore_source) (root : node) (max_depth max_files : Z)
    (items : list item)
    (Hrun : get_directory_items isspace dir_path src root
              max_depth max_files = Some (inr items)) :
  (forall rel, In (DirHeader rel) items -> exists n, at_path root rel n) /\
  (forall rel err, In (DirError rel err) items ->
     exists n, at_path root rel n /\ iterdir n = inl err).
Proof.
  destruct (ignored_patterns_of isspace src) as [e|patterns] eqn:Hpat;
    [unfold get_directory_items in Hrun; rewrite Hpat in Hrun;
     discriminate|].
  apply (get_directory_items_collect _ _ _ _ _ _ patterns) in Hrun;
    [|exact Hpat].
  split.
  - intros rel Hin.
    destruct (collect_sound _ _ _ _ _ _ Hrun _ Hin) as [Hs|[n Hn]];
      [exact Hs|discriminate].
  - intros rel err Hin.
    destruct (collect_sound _ _ _ _ _ _ Hrun _ Hin) as [Hs|[n Hn]];
      [exact Hs|discriminate].
Qed.

(** *** The order of the output *)

Lemma header_depths_app (a b : list item) :
  header_depths (a ++ b) = header_depths a ++ header_depths b.
Proof.
  induction a as [|it a IH]; [reflexivity|].
  destruct it; cbn; now rewrite IH.
Qed.

Lemma StronglySorted_snoc (l : list Z) (x : Z) :
  StronglySorted Z.le l -> Forall (fun y => y <= x) l ->
  StronglySorted Z.le (l ++ [x]).
Proof.
  induction 1 as [|y l Hl IH Hy]; intros Hx; cbn.
  - repeat constructor.
  - inversion Hx; subst. constructor; [auto|].
    apply Forall_app. split; [exact Hy | repeat constructor; assumption].
Qed.

Section Order.

Variable dir_path : str.
Variable pats : list str.
Variables max_depth max_files : Z.

Lemma process_entry_ordered (d : Z) (rel_dir : relpath) (w : walk)
    (e : node) :
  depth rel_dir = d -> ordered_walk d w ->
  ordered_walk d (process_entry dir_path pats max_files rel_dir w e).
Proof.
  intros Hd (Hs & Hb & Hn). unfold process_entry.
  destruct (should_ignore pats (rel_dir ++ [node_name e]) e);
    [now repeat split|].
  assert (Hnext : forall x rel n,
            In (rel, n) (next_dirs w ++ [(rel_dir ++ [node_name e], x)]) ->
            depth rel = d + 1).
  { intros x rel n Hq. apply in_app_or in Hq as [Hq|[[= <- <-]|[]]];
      [eauto|].
    rewrite depth_snoc. lia. }
  destruct e; try destruct (file_count w <? max_files);
    repeat split; cbn; rewrite ?header_depths_app, ?app_nil_r;
    solve [assumption | apply Hnext].
Qed.

Lemma process_dir_ordered (d : Z) (w : walk) (rel : relpath) (n : node) :
  depth rel = d -> ordered_walk d w ->
  ordered_walk d (process_dir dir_path pats max_files w (rel, n)).
Proof.
  intros Hd (Hs & Hb & Hn). unfold process_dir.
  assert (Hhdr : ordered_walk d (emit w [DirHeader rel])).
  { repeat split; cbn; rewrite ?header_depths_app; cbn; try assumption.
    - apply StronglySorted_snoc; [assumption|]. now rewrite Hd.
    - apply Forall_app. split; [assumption|]. repeat constructor. lia. }
  destruct (iterdir n) as [err|entries].
  - destruct Hhdr as (Hs' & Hb' & Hn').
    repeat split; cbn in *; rewrite ?header_depths_app in *; cbn in *;
      rewrite ?app_nil_r; assumption.
  - apply (fold_left_inv (ordered_walk d)); [exact Hhdr|].
    intros w' e _ Hw'. now apply process_entry_ordered.
Qed.

Lemma bfs_ordered (fuel : nat) :
  forall dirs d items count items' count',
    (forall rel n, In (rel, n) dirs -> depth rel = d) ->
    StronglySorted Z.le (header_depths items) ->
    Forall (fun x => x <= d) (header_depths items) ->
    bfs dir_path pats max_depth max_files fuel dirs d items count
      = Some (items', count') ->
    StronglySorted Z.le (header_depths items').
Proof.
  induction fuel as [|fuel IH]; intros dirs d items count items' count'
    Hdirs Hs Hb Hrun; cbn in Hrun;
    destruct (negb match dirs with [] => true | _ :: _ => false end
              && (d <? max_depth) && (count <? max_files));
    try discriminate; try (injection Hrun as <- <-; exact Hs).
  assert (Hw : ordered_walk d
                 (fold_left (process_dir dir_path pats max_files) dirs
                    (mkWalk items count []))).
  { apply (fold_left_inv (ordered_walk d)).
    - repeat split; cbn; try assumption. intros rel n [].
    - intros w [rel n] Hin Hw. apply process_dir_ordered; eauto. }
  destruct Hw as (Hs' & Hb' & Hn').
  apply IH in Hrun; try assumption.
  eapply Forall_impl; [|exact Hb']. cbn. intros. lia.
Qed.

End Order.

(** The traversal is breadth-first: in the output, the directory headers
    come in order of depth, never a deeper directory before a shallower
    one. *)
Theorem headers_in_depth_order (isspace : char -> bool) (dir_path : str)
    (src : ignore_source) (root : node) (max_depth max_files : Z)
    (items : list item)
    (Hrun : get_directory_items isspace dir_path src root
              max_depth max_files = Some (inr items)) :
  StronglySorted Z.le (header_depths items).
Proof.
  destruct (ignored_patterns_of isspace src) as [e|patterns] eqn:Hpat;
    [unfold get_directory_items in Hrun; rewrite Hpat in Hrun;
     discriminate|].
  apply (get_directory_items_collect _ _ _ _ _ _ patterns) in Hrun;
    [|exact Hpat].
  unfold collect in Hrun.
  destruct (bfs dir_path patterns max_depth max_files (Z.to_nat max_depth)
              [([], root)] 0 [] 0) as [[items0 count]|] eqn:Hbfs;
    [|discriminate].
  apply bfs_ordered in Hbfs.
  - destruct (max_files <=? count); injection Hrun as <-;
      rewrite ?header_depths_app; cbn; rewrite ?app_nil_r; exact Hbfs.
  - intros rel n [[= <- <-]|[]]. reflexivity.
  - constructor.
  - constructor.
Qed.

Lemma bodies_come_from_files_witness :
  ignored_patterns_of Tokens.ascii_isspace sample_ignore
    = inr [lit "build/"] /\
  get_directory_items Tokens.ascii_isspace (lit "/w/.proj") sample_ignore
    sample_root 3 50 = Some (inr sample_items) /\
  In (FileBody [lit "sub"; lit "b.py"] (lit "print")) sample_items /\
  exists name st_size data,
    at_path sample_root [lit "sub"; lit "b.py"] (File name st_size data) /\
    lit "print"
    = get_file_content (path_str (lit "/w/.proj") [lit "sub"; lit "b.py"])
        data /\
    excluded [lit "build/"] [lit "sub"; lit "b.py"] = false /\
    existsb (str_eqb (suffix name)) binary_suffixes = false /\
    st_size <= 1000000.
Proof.
  assert (Hpat : ignored_patterns_of Tokens.ascii_isspace sample_ignore
                 = inr [lit "build/"]) by reflexivity.
  assert (Hrun : get_directory_items Tokens.ascii_isspace (lit "/w/.proj")
                   sample_ignore sample_root 3 50 = Some (inr sample_items))
    by reflexivity.
  assert (Hin : In (FileBody [lit "sub"; lit "b.py"] (lit "print"))
                  sample_items)
    by (vm_compute; auto 10).
  repeat split; try assumption.
  exact (bodies_come_from_files Tokens.ascii_isspace (lit "/w/.proj")
           sample_ignore sample_root 3 50 [lit "build/"] sample_items
           [lit "sub"; lit "b.py"] (lit "print") Hpat Hrun Hin).
Defined.

Lemma directory_markers_sound_witness :
  let items := [DirHeader []; FileHeader [lit "x.txt"];
                FileBody [lit "x.txt"] (lit "x");
                FileHeader [lit "y.txt"]; FileBody [lit "y.txt"] (lit "y");
                DirHeader [lit "locked"];
                DirError [lit "locked"] (lit "Permission denied")] in
  get_directory_items Tokens.ascii_isspace (lit "p") NoIgnoreFile
    sample_locked 3 50 = Some (inr items) /\
  (forall rel, In (DirHeader rel) items ->
     exists n, at_path sample_locked rel n) /\
  (forall rel err, In (DirError rel err) items ->
     exists n, at_path sample_locked rel n /\ iterdir n = inl err).
Proof.
  intros items.
  assert (Hrun : get_directory_items Tokens.ascii_isspace (lit "p")
                   NoIgnoreFile sample_locked 3 50 = Some (inr items))
    by reflexivity.
  split; [exact Hrun|].
  exact (directory_markers_sound Tokens.ascii_isspace (lit "p") NoIgnoreFile
           sample_locked 3 50 items Hrun).
Defined.

Lemma headers_in_depth_order_witness :
  get_directory_items Tokens.ascii_isspace (lit "/w/.proj") sample_ignore
    sample_root 3 50 = Some (inr sample_items) /\
  header_depths sample_items = [0; 1; 2] /\
  StronglySorted Z.le (header_depths sample_items).
Proof.
  assert (Hrun : get_directory_items Tokens.ascii_isspace (lit "/w/.proj")
                   sample_ignore sample_root 3 50 = Some (inr sample_items))
    by reflexivity.
  split; [exact Hrun|]. split; [reflexivity|].
  exact (headers_in_depth_order Tokens.ascii_isspace (lit "/w/.proj")
           sample_ignore sample_root 3 50 sample_items Hrun).
Defined.

(** *** The closing warning and the limits *)

(** The closing warning is there exactly when the number of file bodies
    has reached [max_files]; it is the last element and shows that
    number. *)
Theorem closing_warning (isspace : char -> bool) (dir_path : str)
    (src : ignore_source) (root : node) (max_depth max_files : Z)
    (items : list item)
    (Hrun : get_directory_items isspace dir_path src root
              max_depth max_files = Some (inr items)) :
  (max_files <= count_bodies items ->
   exists body, items = body ++ [Warning (count_bodies items)] /\
                forall n, ~ In (Warning n) body) /\
  (count_bodies items < max_files -> forall n, ~ In (Warning n) items).
Proof.
  destruct (ignored_patterns_of isspace src) as [e|patterns] eqn:Hpat;
    [unfold get_directory_items in Hrun; rewrite Hpat in Hrun;
     discriminate|].
  apply (get_directory_items_collect _ _ _ _ _ _ patterns) in Hrun;
    [|exact Hpat].
  unfold collect in Hrun.
  destruct (bfs dir_path patterns max_depth max_files (Z.to_nat max_depth)
              [([], root)] 0 [] 0) as [[items0 count]|] eqn:Hbfs;
    [|discriminate].
  assert (Hnowarn : forall n, ~ In (Warning n) items0).
  { apply (bfs_sound dir_path patterns max_depth max_files root) in Hbfs.
    - intros n Hin. rewrite Forall_forall in Hbfs. exact (Hbfs _ Hin).
    - intros rel n [[= <- <-]|[]]. constructor.
    - constructor. }
  assert (Hcount : count_bodies items0 = count).
  { apply (bfs_inv dir_path patterns max_depth max_files) in Hbfs.
    - now destruct Hbfs.
    - intros rel n [[= <- <-]|[]]. split; [reflexivity|apply clear_root].
    - constructor; cbn; try tauto; try reflexivity; lia. }
  destruct (Z.leb_spec max_files count) as [Hle|Hlt];
    injection Hrun as <-.
  - assert (Hc : count_bodies (items0 ++ [Warning count]) = count)
      by (rewrite count_bodies_app; cbn; lia).
    rewrite Hc. split; [|lia]. intros _. eauto.
  - rewrite Hcount. split; [lia|]. intros _. exact Hnowarn.
Qed.

Lemma closing_warning_witness :
  let items := [DirHeader []; FileHeader [lit "a.txt"];
                FileBody [lit "a.txt"] (lit "0123456789");
                Warning 1] in
  get_directory_items Tokens.ascii_isspace (lit "/w/.proj") sample_ignore
    sample_root 3 1 = Some (inr items) /\
  (1 <= count_bodies items ->
   exists body, items = body ++ [Warning (count_bodies items)] /\
                forall n, ~ In (Warning n) body) /\
  (count_bodies items < 1 -> forall n, ~ In (Warning n) items).
Proof.
  intros items.
  assert (Hrun : get_directory_items Tokens.ascii_isspace (lit "/w/.proj")
                   sample_ignore sample_root 3 1 = Some (inr items))
    by reflexivity.
  split; [exact Hrun|].
  exact (closing_warning Tokens.ascii_isspace (lit "/w/.proj") sample_ignore
           sample_root 3 1 items Hrun).
Defined.

(** With a depth limit or a file limit of zero or less nothing is visited:
    the text is empty, or is the closing warning alone when it is the file
    limit that is not positive. *)
Theorem nothing_visited (isspace : char -> bool) (dir_path : str)
    (src : ignore_source) (root : node) (max_depth max_files : Z)
    (patterns : list str)
    (Hpat : ignored_patterns_of isspace src = inr patterns)
    (Hlimit : max_depth <= 0 \/ max_files <= 0) :
  get_directory_items isspace dir_path src root max_depth max_files
  = Some (inr (if max_files <=? 0 then [Warning 0] else [])) /\
  get_directory_content isspace dir_path src root max_depth max_files
  = Some (if max_files <=? 0
          then render dir_path (Warning 0)
          else []).
Proof.
  assert (Hitems :
            get_directory_items isspace dir_path src root max_depth max_files
            = Some (inr (if max_files <=? 0 then [Warning 0] else []))).
  { unfold get_directory_items, collect. rewrite Hpat.
    assert (Hcond : (0 <? max_depth) && (0 <? max_files) = false).
    { destruct Hlimit.
      - destruct (Z.ltb_spec 0 max_depth); [lia|reflexivity].
      - destruct (Z.ltb_spec 0 max_files); [lia|apply andb_false_r]. }
    assert (Hbfs : bfs dir_path patterns max_depth max_files
                     (Z.to_nat max_depth) [([], root)] 0 [] 0
                   = Some ([], 0))
      by (destruct (Z.to_nat max_depth); cbn; now rewrite Hcond).
    rewrite Hbfs. now destruct (max_files <=? 0). }
  split; [exact Hitems|].
  unfold get_directory_content. rewrite Hitems.
  now destruct (max_files <=? 0).
Qed.

Lemma nothing_visited_witness :
  ignored_patterns_of Tokens.ascii_isspace sample_ignore
    = inr [lit "build/"] /\
  (0 <= 0 \/ 50 <= 0) /\
  get_directory_items Tokens.ascii_isspace (lit "/w/.proj") sample_ignore
    sample_root 0 50
  = Some (inr (if 50 <=? 0 then [Warning 0] else [])) /\
  get_directory_content Tokens.ascii_isspace (lit "/w/.proj") sample_ignore
    sample_root 0 50
  = Some (if 50 <=? 0 then render (lit "/w/.proj") (Warning 0) else []).
Proof.
  assert (Hpat : ignored_patterns_of Tokens.ascii_isspace sample_ignore
                 = inr [lit "build/"]) by reflexivity.
  assert (Hlimit : 0 <= 0 \/ 50 <= 0) by (left; lia).
  split; [exact Hpat|]. split; [exact Hlimit|].
  exact (nothing_visited Tokens.ascii_isspace (lit "/w/.proj") sample_ignore
           sample_root 0 50 [lit "build/"] Hpat Hlimit).
Defined.

(** *** The text returned *)

Lemma char_eqb_refl (c : char) : char_eqb c c = true.
Proof. apply N.eqb_refl. Qed.

Lemma startswith_app (p rest : str) : startswith (p ++ rest) p = true.
Proof.
  induction p as [|c p IH]; [now destruct rest|].
  cbn. now rewrite char_eqb_refl.
Qed.

Lemma contains_app (before p after : str) :
  contains (before ++ p ++ after) p = true.
Proof.
  induction before as [|c before IH]; cbn [app].
  - destruct (p ++ after) eqn:E; cbn [contains];
      rewrite <- E, startswith_app; reflexivity.
  - cbn [contains]. rewrite IH. apply orb_true_r.
Qed.

Lemma contains_split (s p before after : str) :
  s = before ++ p ++ after -> contains s p = true.
Proof. intros ->. apply contains_app. Qed.










Lemma join_head (sep x : str) (rest : list str) :
  exists tail, join sep (x :: rest) = x ++ tail.
Proof.
  destruct rest as [|y rest]; cbn; [exists []; now rewrite app_nil_r|eauto].
Qed.

(** With positive limits and the ignore file loaded, the text returned
    for a directory begins with the header naming that directory. *)
Theorem content_begins_with_root_header (isspace : char -> bool)
    (dir_path : str) (src : ignore_source) (root : node)
    (max_depth max_files : Z) (patterns : list str)
    (Hpat : ignored_patterns_of isspace src = inr patterns)
    (Hdepth : 0 < max_depth) (Hfiles : 0 < max_files) :
  exists content,
    get_directory_content isspace dir_path src root max_depth max_files
      = Some content /\
    startswith content
      (lit "===== Directory: " ++ dir_path ++ lit " =====") = true.
Proof.
  destruct (collect_total dir_path patterns max_depth max_files root)
    as [items Hrun].
  pose proof (collect_root dir_path patterns max_depth max_files root items
                Hdepth Hfiles Hrun) as [[more ->] _].
  unfold get_directory_content, get_directory_items.
  rewrite Hpat, Hrun. eexists. split; [reflexivity|].
  cbn [map].
  destruct (join_head
              (lit (String (ascii_of_nat 10)
                      (String (ascii_of_nat 10) EmptyString)))
              (render dir_path (DirHeader []))
              (map (render dir_path) more)) as [tail ->].
  cbn [render]. unfold path_str. cbn [join].
  rewrite <- !app_assoc. rewrite (app_assoc dir_path).
  rewrite (app_assoc (lit "===== Directory: ")).
  apply startswith_app.
Qed.

Lemma content_begins_with_root_header_witness :
  ignored_patterns_of Tokens.ascii_isspace sample_ignore
    = inr [lit "build/"] /\
  0 < 3 /\ 0 < 50 /\
  exists content,
    get_directory_content Tokens.ascii_isspace (lit "/w/.proj")
      sample_ignore sample_root 3 50 = Some content /\
    startswith content
      (lit "===== Directory: " ++ lit "/w/.proj" ++ lit " =====") = true.
Proof.
  split; [reflexivity|]. split; [lia|]. split; [lia|].
  apply (content_begins_with_root_header Tokens.ascii_isspace
           (lit "/w/.proj") sample_ignore sample_root 3 50 [lit "build/"]);
    [reflexivity | lia | lia].
Defined.

(** *** Loading the ignore file *)

Section Strip.

Variable isspace : char -> bool.

Lemma lstrip_head (s : str) (c : char) (r : str) :
  lstrip isspace s = c :: r -> isspace c = false.
Proof.
  induction s as [|x s IH]; cbn; [discriminate|].
  destruct (isspace x) eqn:Hx; [exact IH|].
  now intros [= <- _].
Qed.

Lemma lstrip_suffix (s : str) : exists pre, s = pre ++ lstrip isspace s.
Proof.
  induction s as [|x s [pre IH]]; cbn; [now exists []|].
  destruct (isspace x).
  - exists (x :: pre). cbn. now f_equal.
  - now exists [].
Qed.

Lemma strip_first (s : str) (c : char) (r : str) :
  strip isspace s = c :: r -> isspace c = false.
Proof.
  unfold strip. intros H.
  destruct (lstrip_suffix (rev (lstrip isspace s))) as [pre Hpre].
  apply (f_equal (@rev char)) in Hpre.
  rewrite rev_involutive, rev_app_distr, H in Hpre.
  cbn in Hpre. now apply lstrip_head in Hpre.
Qed.

Lemma strip_last (s : str) (r : str) (c : char) :
  strip isspace s = r ++ [c] -> isspace c = false.
Proof.
  unfold strip. intros H.
  apply (f_equal (@rev char)) in H.
  rewrite rev_involutive, rev_app_distr in H. cbn in H.
  now apply lstrip_head in H.
Qed.

End Strip.

(** Every pattern loaded from the ignore file is the stripped form of one
    of its lines that does not begin with [#]; it is not empty and has no
    whitespace at either end. *)
Theorem loaded_patterns_clean (isspace : char -> bool) (lines : list str)
    (pattern : str) (Hin : In pattern (load_patterns isspace lines)) :
  (exists line, In line lines /\
                pattern = strip isspace line /\
                startswith line (lit "#") = false) /\
  pattern <> [] /\
  (forall c r, pattern = c :: r -> isspace c = false) /\
  (forall r c, pattern = r ++ [c] -> isspace c = false).
Proof.
  unfold load_patterns in Hin.
  apply in_map_iff in Hin as (line & <- & Hline).
  apply filter_In in Hline as [Hline Hkeep].
  apply andb_prop in Hkeep as [Hne Hhash].
  apply negb_true_iff in Hhash.
  split; [eauto|]. split.
  - intros Hnil. rewrite Hnil in Hne. discriminate.
  - split.
    + intros c r H. now apply (strip_first isspace line c r).
    + intros r c H. now apply (strip_last isspace line r c).
Qed.

Lemma loaded_patterns_clean_witness :
  let lines := [lit "# outputs" ++ [10%N]; lit "  build/ " ++ [10%N];
                [10%N]] in
  In (lit "build/") (load_patterns Tokens.ascii_isspace lines) /\
  (exists line, In line lines /\
                lit "build/" = strip Tokens.ascii_isspace line /\
                startswith line (lit "#") = false) /\
  lit "build/" <> [] /\
  (forall c r, lit "build/" = c :: r -> Tokens.ascii_isspace c = false) /\
  (forall r c, lit "build/" = r ++ [c] -> Tokens.ascii_isspace c = false).
Proof.
  intros lines.
  assert (Hin : In (lit "build/") (load_patterns Tokens.ascii_isspace lines))
    by (vm_compute; auto).
  split; [exact Hin|].
  exact (loaded_patterns_clean Tokens.ascii_isspace lines (lit "build/") Hin).
Defined.

(** The test for comments looks at the line before it is stripped: an
    indented comment is loaded as a pattern. *)
Example indented_comment_is_loaded :
  load_patterns Tokens.ascii_isspace
    [lit "# outputs" ++ [10%N]; lit "  # caches" ++ [10%N]]
  = [lit "# caches"].
Proof. reflexivity. Qed.

(** *** The order in which a directory's entries are processed *)

(** If [c] is below [a], any [b] is above [c] or below [a]. *)
Lemma str_ltb_between (c : str) :
  forall a b, str_ltb c a = true ->
              str_ltb c b = true \/ str_ltb b a = true.
Proof.
  induction c as [|x c IH]; intros [|y a] [|z b]; cbn; try discriminate;
    auto.
  intros H. apply orb_true_iff in H.
  destruct (N.ltb_spec x z) as [Hxz|Hxz]; [now left|].
  destruct (N.ltb_spec z y) as [Hzy|Hzy]; [now right|].
  destruct H as [H|H].
  - apply N.ltb_lt in H. lia.
  - apply andb_prop in H as [Hxy Hca]. apply N.eqb_eq in Hxy. subst y.
    assert (x = z) by lia. subst z. rewrite N.eqb_refl. cbn.
    apply (IH a b Hca).
Qed.

Lemma str_ltb_irrefl (a : str) : str_ltb a a = false.
Proof.
  induction a as [|x a IH]; [reflexivity|].
  cbn. now rewrite N.ltb_irrefl, N.eqb_refl, IH.
Qed.

Lemma key_ltb_between (a b c : node) :
  key_ltb c a = true -> key_ltb c b = true \/ key_ltb b a = true.
Proof.
  unfold key_ltb.
  destruct (is_file a), (is_file b), (is_file c); try discriminate; auto;
    apply str_ltb_between.
Qed.

Lemma key_ltb_irrefl (a : node) : key_ltb a a = false.
Proof. unfold key_ltb. destruct (is_file a); apply str_ltb_irrefl. Qed.

Lemma key_le_trans (a b c : node) :
  key_le a b = true -> key_le b c = true -> key_le a c = true.
Proof.
  unfold key_le. rewrite !negb_true_iff. intros Hab Hbc.
  destruct (key_ltb c a) eqn:Hca; [|reflexivity].
  destruct (key_ltb_between a b c Hca) as [H|H]; congruence.
Qed.

Lemma str_ltb_asym (a : str) :
  forall b, str_ltb a b = true -> str_ltb b a = false.
Proof.
  induction a as [|x a IH]; intros [|y b]; cbn; try discriminate; auto.
  intros H. apply orb_true_iff in H. destruct H as [H|H].
  - apply N.ltb_lt in H.
    destruct (N.ltb_spec y x); [lia|].
    destruct (N.eqb_spec y x); [lia|reflexivity].
  - apply andb_prop in H as [Hxy Hab]. apply N.eqb_eq in Hxy. subst y.
    now rewrite N.ltb_irrefl, N.eqb_refl, (IH b Hab).
Qed.

Lemma key_ltb_le (a b : node) : key_ltb a b = true -> key_le a b = true.
Proof.
  unfold key_le, key_ltb. intros Hab. apply negb_true_iff.
  destruct (is_file a), (is_file b); try discriminate; auto;
    now apply str_ltb_asym.
Qed.

Lemma insert_sorted_sorted (x : node) (l : list node) :
  StronglySorted (fun a b => key_le a b = true) l ->
  StronglySorted (fun a b => key_le a b = true) (insert_sorted x l).
Proof.
  induction 1 as [|y l Hl IH Hy]; cbn.
  - repeat constructor.
  - destruct (key_ltb y x) eqn:Hyx.
    + constructor; [exact IH|].
      apply Forall_forall. intros z Hz.
      apply insert_sorted_In in Hz as [->|Hz].
      * now apply key_ltb_le.
      * rewrite Forall_forall in Hy. now apply Hy.
    + assert (Hxy : key_le x y = true)
        by (unfold key_le; now rewrite Hyx).
      constructor; [now constructor|].
      constructor; [exact Hxy|].
      eapply Forall_impl; [|exact Hy].
      intros z Hz. now apply key_le_trans with y.
Qed.

Lemma insert_sorted_perm (x : node) (l : list node) :
  Permutation (x :: l) (insert_sorted x l).
Proof.
  induction l as [|y l IH]; cbn; [reflexivity|].
  destruct (key_ltb y x); [|reflexivity].
  rewrite perm_swap. now constructor.
Qed.

Lemma sorted_perm (entries : list node) :
  Permutation entries (sorted entries).
Proof.
  induction entries as [|x l IH]; cbn; [reflexivity|].
  rewrite <- insert_sorted_perm. now constructor.
Qed.

Lemma sorted_sorted (entries : list node) :
  StronglySorted (fun a b => key_le a b = true) (sorted entries).
Proof.
  induction entries as [|x l IH]; cbn; [constructor|].
  now apply insert_sorted_sorted.
Qed.

(** The entries of a directory are processed in the order of the key
    [(is_file, name)]: every entry once, directories and other non-files
    before files, and within each kind by ascending name. *)
Theorem sorted_by_kind_and_name (entries : list node) :
  Permutation entries (sorted entries) /\
  StronglySorted (fun a b => key_le a b = true) (sorted entries) /\
  forall before a between b after,
    sorted entries = before ++ a :: between ++ b :: after ->
    (is_file a = true -> is_file b = true) /\
    (is_file a = is_file b ->
     str_ltb (node_name b) (node_name a) = false).
Proof.
  pose proof (sorted_perm entries) as Hperm.
  pose proof (sorted_sorted entries) as Hsorted.
  split; [exact Hperm|]. split; [exact Hsorted|].
  intros before a between b after Heq. rewrite Heq in Hsorted.
  clear Heq Hperm.
  induction before as [|z before IH]; cbn in Hsorted.
  - inversion Hsorted as [|? ? _ Hall]; subst.
    rewrite Forall_forall in Hall.
    assert (Hab : key_le a b = true)
      by (apply Hall, in_or_app; right; now left).
    unfold key_le, key_ltb in Hab. apply negb_true_iff in Hab.
    destruct (is_file a), (is_file b); try discriminate; split; auto;
      discriminate.
  - inversion Hsorted; subst. auto.
Qed.

Lemma sorted_by_kind_and_name_witness :
  let entries := [ File (lit "b.py") 1 (Text []); Dir (lit "z") [];
                   File (lit "a.py") 1 (Text []); Dir (lit "m") [] ] in
  sorted entries
  = [ Dir (lit "m") []; Dir (lit "z") [];
      File (lit "a.py") 1 (Text []); File (lit "b.py") 1 (Text []) ] /\
  Permutation entries (sorted entries) /\
  StronglySorted (fun a b => key_le a b = true) (sorted entries) /\
  forall before a between b after,
    sorted entries = before ++ a :: between ++ b :: after ->
    (is_file a = true -> is_file b = true) /\
    (is_file a = is_file b ->
     str_ltb (node_name b) (node_name a) = false).
Proof.
  intros entries. split; [reflexivity|].
  exact (sorted_by_kind_and_name entries).
Defined.

(** *** The root of the traversal *)




End AggregatorFacts.

Module ClientFacts.
Import PyStr Client.
Local Open Scope Z_scope.

Lemma requests_of_app (a b : list event) :
  requests_of (a ++ b) = requests_of a ++ requests_of b.
Proof.
  induction a as [|e a IH]; [reflexivity|].
  destruct e; cbn; now rewrite ?IH.
Qed.

Lemma printed_of_app (a b : list event) :
  printed_of (a ++ b) = printed_of a ++ printed_of b.
Proof.
  induction a as [|e a IH]; [reflexivity|].
  destruct e; cbn; now rewrite ?IH.
Qed.

Lemma reported_app (f : message -> bool) (a b : list event) :
  reported f (a ++ b) = reported f a || reported f b.
Proof. apply existsb_app. Qed.

Section Program.

Variable isspace : char -> bool.
Variable tiktoken_encode : str -> str -> option (list Z).
Variable json_loads : str -> option json.
Variable json_loads_bytes : bytes -> loaded.
Variable server : Type.
Variable serve : server -> request -> (str + response) * server.
Variable filesystem : str -> target_kind.

Local Notation state := (state server).
Local Notation check_version := (check_version json_loads server serve).
Local Notation check_model := (check_model json_loads server serve).
Local Notation check_test := (check_test json_loads server serve).
Local Notation check_ollama_status :=
  (check_ollama_status json_loads server serve).
Local Notation issue_query :=
  (issue_query json_loads json_loads_bytes server serve).
Local Notation send_query_to_ollama :=
  (send_query_to_ollama tiktoken_encode json_loads json_loads_bytes
      server serve).
Local Notation main :=
  (main isspace tiktoken_encode json_loads json_loads_bytes
      server serve filesystem).
Local Notation version_reachable :=
  (version_reachable json_loads server serve).
Local Notation model_present := (model_present json_loads server serve).
Local Notation test_succeeds := (test_succeeds json_loads server serve).
Local Notation checks_pass := (checks_pass json_loads server serve).
Local Notation after := (after server serve).
Local Notation answer := (answer server serve).
Local Notation after_checks := (after_checks server serve).
Local Notation check_requests := (check_requests json_loads server serve).
Local Notation failure_reported :=
  (failure_reported json_loads server serve).

(** Pushes [requests_of] and [printed_of] through a trace. *)
Ltac norm_trace :=
  repeat first
    [ rewrite requests_of_app
    | rewrite printed_of_app
    | progress (cbn [requests_of printed_of app]) ].

(** Unfolds the monad and splits on what decides the control flow. *)
Ltac run_step :=
  unfold bind, http, debug_log, log, print, emit, ret, response_json
    in *; cbn.

Lemma check_version_run (st : state) :
  exists ev,
    check_version st
    = (version_reachable (srv server st),
       mkState server (after (srv server st) GetVersion)
         (DEBUG_MODE server st), ev) /\
    requests_of ev = [GetVersion] /\
    printed_of ev = [] /\
    reported reports_version_failure ev
    = negb (version_reachable (srv server st)).
Proof.
  destruct st as [s dbg].
  unfold Client.check_version, Client.version_reachable, Client.answer,
    Client.after.
  run_step. destruct (serve s GetVersion) as [[e|resp] s']; cbn.
  - destruct dbg; eexists; repeat split; reflexivity.
  - destruct (status_code resp =? 200); cbn;
      [destruct (json_loads (text resp)); cbn|];
      destruct dbg; eexists; repeat split; reflexivity.
Qed.

Lemma check_model_run (st : state) :
  exists ev,
    check_model st
    = (model_present (srv server st),
       mkState server (after (srv server st) GetTags)
         (DEBUG_MODE server st), ev) /\
    requests_of ev = [GetTags] /\
    printed_of ev = [] /\
    reported reports_model_failure ev
    = negb (model_present (srv server st)).
Proof.
  destruct st as [s dbg].
  unfold Client.check_model, Client.model_present, Client.answer,
    Client.after.
  run_step. destruct (serve s GetTags) as [[e|resp] s']; cbn.
  - destruct dbg; eexists; repeat split; reflexivity.
  - destruct (status_code resp =? 200); cbn;
      [destruct (json_loads (text resp)) as [data|]; cbn;
       [destruct (listed_models data) as [e|models]; cbn;
        [|destruct (existsb is_default_model models); cbn;
          [|destruct (all_strings models); cbn]]|]|];
      destruct dbg; eexists; repeat split; reflexivity.
Qed.

Lemma check_test_run (st : state) :
  exists ev,
    check_test st
    = (test_succeeds (srv server st),
       mkState server (after (srv server st) test_request)
         (DEBUG_MODE server st), ev) /\
    requests_of ev = [test_request] /\
    printed_of ev = [] /\
    reported reports_test_failure ev
    = negb (test_succeeds (srv server st)).
Proof.
  destruct st as [s dbg].
  unfold Client.check_test, Client.test_succeeds, Client.answer,
    Client.after.
  run_step. destruct (serve s test_request) as [[e|resp] s']; cbn.
  - destruct dbg; eexists; repeat split; reflexivity.
  - destruct (status_code resp =? 200); cbn;
      [destruct (json_loads (text resp)) as [data|]; cbn;
       [destruct (test_head data) as [e|head]; cbn|]|];
      destruct dbg; eexists; repeat split; reflexivity.
Qed.

Lemma check_ollama_status_run (st : state) :
  exists st' ev,
    check_ollama_status st = (checks_pass (srv server st), st', ev) /\
    DEBUG_MODE server st' = DEBUG_MODE server st /\
    (checks_pass (srv server st) = true ->
     srv server st' = after_checks (srv server st)) /\
    requests_of ev = check_requests (srv server st) /\
    printed_of ev = [] /\
    failure_reported (srv server st) ev.
Proof.
  unfold Client.check_ollama_status, Client.checks_pass,
    Client.check_requests, Client.failure_reported, Client.after_checks.
  unfold bind at 1. unfold log at 1, emit at 1.
  unfold bind at 1.
  destruct (check_version_run st) as (ev1 & -> & Hr1 & Hp1 & Hf1).
  unfold reported in *.
  destruct (version_reachable (srv server st)); cbn [negb andb].
  2:{ cbn. do 2 eexists. split; [reflexivity|].
      rewrite app_nil_r. cbn. rewrite Hr1, Hp1, Hf1.
      repeat split; try reflexivity; discriminate. }
  unfold bind at 1.
  match goal with |- context [check_model ?x] => set (st1 := x) end.
  destruct (check_model_run st1) as (ev2 & -> & Hr2 & Hp2 & Hf2).
  unfold reported in *.
  cbn [srv DEBUG_MODE st1] in *.
  destruct (model_present (after (srv server st) GetVersion));
    cbn [negb andb].
  2:{ cbn. do 2 eexists. split; [reflexivity|].
      rewrite app_nil_r. cbn.
      rewrite requests_of_app, printed_of_app, existsb_app.
      rewrite Hr1, Hp1, Hr2, Hp2, Hf2.
      rewrite ?orb_true_r.
      repeat split; try reflexivity; discriminate. }
  unfold bind at 1.
  match goal with |- context [check_test ?x] => set (st2 := x) end.
  destruct (check_test_run st2) as (ev3 & -> & Hr3 & Hp3 & Hf3).
  unfold reported in *.
  cbn [srv DEBUG_MODE st2] in *.
  destruct (test_succeeds (after (after (srv server st) GetVersion) GetTags));
    cbn [negb andb].
  - cbn. do 2 eexists. split; [reflexivity|]. cbn.
    rewrite !requests_of_app, !printed_of_app.
    rewrite Hr1, Hp1, Hr2, Hp2, Hr3, Hp3. cbn.
    repeat split; reflexivity.
  - cbn. do 2 eexists. split; [reflexivity|]. cbn.
    rewrite app_nil_r.
    rewrite !requests_of_app, !printed_of_app, !existsb_app.
    rewrite Hr1, Hp1, Hr2, Hp2, Hr3, Hp3, Hf3. cbn.
    rewrite ?orb_true_r. repeat split; try reflexivity; discriminate.
Qed.

Lemma count_tokens_run (text : str) (st : state) :
  exists ev,
    Client.count_tokens tiktoken_encode server text st
    = (Tokens.count_tokens tiktoken_encode text (lit "gpt-4"), st, ev) /\
    requests_of ev = [] /\ printed_of ev = [] /\
    forall f, reported f ev = false.
Proof.
  unfold Client.count_tokens.
  destruct (tiktoken_encode (lit "gpt-4") text); run_step;
    [|destruct (DEBUG_MODE server st)];
    eexists; repeat split; reflexivity.
Qed.

(** The streaming loop sends nothing and logs nothing. *)
Lemma stream_lines_run (lines : list str) (st : state) :
  exists failure ev,
    stream_lines json_loads_bytes server lines st = (failure, st, ev) /\
    requests_of ev = [] /\ forall f, reported f ev = false.
Proof.
  induction lines as [|line lines IH]; cbn [stream_lines].
  - do 2 eexists. repeat split.
  - destruct IH as (failure & ev & Hrun & Hreq & Hlog).
    destruct line as [|c line]; [eauto|].
    destruct (json_loads_bytes (c :: line)) as [chunk| |e].
    + destruct (json_get (lit "response") (JStr []) chunk) as [value|].
      * run_step. rewrite Hrun. do 2 eexists. split; [reflexivity|].
        cbn. split; [exact Hreq|]. intros f. apply Hlog.
      * do 2 eexists. repeat split.
    + run_step. rewrite Hrun. do 2 eexists. split; [reflexivity|].
      destruct (DEBUG_MODE server st); cbn;
        (split; [exact Hreq|]); intros f; apply Hlog.
    + do 2 eexists. repeat split.
Qed.

Lemma collect_response_run (response : Client.response) (st : state) :
  exists ev,
    collect_response json_loads server response st = (tt, st, ev) /\
    requests_of ev = [] /\
    (status_code response <> 200 ->
     printed_of ev = [RawBody (text response)] /\
     reported (is_error_status (status_code response)) ev = true).
Proof.
  unfold collect_response.
  destruct (Z.eqb_spec (status_code response) 200) as [Heq|Hne].
  - assert (Hdone : forall ev : list event,
              requests_of ev = [] ->
              requests_of ev = [] /\
              (status_code response <> 200 ->
               printed_of ev = [RawBody (text response)] /\
               reported (is_error_status (status_code response)) ev = true))
      by (intros ev Hev; split; [exact Hev | intros Hne; now elim Hne]).
    unfold response_json.
    destruct (json_loads (text response)) as [data|];
      [destruct data as [| | | | |fields];
       try (destruct (lookup (lit "response") fields) as [value|];
            [destruct (json_len value)|])|];
      run_step; destruct (DEBUG_MODE server st); cbn;
      eexists; (split; [reflexivity|]); apply Hdone; reflexivity.
  - run_step. destruct (DEBUG_MODE server st); cbn;
      eexists; repeat split; try reflexivity;
      unfold reported; cbn; now rewrite Z.eqb_refl.
Qed.

(** Once the checks are through, exactly one request is sent: the one that
    carries the prompt.  Without streaming, a status other than 200 is
    logged with its code, and the only thing printed is the raw body. *)
Lemma issue_query_run (prompt : str) (stream : bool) (ctx : option Z)
    (st : state) :
  exists st' ev,
    issue_query prompt stream ctx st = (tt, st', ev) /\
    requests_of ev = [query_request prompt stream ctx] /\
    (stream = false ->
     forall response,
       answer (srv server st) (query_request prompt false ctx)
         = inr response ->
       status_code response <> 200 ->
       printed_of ev = [RawBody (text response)] /\
       reported (is_error_status (status_code response)) ev = true).
Proof.
  unfold Client.issue_query, Client.answer.
  destruct stream.
  - unfold bind, http, debug_log, log, print, emit, ret.
    destruct (serve (srv server st) (query_request prompt true ctx))
      as [[e|resp] s'].
    + destruct (DEBUG_MODE server st); do 2 eexists;
        (split; [reflexivity|]); (split; [reflexivity|discriminate]).
    + destruct (status_code resp =? 200); cbn [negb].
      * destruct (stream_lines_run (iter_lines resp)
                    (mkState server s' (DEBUG_MODE server st)))
          as (failure & ev & -> & Hreq & _).
        destruct failure; destruct (iter_raises resp);
          destruct (DEBUG_MODE server st);
          do 2 eexists; (split; [reflexivity|]);
          (split; [|discriminate]);
          cbn; rewrite requests_of_app, Hreq; reflexivity.
      * destruct (DEBUG_MODE server st); do 2 eexists;
          (split; [reflexivity|]); (split; [reflexivity|discriminate]).
  - unfold bind, http, debug_log, log, print, emit, ret.
    destruct (serve (srv server st) (query_request prompt false ctx))
      as [[e|resp] s'].
    + destruct (DEBUG_MODE server st); do 2 eexists;
        (split; [reflexivity|]); (split; [reflexivity|]);
        intros _ response Hans; discriminate.
    + destruct (collect_response_run resp
                  (mkState server s' (DEBUG_MODE server st)))
        as (ev & -> & Hreq & Herr).
      destruct (DEBUG_MODE server st); do 2 eexists;
        (split; [reflexivity|]);
        (split; [cbn; rewrite requests_of_app, Hreq; reflexivity|]);
        intros _ response [= <-] Hne; destruct (Herr Hne) as [Hp Hr];
        cbn; rewrite printed_of_app, Hp; (split; [reflexivity|]);
        unfold reported in *; cbn; rewrite existsb_app, Hr; reflexivity.
Qed.

Lemma failure_reported_mono (s : server) (ev ev' : list event) :
  failure_reported s ev ->
  (forall f, reported f ev = true -> reported f ev' = true) ->
  failure_reported s ev'.
Proof.
  unfold Client.failure_reported. intros H Hmono.
  destruct (version_reachable s);
    [destruct (model_present (after s GetVersion));
     [destruct (test_succeeds (after (after s GetVersion) GetTags));
      [trivial|]|]|];
    now apply Hmono.
Qed.

Lemma check_requests_pass (s : server) :
  checks_pass s = true ->
  check_requests s = [GetVersion; GetTags; test_request].
Proof.
  unfold Client.checks_pass, Client.check_requests.
  destruct (version_reachable s); [|discriminate].
  destruct (model_present (after s GetVersion)); [reflexivity|discriminate].
Qed.


Lemma send_query_run (prompt : str) (stream : bool) (ctx : option Z)
    (st : state) :
  exists st' ev,
    send_query_to_ollama prompt stream ctx st = (tt, st', ev) /\
    (checks_pass (srv server st) = true ->
     requests_of ev
     = [GetVersion; GetTags; test_request;
        query_request prompt stream ctx]) /\
    (checks_pass (srv server st) = false ->
     requests_of ev = check_requests (srv server st) /\
     failure_reported (srv server st) ev /\
     reported is_not_ready ev = true /\
     printed_of ev = []).
Proof.
  unfold Client.send_query_to_ollama.
  destruct (count_tokens_run prompt st) as (ev0 & H0 & Hr0 & Hp0 & Hl0).
  destruct (check_ollama_status_run st)
    as (st1 & ev1 & H1 & Hdbg & Hsrv & Hr1 & Hp1 & Hf1).
  unfold bind, log, emit, debug_log. rewrite H0, H1.
  destruct (checks_pass (srv server st)) eqn:Hpass; cbn [negb].
  - destruct (issue_query_run prompt stream ctx st1)
      as (st2 & ev2 & -> & Hr2 & _).
    do 2 eexists. split; [reflexivity|]. split; [|discriminate].
    intros _. rewrite (check_requests_pass _ Hpass) in Hr1.
    destruct (DEBUG_MODE server st); norm_trace;
      rewrite Hr0, Hr1, Hr2; reflexivity.
  - do 2 eexists. split; [reflexivity|]. split; [discriminate|].
    intros _. repeat split.
    + destruct (DEBUG_MODE server st); norm_trace;
        rewrite Hr0, Hr1; cbn; now rewrite app_nil_r.
    + apply (failure_reported_mono _ ev1); [exact Hf1|].
      intros f Hf. rewrite !reported_app, Hf. cbn.
      now rewrite !orb_true_r.
    + rewrite !reported_app. cbn. now rewrite !orb_true_r.
    + destruct (DEBUG_MODE server st); norm_trace;
        rewrite Hp0, Hp1; reflexivity.
Qed.

(** C9: without streaming, when the checks pass and the server answers
    the query with a status other than 200, the error is reported with
    the status code, which is logged, and with the raw body of that
    answer, which is all that is printed: no response text is printed,
    neither the response banner nor a model answer. *)
Theorem error_status_reported_with_body (prompt : str) (ctx : option Z)
    (st : state) (response : Client.response)
    (Hpass : checks_pass (srv server st) = true)
    (Hans : answer (after_checks (srv server st))
              (query_request prompt false ctx) = inr response)
    (Hstatus : status_code response <> 200) :
  exists st' ev,
    send_query_to_ollama prompt false ctx st = (tt, st', ev) /\
    reported (is_error_status (status_code response)) ev = true /\
    printed_of ev = [RawBody (text response)].
Proof.
  unfold Client.send_query_to_ollama.
  destruct (count_tokens_run prompt st) as (ev0 & H0 & Hr0 & Hp0 & Hl0).
  destruct (check_ollama_status_run st)
    as (st1 & ev1 & H1 & Hdbg & Hsrv & Hr1 & Hp1 & Hf1).
  unfold bind, log, emit, debug_log. rewrite H0, H1, Hpass. cbn [negb].
  destruct (issue_query_run prompt false ctx st1)
    as (st2 & ev2 & -> & _ & Herr).
  rewrite (Hsrv Hpass) in Herr.
  destruct (Herr eq_refl response Hans Hstatus) as [Hp2 Hr2].
  do 2 eexists. split; [reflexivity|]. split.
  - rewrite !reported_app, Hr2. cbn. now rewrite !orb_true_r.
  - destruct (DEBUG_MODE server st); norm_trace;
      rewrite Hp0, Hp1, Hp2; reflexivity.
Qed.

(** C7: when the target path does not exist, and likewise when it is
    neither a file nor a directory, [main] logs the error and returns exit
    code 1 without issuing any HTTP request or printing anything. *)
Theorem bad_target_exits_1 (args : arguments) (st : state)
    (Htarget : filesystem (target args) = Missing \/
               filesystem (target args) = Other) :
  exists ev,
    main args st
    = (Some 1, mkState server (srv server st) (debug args), ev) /\
    requests_of ev = [] /\
    printed_of ev = [] /\
    In (Log (match filesystem (target args) with
             | Missing => MsgTargetMissing (target args)
             | _ => MsgTargetNeither (target args)
             end)) ev.
Proof.
  unfold Client.main, bind, set_debug, log, emit, ret.
  destruct Htarget as [-> | ->]; cbn; eexists; repeat split; cbn; auto 10.
Qed.

Lemma ask_run (args : arguments) (content : str) (st : state) :
  exists st' ev,
    ask tiktoken_encode json_loads json_loads_bytes server serve args content st
    = (Some 0, st', ev).
Proof.
  unfold ask, bind, log, emit, ret.
  destruct (count_tokens_run
              (create_prompt content (query args) (target args)) st)
    as (ev0 & -> & _).
  match goal with |- context [send_query_to_ollama ?p ?s ?c ?x] =>
    destruct (send_query_run p s c x) as (st' & ev & -> & _) end.
  eauto.
Qed.

(** [main] always ends with exit code 0 or 1. *)
Lemma main_exit_code (args : arguments) (st : state) :
  exists code st' ev,
    main args st = (Some code, st', ev) /\ (code = 0 \/ code = 1).
Proof.
  unfold Client.main, Aggregator.get_directory_content.
  unfold bind, set_debug, log, emit, ret.
  destruct (filesystem (target args)) as [|data|root src|].
  - do 3 eexists. split; [reflexivity|auto].
  - match goal with |- context [ask _ _ _ _ _ ?a ?c ?x] =>
      destruct (ask_run a c x) as (st' & ev & ->) end.
    do 3 eexists. split; [reflexivity|auto].
  - destruct (AggregatorFacts.get_directory_items_total isspace
                (target args) src (max_depth args) (max_files args) root)
      as [[err|items] ->];
      match goal with |- context [ask _ _ _ _ _ ?a ?c ?x] =>
        destruct (ask_run a c x) as (st' & ev & ->) end;
      do 3 eexists; (split; [reflexivity|auto]).
  - do 3 eexists. split; [reflexivity|auto].
Qed.

End Program.

Lemma bad_target_exits_1_witness :
  let args := mkArguments (lit "nowhere.py") (lit "why?") false true 50 3 in
  let st := mkState unit tt false in
  (sample_filesystem (target args) = Missing \/
   sample_filesystem (target args) = Other) /\
  exists ev,
    main Tokens.ascii_isspace no_tokenizer sample_loads sample_loads_bytes unit
      (sample_serve 200 hello_body) sample_filesystem args st
    = (Some 1, mkState unit tt false, ev) /\
    requests_of ev = [] /\
    printed_of ev = [] /\
    In (Log (MsgTargetMissing (lit "nowhere.py"))) ev.
Proof.
  intros args st.
  assert (Htarget : sample_filesystem (target args) = Missing \/
                    sample_filesystem (target args) = Other)
    by (left; reflexivity).
  split; [exact Htarget|].
  exact (bad_target_exits_1 Tokens.ascii_isspace no_tokenizer sample_loads
           sample_loads_bytes
           unit (sample_serve 200 hello_body) sample_filesystem args st
           Htarget).
Defined.



(** The two ends of C8 on the sample servers: a server that is down gets
    the version request only, a healthy one gets all four. *)
Example requests_when_down :
  requests_of
    (snd (send_query_to_ollama no_tokenizer sample_loads sample_loads_bytes
        unit down_serve
            (lit "why?") true (Some 4096) (mkState unit tt false)))
  = [GetVersion].
Proof. reflexivity. Qed.

Example requests_when_healthy :
  requests_of
    (snd (send_query_to_ollama no_tokenizer sample_loads sample_loads_bytes unit
            (sample_serve 200 hello_body)
            (lit "why?") false (Some 4096) (mkState unit tt false)))
  = [GetVersion; GetTags; test_request;
     query_request (lit "why?") false (Some 4096)].
Proof. reflexivity. Qed.

Lemma error_status_reported_with_body_witness :
  let response := mkResponse 500 error_body [error_body] None in
  checks_pass sample_loads unit (sample_serve 500 error_body) tt = true /\
  answer unit (sample_serve 500 error_body)
    (after_checks unit (sample_serve 500 error_body) tt)
    (query_request (lit "why?") false (Some 4096)) = inr response /\
  status_code response <> 200 /\
  exists st' ev,
    send_query_to_ollama no_tokenizer sample_loads sample_loads_bytes unit
      (sample_serve 500 error_body) (lit "why?") false (Some 4096)
      (mkState unit tt false) = (tt, st', ev) /\
    reported (is_error_status 500) ev = true /\
    printed_of ev = [RawBody error_body].
Proof.
  intros response.
  assert (Hpass : checks_pass sample_loads unit
                    (sample_serve 500 error_body) tt = true)
    by reflexivity.
  assert (Hanswer : answer unit (sample_serve 500 error_body)
                      (after_checks unit (sample_serve 500 error_body) tt)
                      (query_request (lit "why?") false (Some 4096))
                    = inr response)
    by reflexivity.
  assert (Hstatus : status_code response <> 200) by discriminate.
  repeat split; try assumption.
  exact (error_status_reported_with_body no_tokenizer sample_loads
           sample_loads_bytes
      unit
           (sample_serve 500 error_body) (lit "why?") (Some 4096)
           (mkState unit tt false) response Hpass Hanswer Hstatus).
Defined.

(** *** What each function may do *)

Section Effects.

Variable isspace : char -> bool.
Variable tiktoken_encode : str -> str -> option (list Z).
Variable json_loads : str -> option json.
Variable json_loads_bytes : bytes -> loaded.
Variable server : Type.
Variable serve : server -> request -> (str + response) * server.
Variable filesystem : str -> target_kind.

Local Notation emits := (emits server).

Lemma emits_ret {A : Type} (dbg : bool) (P : event -> bool) (a : A) :
  emits dbg P (ret server a).
Proof. intros st Hst. now split. Qed.

Lemma emits_bind {A B : Type} (dbg : bool) (P : event -> bool)
    (m : M server A) (k : A -> M server B) :
  emits dbg P m -> (forall a, emits dbg P (k a)) ->
  emits dbg P (bind server m k).
Proof.
  intros Hm Hk st Hst. unfold bind.
  specialize (Hm st Hst). destruct (m st) as [[a st1] ev1].
  cbn in Hm. destruct Hm as [Hst1 Hev1].
  specialize (Hk a st1 Hst1). destruct (k a st1) as [[b st2] ev2].
  cbn in *. destruct Hk as [Hst2 Hev2].
  split; [exact Hst2|]. rewrite forallb_app. now rewrite Hev1, Hev2.
Qed.

Lemma emits_log (dbg : bool) (P : event -> bool) (m : message) :
  P (Log m) = true -> emits dbg P (log server m).
Proof. intros HP st Hst. cbn. now rewrite HP. Qed.

Lemma emits_print (dbg : bool) (P : event -> bool) (p : printed) :
  P (Print p) = true -> emits dbg P (print server p).
Proof. intros HP st Hst. cbn. now rewrite HP. Qed.

Lemma emits_debug_log (dbg : bool) (P : event -> bool)
    (m : debug_message) :
  dbg = false \/ P (Debug m) = true -> emits dbg P (debug_log server m).
Proof.
  intros HP st Hst. unfold debug_log. cbn. split; [exact Hst|].
  destruct HP as [-> | HP].
  - now rewrite Hst.
  - destruct (DEBUG_MODE server st); cbn; [now rewrite HP|reflexivity].
Qed.

Lemma emits_http (dbg : bool) (P : event -> bool) (r : request) :
  P (Http r) = true -> emits dbg P (http server serve r).
Proof.
  intros HP st Hst. unfold http. destruct (serve (srv server st) r).
  cbn. now rewrite HP.
Qed.

Lemma emits_weaken {A : Type} (dbg : bool) (P Q : event -> bool)
    (m : M server A) :
  (forall e, P e = true -> Q e = true) -> emits dbg P m -> emits dbg Q m.
Proof.
  intros HPQ Hm st Hst. destruct (Hm st Hst) as [H1 H2].
  split; [exact H1|]. rewrite forallb_forall in *. auto.
Qed.

(** One step of a proof that a computation [emits]: follow the structure
    of the program. *)
Ltac emits_step :=
  first
    [ apply emits_ret
    | apply emits_bind; [|intros ?]
    | apply emits_log; reflexivity
    | apply emits_print; reflexivity
    | apply emits_debug_log; first [left; reflexivity | right; reflexivity]
    | apply emits_http; reflexivity
    | match goal with
      | |- Client.emits _ _ _ (match ?x with _ => _ end) => destruct x
      end ].

Lemma check_version_effects (dbg : bool) :
  emits dbg (check_event dbg) (check_version json_loads server serve).
Proof. unfold check_version. destruct dbg; repeat emits_step. Qed.

Lemma check_model_effects (dbg : bool) :
  emits dbg (check_event dbg) (check_model json_loads server serve).
Proof. unfold check_model. destruct dbg; repeat emits_step. Qed.

Lemma check_test_effects (dbg : bool) :
  emits dbg (check_event dbg) (check_test json_loads server serve).
Proof. unfold check_test. destruct dbg; repeat emits_step. Qed.

(** The status check only talks to the server and to the log: it prints
    nothing, sends nothing but its two GETs and its option-less test
    prompt, logs none but its own lines, writes debug lines in debug mode
    only, and leaves [DEBUG_MODE] as it found it. *)
Theorem check_ollama_status_effects (dbg : bool) (st : state server)
    (Hdbg : DEBUG_MODE server st = dbg) :
  let '(_, st', ev) := check_ollama_status json_loads server serve st in
  DEBUG_MODE server st' = dbg /\
  forallb (check_event dbg) ev = true.
Proof.
  assert (H : emits dbg (check_event dbg)
                (check_ollama_status json_loads server serve)).
  { unfold check_ollama_status.
    apply emits_bind; [destruct dbg; emits_step|intros _].
    apply emits_bind; [apply check_version_effects|intros ok1].
    destruct ok1; cbn [negb]; [|apply emits_ret].
    apply emits_bind; [apply check_model_effects|intros ok2].
    destruct ok2; cbn [negb]; [|apply emits_ret].
    apply emits_bind; [apply check_test_effects|intros ok3].
    destruct ok3; cbn [negb]; [|apply emits_ret].
    destruct dbg; repeat emits_step. }
  specialize (H st Hdbg).
  now destruct (check_ollama_status json_loads server serve st) as [[ok st'] ev].
Qed.

Lemma count_tokens_effects (dbg : bool) (text : str) :
  emits dbg (debug_only_if dbg)
    (Client.count_tokens tiktoken_encode server text).
Proof. unfold Client.count_tokens. destruct dbg; repeat emits_step. Qed.

Lemma check_ollama_status_debug (dbg : bool) :
  emits dbg (debug_only_if dbg)
    (check_ollama_status json_loads server serve).
Proof.
  apply (emits_weaken dbg (check_event dbg)).
  - intros [m|m|p|r]; cbn; auto.
  - intros st Hst.
    pose proof (check_ollama_status_effects dbg st Hst) as H.
    now destruct (check_ollama_status json_loads server serve st)
      as [[ok st'] ev].
Qed.

Lemma stream_lines_effects (dbg : bool) (lines : list str) :
  emits dbg (debug_only_if dbg) (stream_lines json_loads_bytes server lines).
Proof.
  induction lines as [|line lines IH]; cbn [stream_lines].
  - apply emits_ret.
  - destruct dbg; repeat emits_step; exact IH.
Qed.

Lemma collect_response_effects (dbg : bool) (response : Client.response) :
  emits dbg (debug_only_if dbg)
    (collect_response json_loads server response).
Proof. unfold collect_response. destruct dbg; repeat emits_step. Qed.

Lemma issue_query_effects (dbg : bool) (prompt : str) (stream : bool)
    (ctx : option Z) :
  emits dbg (debug_only_if dbg)
    (issue_query json_loads json_loads_bytes server serve prompt stream ctx).
Proof.
  unfold issue_query. cbv zeta.
  destruct dbg; repeat emits_step;
    first [apply stream_lines_effects | apply collect_response_effects].
Qed.

Lemma send_query_effects (dbg : bool) (prompt : str) (stream : bool)
    (ctx : option Z) :
  emits dbg (debug_only_if dbg)
    (send_query_to_ollama tiktoken_encode json_loads json_loads_bytes
        server serve
       prompt stream ctx).
Proof.
  unfold send_query_to_ollama.
  apply emits_bind; [apply count_tokens_effects|intros est].
  apply emits_bind; [destruct dbg; emits_step|intros _].
  apply emits_bind; [destruct dbg; emits_step|intros _].
  apply emits_bind; [destruct dbg; emits_step|intros _].
  apply emits_bind; [apply check_ollama_status_debug|intros ok].
  destruct ok; cbn [negb];
    [apply issue_query_effects | destruct dbg; emits_step].
Qed.

Lemma ask_effects (dbg : bool) (args : arguments) (content : str) :
  emits dbg (debug_only_if dbg)
    (ask tiktoken_encode json_loads json_loads_bytes server serve args content).
Proof.
  unfold ask. cbv zeta.
  apply emits_bind; [apply count_tokens_effects|intros count].
  apply emits_bind; [destruct dbg; emits_step|intros _].
  apply emits_bind; [apply send_query_effects|intros _].
  apply emits_ret.
Qed.

(** Debug lines are written in debug mode only: [main] sets [DEBUG_MODE]
    to [args.debug], nothing changes it afterwards, and without the flag
    no debug line is written in the whole run. *)
Theorem debug_lines_need_the_flag (args : arguments) (st : state server) :
  let '(_, st', ev) :=
    main isspace tiktoken_encode json_loads json_loads_bytes
        server serve filesystem
      args st in
  DEBUG_MODE server st' = debug args /\
  (debug args = false -> forallb (fun e => negb (is_debug e)) ev = true).
Proof.
  unfold main.
  match goal with
  | |- context [bind server (set_debug server _) ?k] =>
      assert (Hk : emits (debug args) (debug_only_if (debug args)) (k tt))
        by (cbv beta; destruct (debug args);
            repeat first [apply ask_effects | emits_step]);
      specialize (Hk (mkState server (srv server st) (debug args)) eq_refl);
      change (bind server (set_debug server (debug args)) k st)
        with (let '(b, st2, ev2) :=
                k tt (mkState server (srv server st) (debug args)) in
              (b, st2, [] ++ ev2));
      destruct (k tt (mkState server (srv server st) (debug args)))
        as [[code st'] ev]
  end.
  cbn in *. destruct Hk as [H1 H2]. split; [exact H1|].
  intros Hoff. rewrite Hoff in H2.
  rewrite forallb_forall in *. intros e He. specialize (H2 e He).
  now destruct e.
Qed.

End Effects.

(** *** What is printed and logged for each kind of answer *)

(** Pushes [requests_of] and [printed_of] through appended traces. *)
Ltac norm_events :=
  repeat first
    [ rewrite requests_of_app
    | rewrite printed_of_app
    | progress (cbn [requests_of printed_of app]) ].

Section Answers.

Variable tiktoken_encode : str -> str -> option (list Z).
Variable json_loads : str -> option json.
Variable json_loads_bytes : bytes -> loaded.
Variable server : Type.
Variable serve : server -> request -> (str + response) * server.

Local Notation state := (state server).
Local Notation stream_lines := (stream_lines json_loads_bytes server).
Local Notation issue_query := (issue_query json_loads json_loads_bytes
    server serve).
Local Notation send_query_to_ollama :=
  (send_query_to_ollama tiktoken_encode json_loads json_loads_bytes
      server serve).
Local Notation checks_pass := (checks_pass json_loads server serve).
Local Notation answer := (answer server serve).
Local Notation after_checks := (after_checks server serve).
Local Notation fragment_of := (fragment_of json_loads_bytes).
Local Notation passable := (passable json_loads_bytes).

Lemma forallb_check_reported (dbg : bool) (f : message -> bool)
    (ev : list event) :
  (forall m, check_message m = true -> f m = false) ->
  forallb (check_event dbg) ev = true -> reported f ev = false.
Proof.
  intros Hf. unfold reported.
  induction ev as [|e ev IH]; cbn; [reflexivity|].
  intros H. apply andb_prop in H as [He Hev]. rewrite (IH Hev).
  destruct e; cbn in *; auto. now rewrite Hf.
Qed.

(** When the checks pass, [send_query_to_ollama] is its preamble, which
    prints nothing and sends the three requests of the checks, followed by
    [issue_query] on the server as the checks left it. *)
Lemma send_query_pass (prompt : str) (stream : bool) (ctx : option Z)
    (st : state) :
  checks_pass (srv server st) = true ->
  exists st1 st2 pre ev,
    send_query_to_ollama prompt stream ctx st = (tt, st2, pre ++ ev) /\
    issue_query prompt stream ctx st1 = (tt, st2, ev) /\
    srv server st1 = after_checks (srv server st) /\
    DEBUG_MODE server st1 = DEBUG_MODE server st /\
    printed_of pre = [] /\
    (forall f, (forall m, check_message m = true -> f m = false) ->
               (forall n, f (MsgPromptSize n) = false) ->
               reported f pre = false).
Proof.
  intros Hpass. unfold Client.send_query_to_ollama.
  destruct (count_tokens_run tiktoken_encode server prompt st)
    as (ev0 & H0 & Hr0 & Hp0 & Hl0).
  destruct (check_ollama_status_run json_loads server serve st)
    as (st1 & ev1 & H1 & Hdbg & Hsrv & Hr1 & Hp1 & Hf1).
  pose proof (check_ollama_status_effects json_loads server serve
                (DEBUG_MODE server st) st eq_refl) as Heff.
  rewrite H1 in Heff. destruct Heff as [_ Heff].
  unfold bind, log, emit, debug_log. rewrite H0, H1, Hpass. cbn [negb].
  destruct (issue_query_run json_loads json_loads_bytes
      server serve prompt stream ctx st1)
    as (st2 & ev2 & Hq & _).
  rewrite Hq. exists st1, st2. eexists. exists ev2.
  split; [rewrite !app_assoc; reflexivity|].
  split; [exact Hq|]. split; [now apply Hsrv|]. split; [exact Hdbg|].
  split.
  - destruct (DEBUG_MODE server st); norm_events;
      rewrite Hp0, Hp1; reflexivity.
  - intros f Hcheck Hsize. rewrite !reported_app, Hl0.
    rewrite (forallb_check_reported _ f ev1 Hcheck Heff).
    destruct (DEBUG_MODE server st); cbn; now rewrite Hsize.
Qed.

(** The streaming loop gets past empty lines, lines that are no JSON and
    objects, printing one fragment per object. *)
Lemma stream_lines_passable (lines : list bytes) (st : state) :
  Forall passable lines ->
  exists ev,
    stream_lines lines st = (None, st, ev) /\
    printed_of ev = flat_map fragment_of lines /\
    forall f, reported f ev = false.
Proof.
  induction 1 as [|line lines Hline _ (ev & Hrun & Hp & Hl)];
    cbn [Client.stream_lines flat_map].
  - eexists. repeat split.
  - unfold Client.fragment_of.
    destruct line as [|c line]; [eauto|].
    destruct Hline as [Hnil|[Hnone|[fields Hobj]]]; [discriminate| |].
    + rewrite Hnone. unfold bind, debug_log. rewrite Hrun.
      eexists. split; [reflexivity|].
      destruct (DEBUG_MODE server st); cbn; auto.
    + rewrite Hobj. cbn [json_get]. unfold bind, print, emit.
      rewrite Hrun. eexists. split; [reflexivity|].
      cbn. rewrite Hp. split; [reflexivity|]. intros f. apply Hl.
Qed.

(** After lines the loop gets past, it goes on with the rest of the
    stream as if it began there. *)
Lemma stream_lines_app (before : list bytes) (st : state) :
  Forall passable before ->
  exists ev1,
    printed_of ev1 = flat_map fragment_of before /\
    forall rest failure ev2,
      stream_lines rest st = (failure, st, ev2) ->
      stream_lines (before ++ rest) st = (failure, st, ev1 ++ ev2).
Proof.
  induction 1 as [|line lines Hline _ (ev1 & Hp & Hgo)];
    cbn [Client.stream_lines flat_map app].
  - exists []. split; [reflexivity|]. intros rest failure ev2 Hrun. exact Hrun.
  - unfold Client.fragment_of.
    destruct line as [|c line]; [eauto|].
    destruct Hline as [Hnil|[Hnone|[fields Hobj]]]; [discriminate| |].
    + rewrite Hnone. unfold bind, debug_log.
      exists ((if DEBUG_MODE server st
               then [Debug (DbgDecodeFailed (c :: line))] else []) ++ ev1).
      split; [destruct (DEBUG_MODE server st); exact Hp|].
      intros rest failure ev2 Hrun. rewrite (Hgo _ _ _ Hrun).
      now rewrite app_assoc.
    + rewrite Hobj. cbn [json_get]. unfold bind, print, emit.
      eexists (Print _ :: ev1). split; [cbn; now rewrite Hp|].
      intros rest failure ev2 Hrun. now rewrite (Hgo _ _ _ Hrun).
Qed.

(** A line on which [json.loads] raises [JSONDecodeError] is skipped and
    the stream goes on: when every line is empty, is no JSON or holds an
    object, the loop ends without an exception and has printed exactly the
    [response] field (the empty string when absent) of each object, in
    order.  Any other exception of [json.loads], as on bytes that are not
    valid UTF-8, is not caught in the loop: it ends the loop at that line,
    the fragments of the lines before it printed and nothing of the lines
    after it. *)
Theorem stream_prints_fragments (lines : list bytes) (st : state)
    (Hlines : Forall passable lines) :
  (exists ev,
     stream_lines lines st = (None, st, ev) /\
     printed_of ev = flat_map fragment_of lines) /\
  (forall bad e after,
     bad <> [] -> json_loads_bytes bad = LoadRaises e ->
     exists ev,
       stream_lines (lines ++ bad :: after) st = (Some e, st, ev) /\
       printed_of ev = flat_map fragment_of lines).
Proof.
  split.
  - destruct (stream_lines_passable lines st Hlines)
      as (ev & Hrun & Hp & _).
    eauto.
  - intros bad e after Hbad Hraise.
    destruct (stream_lines_app lines st Hlines) as (ev1 & Hp & Hgo).
    exists (ev1 ++ []). split.
    + apply Hgo. destruct bad as [|c bad]; [contradiction|].
      cbn [Client.stream_lines]. now rewrite Hraise.
    + now rewrite app_nil_r.
Qed.

(** A line that decodes to something other than an object ends the
    stream with an exception: what came before it is printed, what comes
    after it is not. *)
Theorem stream_stops_at_non_object (before after : list bytes) (bad : bytes)
    (chunk : json) (st : state)
    (Hbefore : Forall passable before)
    (Hbad : bad <> [])
    (Hchunk : json_loads_bytes bad = Loaded chunk)
    (Hshape : forall fields, chunk <> JObj fields) :
  exists ev,
    stream_lines (before ++ bad :: after) st
    = (Some (lit "AttributeError"), st, ev) /\
    printed_of ev = flat_map fragment_of before.
Proof.
  induction Hbefore as [|line lines Hline _ (ev & Hrun & Hp)];
    cbn [Client.stream_lines flat_map app].
  - destruct bad as [|c bad]; [contradiction|].
    rewrite Hchunk.
    destruct chunk; try (eexists; split; reflexivity).
    now elim (Hshape fields).
  - unfold Client.fragment_of.
    destruct line as [|c line]; [eauto|].
    destruct Hline as [Hnil|[Hnone|[fields Hobj]]]; [discriminate| |].
    + rewrite Hnone. unfold bind, debug_log. rewrite Hrun.
      eexists. split; [reflexivity|].
      destruct (DEBUG_MODE server st); cbn; auto.
    + rewrite Hobj. cbn [json_get]. unfold bind, print, emit.
      rewrite Hrun. eexists. split; [reflexivity|].
      cbn. now rewrite Hp.
Qed.

(** In streaming mode the banner is printed before the request is sent.
    When the checks pass and the server answers the query with a status
    other than 200, the banner is all that is printed, the status is
    logged, and the function returns at once: "Processing complete!" is
    not logged. *)
Theorem streaming_error_status (prompt : str) (ctx : option Z) (st : state)
    (response : Client.response)
    (Hpass : checks_pass (srv server st) = true)
    (Hanswer : answer (after_checks (srv server st))
                 (query_request prompt true ctx) = inr response)
    (Hstatus : status_code response <> 200) :
  exists st' ev,
    send_query_to_ollama prompt true ctx st = (tt, st', ev) /\
    printed_of ev = [Banner] /\
    reported (is_error_status (status_code response)) ev = true /\
    reported is_processing_complete ev = false.
Proof.
  destruct (send_query_pass prompt true ctx st Hpass)
    as (st1 & st2 & pre & ev & Hrun & Hq & Hsrv & Hdbg & Hp & Hl).
  exists st2, (pre ++ ev). split; [exact Hrun|].
  unfold Client.issue_query, bind, http, debug_log, log, print, emit, ret
    in Hq.
  unfold Client.answer in Hanswer. rewrite <- Hsrv in Hanswer.
  destruct (serve (srv server st1) (query_request prompt true ctx))
    as [a s']. cbn in Hanswer. subst a.
  destruct (Z.eqb_spec (status_code response) 200) as [Heq|_];
    [contradiction|].
  cbn [negb] in Hq.
  rewrite printed_of_app, !reported_app, Hp.
  rewrite (Hl is_processing_complete) by (intros m; destruct m; cbn; intros; try reflexivity; discriminate).
  rewrite (Hl (is_error_status (status_code response)))
    by (intros m; destruct m; cbn; intros; try reflexivity; discriminate).
  destruct (DEBUG_MODE server st1); injection Hq as <- <-; cbn;
    rewrite Z.eqb_refl; repeat split.
Qed.

(** When the checks pass, the server answers the streaming query with 200
    and every line of the stream is empty, is no JSON or holds an object,
    what is printed is the banner and one fragment per object, in order,
    followed by the closing newline when the stream ends normally;
    when the connection breaks after those lines, the closing newline is
    not printed and the error is logged instead.  Either way "Processing
    complete!" is logged. *)
Theorem streaming_answer_printed (prompt : str) (ctx : option Z)
    (st : state) (response : Client.response)
    (Hpass : checks_pass (srv server st) = true)
    (Hanswer : answer (after_checks (srv server st))
                 (query_request prompt true ctx) = inr response)
    (Hstatus : status_code response = 200)
    (Hlines : Forall passable (iter_lines response)) :
  exists st' ev,
    send_query_to_ollama prompt true ctx st = (tt, st', ev) /\
    printed_of ev
    = Banner :: flat_map fragment_of (iter_lines response)
      ++ match iter_raises response with
         | None => [EndOfStream]
         | Some _ => []
         end /\
    (forall e, iter_raises response = Some e ->
               In (Log (MsgCommunicationError e)) ev) /\
    reported is_processing_complete ev = true.
Proof.
  destruct (send_query_pass prompt true ctx st Hpass)
    as (st1 & st2 & pre & ev & Hrun & Hq & Hsrv & Hdbg & Hp & Hl).
  exists st2, (pre ++ ev). split; [exact Hrun|].
  unfold Client.issue_query, bind, http, debug_log, log, print, emit, ret
    in Hq.
  unfold Client.answer in Hanswer. rewrite <- Hsrv in Hanswer.
  destruct (serve (srv server st1) (query_request prompt true ctx))
    as [a s']. cbn in Hanswer. subst a.
  rewrite Hstatus in Hq. cbn [Z.eqb Pos.eqb negb] in Hq.
  destruct (stream_lines_passable (iter_lines response)
              (mkState server s' (DEBUG_MODE server st1)) Hlines)
    as (evs & Hs & Hps & Hls).
  rewrite Hs in Hq.
  rewrite printed_of_app, reported_app, Hp.
  destruct (iter_raises response) as [broken|];
    destruct (DEBUG_MODE server st1); injection Hq as <- <-;
    norm_events; rewrite Hps; (split; [reflexivity|]);
    (split;
     [ intros e [= <-] || (intros e He; discriminate);
       apply in_or_app; right;
       repeat first [left; reflexivity | right; apply in_or_app; right
                    | right ]
     | unfold reported; cbn; rewrite !existsb_app; cbn;
       now rewrite !orb_true_r ]).
Qed.

(** When the checks pass and the request that carries the prompt raises
    (the connection drops, say), the error is logged, followed by
    "Processing complete!"; nothing of an answer is printed, only the
    banner in streaming mode, which is printed before the request. *)
Theorem query_network_error (prompt : str) (stream : bool)
    (ctx : option Z) (st : state) (e : str)
    (Hpass : checks_pass (srv server st) = true)
    (Hanswer : answer (after_checks (srv server st))
                 (query_request prompt stream ctx) = inl e) :
  exists st' ev,
    send_query_to_ollama prompt stream ctx st = (tt, st', ev) /\
    printed_of ev = (if stream then [Banner] else []) /\
    In (Log (MsgCommunicationError e)) ev /\
    In (Log MsgProcessingComplete) ev.
Proof.
  destruct (send_query_pass prompt stream ctx st Hpass)
    as (st1 & st2 & pre & ev & Hrun & Hq & Hsrv & Hdbg & Hp & Hl).
  exists st2, (pre ++ ev). split; [exact Hrun|].
  unfold Client.answer in Hanswer. rewrite <- Hsrv in Hanswer.
  rewrite printed_of_app, Hp.
  destruct stream;
    unfold Client.issue_query, bind, http, debug_log, log, print, emit, ret
      in Hq;
    match type of Hanswer with
    | fst (serve ?s ?r) = _ =>
        destruct (serve s r) as [a s']; cbn in Hanswer; subst a
    end;
    destruct (DEBUG_MODE server st1);
    injection Hq as <- <-; (split; [reflexivity|]);
    split; apply in_or_app; right; cbn; auto 10.
Qed.

(** Without streaming, when the checks pass and the server answers 200
    with a JSON object, the banner and the value of its [response] field
    are printed when that field is there and has a length; when the field
    is missing nothing is printed and no error is reported. *)
Theorem answer_printed (prompt : str) (ctx : option Z) (st : state)
    (response : Client.response) (fields : list (str * json))
    (Hpass : checks_pass (srv server st) = true)
    (Hanswer : answer (after_checks (srv server st))
                 (query_request prompt false ctx) = inr response)
    (Hstatus : status_code response = 200)
    (Hjson : json_loads (text response) = Some (JObj fields)) :
  exists st' ev,
    send_query_to_ollama prompt false ctx st = (tt, st', ev) /\
    match lookup (lit "response") fields with
    | Some value =>
        match json_len value with
        | Some _ => printed_of ev = [Banner; Answer value]
        | None =>
            printed_of ev = [] /\
            In (Log (MsgCommunicationError (lit "TypeError"))) ev
        end
    | None => printed_of ev = [] /\
              forall e, ~ In (Log (MsgCommunicationError e)) ev
    end.
Proof.
  destruct (send_query_pass prompt false ctx st Hpass)
    as (st1 & st2 & pre & ev & Hrun & Hq & Hsrv & Hdbg & Hp & Hl).
  exists st2, (pre ++ ev). split; [exact Hrun|].
  unfold Client.issue_query, collect_response, response_json, bind, http,
    debug_log, log, print, emit, ret in Hq.
  unfold Client.answer in Hanswer. rewrite <- Hsrv in Hanswer.
  destruct (serve (srv server st1) (query_request prompt false ctx))
    as [a s']. cbn in Hanswer. subst a.
  rewrite Hstatus, Hjson in Hq. cbn [Z.eqb Pos.eqb] in Hq.
  rewrite printed_of_app, Hp.
  destruct (lookup (lit "response") fields) as [value|];
    [destruct (json_len value)|].
  - destruct (DEBUG_MODE server st1); injection Hq as <- <-; reflexivity.
  - destruct (DEBUG_MODE server st1); injection Hq as <- <-;
      (split; [reflexivity|]); apply in_or_app; right; cbn;
      repeat first [left; reflexivity | right].
  - split.
    + destruct (DEBUG_MODE server st1); injection Hq as <- <-; reflexivity.
    + intros e Hin.
      assert (Hno : reported (is_communication_error e) (pre ++ ev) = false).
      { rewrite reported_app.
        rewrite (Hl (is_communication_error e))
          by (intros m; destruct m; cbn; intros; try reflexivity; discriminate).
        destruct (DEBUG_MODE server st1); injection Hq as <- <-;
          reflexivity. }
      unfold reported in Hno.
      assert (Hyes : existsb
                (fun e0 => match e0 with
                           | Log m => is_communication_error e m
                           | _ => false
                           end) (pre ++ ev) = true).
      { apply existsb_exists. exists (Log (MsgCommunicationError e)).
        split; [exact Hin|]. cbn.
        clear. induction e as [|c e IH]; cbn; [reflexivity|].
        now rewrite N.eqb_refl. }
      congruence.
Qed.

End Answers.

(** *** The prompt *)

Lemma basename_from_no_slash (path : str) :
  forall acc, ~ In 47%N path -> basename_from acc path = rev acc ++ path.
Proof.
  induction path as [|c path IH]; intros acc Hno; cbn.
  - now rewrite app_nil_r.
  - unfold char_eqb. destruct (N.eqb_spec c 47%N) as [->|Hc].
    + elim Hno. now left.
    + rewrite IH by (intros H; apply Hno; now right).
      cbn. now rewrite <- app_assoc.
Qed.

Lemma basename_from_slash (dir name : str) :
  forall acc, basename_from acc (dir ++ 47%N :: name) = basename name.
Proof.
  induction dir as [|c dir IH]; intros acc; cbn.
  - reflexivity.
  - destruct (char_eqb c 47%N); apply IH.
Qed.

Lemma basename_from_clean (path : str) :
  forall acc, ~ In 47%N acc -> ~ In 47%N (basename_from acc path).
Proof.
  induction path as [|c path IH]; intros acc Hacc; cbn.
  - now rewrite <- in_rev.
  - unfold char_eqb. destruct (N.eqb_spec c 47%N) as [->|Hc].
    + apply IH. intros [].
    + apply IH. intros [H|H]; [now subst|contradiction].
Qed.

(** [basename] gives the last component of a path: what follows the last
    slash, itself free of slashes; nothing for a path that ends in a
    slash. *)
Theorem basename_last_component (dir name : str)
    (Hname : ~ In 47%N name) :
  basename (dir ++ lit "/" ++ name) = name /\
  basename name = name /\
  basename (dir ++ lit "/") = [] /\
  forall path, ~ In 47%N (basename path).
Proof.
  change (lit "/") with [47%N]. cbn [app]. unfold basename.
  repeat split.
  - rewrite basename_from_slash. unfold basename.
    now rewrite basename_from_no_slash.
  - now rewrite basename_from_no_slash.
  - now rewrite basename_from_slash.
  - intros path. apply basename_from_clean. intros [].
Qed.

Lemma basename_last_component_witness :
  ~ In 47%N (lit "ocode.py") /\
  basename (lit "/home/me/src" ++ lit "/" ++ lit "ocode.py")
    = lit "ocode.py" /\
  basename (lit "ocode.py") = lit "ocode.py" /\
  basename (lit "/home/me/src" ++ lit "/") = [] /\
  forall path, ~ In 47%N (basename path).
Proof.
  assert (Hname : ~ In 47%N (lit "ocode.py"))
    by (vm_compute; intuition discriminate).
  split; [exact Hname|].
  exact (basename_last_component (lit "/home/me/src") (lit "ocode.py")
           Hname).
Defined.

(** The prompt carries the content and the query verbatim; content that
    is not empty is preceded by a header with the base name of the
    target; and the length of the prompt is that of the fixed text plus
    those of its parts. *)
Theorem create_prompt_embeds (content query target_path : str) :
  let prompt := create_prompt content query target_path in
  contains prompt content = true /\
  contains prompt (lit "Query: " ++ query) = true /\
  (content <> [] ->
   contains prompt
     (lit "===== " ++ basename target_path ++ lit " =====" ++ [10%N]
      ++ content) = true) /\
  len prompt
  = 196 + len content + len query
    + match content with
      | [] => 0
      | _ :: _ => 13 + len (basename target_path)
      end.
Proof.
  cbv zeta. unfold create_prompt.
  set (intro := lit "I'll provide code from my project for you to analyze. Please focus on answering my query effectively.").
  set (outro := lit "Please provide a detailed answer focusing specifically on my query.").
  set (head := intro ++ [10%N; 10%N] ++ lit "Project Files:" ++ [10%N]).
  set (tail := [10%N; 10%N] ++ outro).
  repeat split.
  - destruct content as [|c content].
    + destruct (intro ++ _); reflexivity.
    + apply (AggregatorFacts.contains_split _ _
               (head ++ lit "===== " ++ basename target_path
                ++ lit " =====" ++ [10%N])
               ([10%N; 10%N] ++ lit "Query: " ++ query ++ tail)).
      subst head tail. rewrite <- !app_assoc. reflexivity.
  - apply (AggregatorFacts.contains_split _ _
             (head ++ match content with
                      | [] => content
                      | _ :: _ =>
                          lit "===== " ++ basename target_path
                          ++ lit " =====" ++ [10%N] ++ content
                      end ++ [10%N; 10%N])
             tail).
    subst head tail. rewrite <- !app_assoc. reflexivity.
  - intros Hne. destruct content as [|c content]; [contradiction|].
    apply (AggregatorFacts.contains_split _ _ head
             ([10%N; 10%N] ++ lit "Query: " ++ query ++ tail)).
    subst head tail. rewrite <- !app_assoc. reflexivity.
  - unfold len. subst head tail. destruct content as [|c content];
      rewrite !length_app; subst intro outro; cbn [List.length lit];
      change (List.length (lit "I'll provide code from my project for you to analyze. Please focus on answering my query effectively."))
        with 101%nat;
      change (List.length (lit "Please provide a detailed answer focusing specifically on my query."))
        with 67%nat;
      change (List.length (lit "Project Files:")) with 14%nat;
      change (List.length (lit "Query: ")) with 7%nat;
      change (List.length (lit "===== ")) with 6%nat;
      change (List.length (lit " =====")) with 6%nat;
      unfold str, char in *; lia.
Qed.

Lemma create_prompt_embeds_witness :
  let prompt := create_prompt (lit "x = 1") (lit "why?") (lit "src/a.py") in
  contains prompt (lit "x = 1") = true /\
  contains prompt (lit "Query: " ++ lit "why?") = true /\
  (lit "x = 1" <> [] ->
   contains prompt
     (lit "===== " ++ basename (lit "src/a.py") ++ lit " =====" ++ [10%N]
      ++ lit "x = 1") = true) /\
  len prompt
  = 196 + len (lit "x = 1") + len (lit "why?")
    + match lit "x = 1" with
      | [] => 0
      | _ :: _ => 13 + len (basename (lit "src/a.py"))
      end.
Proof.
  exact (create_prompt_embeds (lit "x = 1") (lit "why?") (lit "src/a.py")).
Defined.

(** *** The whole run *)

Section MainRun.

Variable isspace : char -> bool.
Variable tiktoken_encode : str -> str -> option (list Z).
Variable json_loads : str -> option json.
Variable json_loads_bytes : bytes -> loaded.
Variable server : Type.
Variable serve : server -> request -> (str + response) * server.
Variable filesystem : str -> target_kind.

Local Notation main :=
  (main isspace tiktoken_encode json_loads json_loads_bytes
      server serve filesystem).
Local Notation ask := (ask tiktoken_encode json_loads json_loads_bytes
    server serve).
Local Notation checks_pass := (checks_pass json_loads server serve).

(** The exit code says nothing about the server: once the target is a
    file or a directory, [main] returns 0, whether the checks pass or
    not and whatever answer the query gets; when the checks fail it has
    logged "not ready" and sent nothing but the checks' requests. *)
Theorem main_exit_zero (args : arguments) (st : state server)
    (Hkind : match filesystem (target args) with
             | RegularFile _ | Directory _ _ => True
             | _ => False
             end) :
  exists st' ev,
    main args st = (Some 0, st', ev) /\
    (checks_pass (srv server st) = false ->
     reported is_not_ready ev = true /\
     requests_of ev = check_requests json_loads server serve (srv server st)).
Proof.
  assert (Hask : forall content st0,
            exists st' ev,
              ask args content st0 = (Some 0, st', ev) /\
              (checks_pass (srv server st0) = false ->
               reported is_not_ready ev = true /\
               requests_of ev
               = check_requests json_loads server serve (srv server st0))).
  { intros content st0. unfold Client.ask, bind, log, emit, ret.
    destruct (count_tokens_run tiktoken_encode server
                (create_prompt content (query args) (target args)) st0)
      as (ev0 & -> & Hr0 & _ & Hl0).
    match goal with |- context [send_query_to_ollama _ _ _ _ _ ?p ?s ?c ?x] =>
      destruct (send_query_run tiktoken_encode json_loads json_loads_bytes
          server serve
                  p s c x) as (st' & ev & -> & _ & Hfail) end.
    do 2 eexists. split; [reflexivity|]. intros Hno.
    destruct (Hfail Hno) as (Hreq & _ & Hnr & _).
    rewrite !reported_app, Hnr. norm_events. rewrite Hr0, Hreq.
    cbn. rewrite app_nil_r. split; [now rewrite !orb_true_r|reflexivity]. }
  unfold Client.main, Aggregator.get_directory_content.
  unfold bind, set_debug, log, emit, ret.
  destruct (filesystem (target args)) as [|data|root src|];
    try contradiction.
  - match goal with |- context [Client.ask _ _ _ _ _ ?a ?c ?x] =>
      destruct (Hask c x) as (st' & ev & -> & Hfail) end.
    do 2 eexists. split; [reflexivity|]. cbn [srv] in Hfail.
    intros Hno. destruct (Hfail Hno) as [H1 H2]. norm_events.
    split; [|exact H2].
    unfold reported in *. cbn. exact H1.
  - destruct (AggregatorFacts.get_directory_items_total isspace
                (target args) src (max_depth args) (max_files args) root)
      as [[err|items] ->];
      match goal with |- context [Client.ask _ _ _ _ _ ?a ?c ?x] =>
        destruct (Hask c x) as (st' & ev & -> & Hfail) end;
      do 2 eexists; (split; [reflexivity|]); cbn [srv] in Hfail;
      intros Hno; destruct (Hfail Hno) as [H1 H2]; norm_events;
      (split; [|exact H2]); unfold reported in *; cbn; exact H1.
Qed.

(** For a file target and a server that passes the checks, [main] sends
    exactly four requests, the last of which carries the prompt built
    from the file, the streaming flag of the command line, and as
    [num_ctx] the context size computed from the token count of that
    prompt, which is also the size it logs; that size is between 4096
    and 131072. *)
Theorem main_sends_sized_query (args : arguments) (st : state server)
    (data : Aggregator.file_data)
    (Hfile : filesystem (target args) = RegularFile data)
    (Hpass : checks_pass (srv server st) = true) :
  let content := Aggregator.get_file_content (target args) data in
  let prompt := create_prompt content (query args) (target args) in
  let size :=
    Context.context_size
      (Tokens.count_tokens tiktoken_encode prompt (lit "gpt-4")) in
  exists st' ev,
    main args st = (Some 0, st', ev) /\
    requests_of ev
    = [GetVersion; GetTags; test_request;
       PostGenerate
         (mkGenerate DEFAULT_MODEL prompt (arg_stream args) (Some size))] /\
    In (Log (MsgContextSize size)) ev /\
    4096 <= size <= 131072.
Proof.
  intros content prompt size.
  assert (Hsize : 4096 <= size <= 131072).
  { pose proof (TokensFacts.count_tokens_nonneg tiktoken_encode prompt
                  (lit "gpt-4")) as Hc.
    pose proof (ContextFacts.context_size_values _ Hc) as Hv.
    fold size in Hv. clearbody size. cbn [In] in Hv. intuition lia. }
  subst size prompt content.
  unfold Client.main, Client.ask. rewrite Hfile.
  unfold bind, set_debug, log, emit, ret.
  match goal with |- context [Client.count_tokens _ _ ?p ?x] =>
    destruct (count_tokens_run tiktoken_encode server p x)
      as (ev0 & -> & Hr0 & _) end.
  match goal with |- context [send_query_to_ollama _ _ _ _ _ ?p ?s ?c ?x] =>
    destruct (send_query_run tiktoken_encode json_loads json_loads_bytes
        server serve
                p s c x) as (st' & ev & -> & Hreq & _) end.
  do 2 eexists. split; [reflexivity|].
  specialize (Hreq Hpass). norm_events. rewrite Hr0, Hreq.
  repeat split; try lia.
  - unfold query_request, request_data.
    match goal with |- context [?z =? 0] =>
      destruct (Z.eqb_spec z 0); [lia|reflexivity] end.
  - cbn. do 5 right. apply in_or_app. right. now left.
Qed.

End MainRun.

(** *** The theorems above on the sample servers *)

Lemma check_ollama_status_effects_witness :
  let st := mkState unit tt true in
  DEBUG_MODE unit st = true /\
  let '(_, st', ev) :=
    check_ollama_status sample_loads unit (sample_serve 200 hello_body) st in
  DEBUG_MODE unit st' = true /\ forallb (check_event true) ev = true.
Proof.
  intros st. split; [reflexivity|].
  exact (check_ollama_status_effects sample_loads unit
           (sample_serve 200 hello_body) true st eq_refl).
Defined.

Lemma debug_lines_need_the_flag_witness :
  let args := mkArguments (lit "a.py") (lit "why?") false true 50 3 in
  let '(_, st', ev) :=
    main Tokens.ascii_isspace no_tokenizer sample_loads sample_loads_bytes unit
      (sample_serve 200 hello_body) sample_filesystem args
      (mkState unit tt true) in
  DEBUG_MODE unit st' = debug args /\
  (debug args = false -> forallb (fun e => negb (is_debug e)) ev = true).
Proof.
  exact (debug_lines_need_the_flag Tokens.ascii_isspace no_tokenizer
           sample_loads sample_loads_bytes
               unit (sample_serve 200 hello_body) sample_filesystem
           (mkArguments (lit "a.py") (lit "why?") false true 50 3)
           (mkState unit tt true)).
Defined.

Lemma stream_prints_fragments_witness :
  let lines := [hello_body; []; lit "not json"; hello_body] in
  let st := mkState unit tt false in
  Forall (passable sample_loads_bytes) lines /\
  (exists ev,
     stream_lines sample_loads_bytes unit lines st = (None, st, ev) /\
     printed_of ev = flat_map (fragment_of sample_loads_bytes) lines) /\
  (forall bad e after,
     bad <> [] -> sample_loads_bytes bad = LoadRaises e ->
     exists ev,
       stream_lines sample_loads_bytes unit (lines ++ bad :: after) st
       = (Some e, st, ev) /\
       printed_of ev = flat_map (fragment_of sample_loads_bytes) lines).
Proof.
  intros lines st.
  assert (Hlines : Forall (passable sample_loads_bytes) lines).
  { apply Forall_cons; [right; right; eexists; reflexivity|].
    apply Forall_cons; [now left|].
    apply Forall_cons; [right; now left|].
    apply Forall_cons; [right; right; eexists; reflexivity|].
    apply Forall_nil. }
  split; [exact Hlines|].
  exact (stream_prints_fragments sample_loads_bytes unit lines st Hlines).
Defined.

Lemma stream_stops_at_non_object_witness :
  let before := [hello_body] in
  let after := [hello_body] in
  let st := mkState unit tt false in
  Forall (passable array_loads_bytes) before /\
  lit "[1]" <> [] /\
  array_loads_bytes (lit "[1]") = Loaded (JArr [JNum 1]) /\
  (forall fields, JArr [JNum 1] <> JObj fields) /\
  exists ev,
    stream_lines array_loads_bytes unit (before ++ lit "[1]" :: after) st
    = (Some (lit "AttributeError"), st, ev) /\
    printed_of ev = flat_map (fragment_of array_loads_bytes) before.
Proof.
  intros before after st.
  assert (Hbefore : Forall (passable array_loads_bytes) before)
    by (apply Forall_cons;
        [right; right; eexists; reflexivity | apply Forall_nil]).
  assert (Hbad : lit "[1]" <> []) by discriminate.
  assert (Hchunk : array_loads_bytes (lit "[1]") = Loaded (JArr [JNum 1]))
    by reflexivity.
  assert (Hshape : forall fields, JArr [JNum 1] <> JObj fields)
    by discriminate.
  repeat split; try assumption.
  exact (stream_stops_at_non_object array_loads_bytes unit before after
           (lit "[1]") (JArr [JNum 1]) st Hbefore Hbad Hchunk Hshape).
Defined.

Lemma streaming_error_status_witness :
  let serve := sample_serve 503 error_body in
  let response := mkResponse 503 error_body [error_body] None in
  let st := mkState unit tt false in
  checks_pass sample_loads unit serve (srv unit st) = true /\
  answer unit serve (after_checks unit serve (srv unit st))
    (query_request (lit "why?") true (Some 4096)) = inr response /\
  status_code response <> 200 /\
  exists st' ev,
    send_query_to_ollama no_tokenizer sample_loads sample_loads_bytes unit serve
      (lit "why?") true (Some 4096) st = (tt, st', ev) /\
    printed_of ev = [Banner] /\
    reported (is_error_status (status_code response)) ev = true /\
    reported is_processing_complete ev = false.
Proof.
  intros serve response st.
  assert (Hpass : checks_pass sample_loads unit serve (srv unit st) = true)
    by reflexivity.
  assert (Hanswer : answer unit serve (after_checks unit serve (srv unit st))
                      (query_request (lit "why?") true (Some 4096))
                    = inr response) by reflexivity.
  assert (Hstatus : status_code response <> 200) by discriminate.
  repeat split; try assumption.
  exact (streaming_error_status no_tokenizer sample_loads sample_loads_bytes
      unit serve
           (lit "why?") (Some 4096) st response Hpass Hanswer Hstatus).
Defined.

Lemma streaming_answer_printed_witness :
  let serve := sample_serve 200 hello_body in
  let response := mkResponse 200 hello_body [hello_body] None in
  let st := mkState unit tt false in
  checks_pass sample_loads unit serve (srv unit st) = true /\
  answer unit serve (after_checks unit serve (srv unit st))
    (query_request (lit "why?") true (Some 4096)) = inr response /\
  status_code response = 200 /\
  Forall (passable sample_loads_bytes) (iter_lines response) /\
  exists st' ev,
    send_query_to_ollama no_tokenizer sample_loads sample_loads_bytes unit serve
      (lit "why?") true (Some 4096) st = (tt, st', ev) /\
    printed_of ev
    = Banner :: flat_map (fragment_of sample_loads_bytes)
                  (iter_lines response)
      ++ [EndOfStream] /\
    (forall e, iter_raises response = Some e ->
               In (Log (MsgCommunicationError e)) ev) /\
    reported is_processing_complete ev = true.
Proof.
  intros serve response st.
  assert (Hpass : checks_pass sample_loads unit serve (srv unit st) = true)
    by reflexivity.
  assert (Hanswer : answer unit serve (after_checks unit serve (srv unit st))
                      (query_request (lit "why?") true (Some 4096))
                    = inr response) by reflexivity.
  assert (Hstatus : status_code response = 200) by reflexivity.
  assert (Hlines : Forall (passable sample_loads_bytes) (iter_lines response))
    by (apply Forall_cons;
        [right; right; eexists; reflexivity | apply Forall_nil]).
  repeat split; try assumption.
  exact (streaming_answer_printed no_tokenizer sample_loads sample_loads_bytes
      unit serve
           (lit "why?") (Some 4096) st response Hpass Hanswer Hstatus
           Hlines).
Defined.

Lemma query_network_error_witness :
  let st := mkState unit tt false in
  checks_pass sample_loads unit flaky_serve (srv unit st) = true /\
  answer unit flaky_serve (after_checks unit flaky_serve (srv unit st))
    (query_request (lit "why?") true (Some 4096))
  = inl (lit "Connection reset") /\
  exists st' ev,
    send_query_to_ollama no_tokenizer sample_loads sample_loads_bytes
        unit flaky_serve
      (lit "why?") true (Some 4096) st = (tt, st', ev) /\
    printed_of ev = (if true then [Banner] else []) /\
    In (Log (MsgCommunicationError (lit "Connection reset"))) ev /\
    In (Log MsgProcessingComplete) ev.
Proof.
  intros st.
  assert (Hpass : checks_pass sample_loads unit flaky_serve (srv unit st)
                  = true) by reflexivity.
  assert (Hanswer : answer unit flaky_serve
                      (after_checks unit flaky_serve (srv unit st))
                      (query_request (lit "why?") true (Some 4096))
                    = inl (lit "Connection reset")) by reflexivity.
  repeat split; try assumption.
  exact (query_network_error no_tokenizer sample_loads sample_loads_bytes
      unit flaky_serve
           (lit "why?") true (Some 4096) st (lit "Connection reset")
           Hpass Hanswer).
Defined.

Lemma answer_printed_witness :
  let serve := sample_serve 200 hello_body in
  let response := mkResponse 200 hello_body [hello_body] None in
  let fields := [(lit "response", JStr (lit "Hi!"))] in
  let st := mkState unit tt false in
  checks_pass sample_loads unit serve (srv unit st) = true /\
  answer unit serve (after_checks unit serve (srv unit st))
    (query_request (lit "why?") false (Some 4096)) = inr response /\
  status_code response = 200 /\
  sample_loads (text response) = Some (JObj fields) /\
  exists st' ev,
    send_query_to_ollama no_tokenizer sample_loads sample_loads_bytes unit serve
      (lit "why?") false (Some 4096) st = (tt, st', ev) /\
    match lookup (lit "response") fields with
    | Some value =>
        match json_len value with
        | Some _ => printed_of ev = [Banner; Answer value]
        | None =>
            printed_of ev = [] /\
            In (Log (MsgCommunicationError (lit "TypeError"))) ev
        end
    | None => printed_of ev = [] /\
              forall e, ~ In (Log (MsgCommunicationError e)) ev
    end.
Proof.
  intros serve response fields st.
  assert (Hpass : checks_pass sample_loads unit serve (srv unit st) = true)
    by reflexivity.
  assert (Hanswer : answer unit serve (after_checks unit serve (srv unit st))
                      (query_request (lit "why?") false (Some 4096))
                    = inr response) by reflexivity.
  assert (Hstatus : status_code response = 200) by reflexivity.
  assert (Hjson : sample_loads (text response) = Some (JObj fields))
    by reflexivity.
  repeat split; try assumption.
  exact (answer_printed no_tokenizer sample_loads sample_loads_bytes unit serve
           (lit "why?") (Some 4096) st response fields Hpass Hanswer
           Hstatus Hjson).
Defined.

Lemma main_exit_zero_witness :
  let args := mkArguments (lit "a.py") (lit "why?") false true 50 3 in
  let st := mkState unit tt false in
  match sample_filesystem (target args) with
  | RegularFile _ | Directory _ _ => True
  | _ => False
  end /\
  exists st' ev,
    main Tokens.ascii_isspace no_tokenizer sample_loads sample_loads_bytes
        unit down_serve
      sample_filesystem args st = (Some 0, st', ev) /\
    (checks_pass sample_loads unit down_serve (srv unit st) = false ->
     reported is_not_ready ev = true /\
     requests_of ev = check_requests sample_loads unit down_serve
                        (srv unit st)).
Proof.
  intros args st.
  assert (Hkind : match sample_filesystem (target args) with
                  | RegularFile _ | Directory _ _ => True
                  | _ => False
                  end) by exact I.
  split; [exact Hkind|].
  exact (main_exit_zero Tokens.ascii_isspace no_tokenizer sample_loads
           sample_loads_bytes
      unit
           down_serve sample_filesystem args st Hkind).
Defined.

Lemma main_sends_sized_query_witness :
  let args := mkArguments (lit "a.py") (lit "why?") false true 50 3 in
  let st := mkState unit tt false in
  let serve := sample_serve 200 hello_body in
  let data := Aggregator.Text (lit "x = 1") in
  sample_filesystem (target args) = RegularFile data /\
  checks_pass sample_loads unit serve (srv unit st) = true /\
  let content := Aggregator.get_file_content (target args) data in
  let prompt := create_prompt content (query args) (target args) in
  let size :=
    Context.context_size
      (Tokens.count_tokens no_tokenizer prompt (lit "gpt-4")) in
  exists st' ev,
    main Tokens.ascii_isspace no_tokenizer sample_loads sample_loads_bytes
        unit serve
      sample_filesystem args st = (Some 0, st', ev) /\
    requests_of ev
    = [GetVersion; GetTags; test_request;
       PostGenerate
         (mkGenerate DEFAULT_MODEL prompt (arg_stream args) (Some size))] /\
    In (Log (MsgContextSize size)) ev /\
    4096 <= size <= 131072.
Proof.
  intros args st serve data.
  assert (Hfile : sample_filesystem (target args) = RegularFile data)
    by reflexivity.
  assert (Hpass : checks_pass sample_loads unit serve (srv unit st) = true)
    by reflexivity.
  split; [exact Hfile|]. split; [exact Hpass|].
  exact (main_sends_sized_query Tokens.ascii_isspace no_tokenizer
           sample_loads sample_loads_bytes
               unit serve sample_filesystem args st data
           Hfile Hpass).
Defined.

End ClientFacts.

Module LiteFacts.
Import PyStr Lite.
Local Open Scope Z_scope.

Lemma str_eqb_eq (a b : str) : str_eqb a b = true <-> a = b.
Proof.
  revert b. induction a as [|x a IH]; intros [|y b]; cbn;
    try (split; [discriminate|discriminate]); [tauto|].
  unfold char_eqb. rewrite andb_true_iff, N.eqb_eq, IH.
  split; [intros [-> ->]; reflexivity | intros [= -> ->]; auto].
Qed.

Lemma str_eqb_neq (a b : str) : a <> b -> str_eqb a b = false.
Proof.
  intros Hne. destruct (str_eqb a b) eqn:E; [|reflexivity].
  apply str_eqb_eq in E. contradiction.
Qed.

(** Reading back what was set. *)
Lemma env_get_set_same (key value : str) (env : environment) :
  env_get key (env_set key value env) = Some value.
Proof.
  induction env as [|[k v] env IH]; cbn.
  - now rewrite (proj2 (str_eqb_eq key key) eq_refl).
  - destruct (str_eqb k key) eqn:E; cbn; now rewrite E.
Qed.

(** Setting one key leaves the others alone. *)
Lemma env_get_set_other (key value other : str) (env : environment) :
  other <> key ->
  env_get other (env_set key value env) = env_get other env.
Proof.
  intros Hne. induction env as [|[k v] env IH]; cbn.
  - now rewrite (str_eqb_neq key other) by congruence.
  - destruct (str_eqb k key) eqn:E; cbn.
    + apply str_eqb_eq in E. subst k.
      now rewrite (str_eqb_neq key other) by congruence.
    + now rewrite IH.
Qed.

(** Whenever the model runner is started, it is started as
    [ollama run <model>] with the effective prompt, which is not empty,
    on its input, in an environment where [OLLAMA_MAX_INPUT_TOKENS] and
    [OLLAMA_CONTEXT_LENGTH] both hold the context length in decimal and
    every other variable is as the script found it. *)
Theorem runner_environment (args : arguments) (w : world)
    (cmd : list str) (env : environment) (input : str)
    (Hstarted : launched (main args w) = Some (cmd, env, input)) :
  cmd = [lit "ollama"; lit "run"; model args] /\
  effective_prompt args w = Some input /\ input <> [] /\
  env_get (lit "OLLAMA_MAX_INPUT_TOKENS") env
    = Some (Aggregator.str_of_Z (context args)) /\
  env_get (lit "OLLAMA_CONTEXT_LENGTH") env
    = Some (Aggregator.str_of_Z (context args)) /\
  forall key,
    key <> lit "OLLAMA_MAX_INPUT_TOKENS" ->
    key <> lit "OLLAMA_CONTEXT_LENGTH" ->
    env_get key env = env_get key (environ w).
Proof.
  unfold main in Hstarted.
  destruct (effective_prompt args w) as [[|c p]|] eqn:Hprompt;
    try discriminate.
  assert (Henv : Some (cmd, env, input)
                 = Some ([lit "ollama"; lit "run"; model args],
                         process_env args w, c :: p)).
  { rewrite <- Hstarted.
    destruct (run w [lit "ollama"; lit "run"; model args]
                (process_env args w) (c :: p)) as [e|rc so se];
      [|destruct (negb (rc =? 0))]; reflexivity. }
  injection Henv as -> -> ->.
  split; [reflexivity|]. split; [reflexivity|]. split; [discriminate|].
  unfold process_env. repeat split.
  - rewrite env_get_set_other by discriminate. apply env_get_set_same.
  - apply env_get_set_same.
  - intros key H1 H2. now rewrite !env_get_set_other.
Qed.

Lemma runner_environment_witness :
  let args := mkArguments (lit "qwen2.5-coder:7b") 4096 false
                (Some (lit "hello")) in
  let w := mkWorld [(lit "HOME", lit "/root");
                    (lit "OLLAMA_CONTEXT_LENGTH", lit "2048")]
             true [] sample_run in
  let env := [(lit "HOME", lit "/root");
              (lit "OLLAMA_CONTEXT_LENGTH", lit "4096");
              (lit "OLLAMA_MAX_INPUT_TOKENS", lit "4096")] in
  launched (main args w)
    = Some ([lit "ollama"; lit "run"; lit "qwen2.5-coder:7b"], env,
            lit "hello") /\
  [lit "ollama"; lit "run"; lit "qwen2.5-coder:7b"]
    = [lit "ollama"; lit "run"; model args] /\
  effective_prompt args w = Some (lit "hello") /\ lit "hello" <> [] /\
  env_get (lit "OLLAMA_MAX_INPUT_TOKENS") env
    = Some (Aggregator.str_of_Z (context args)) /\
  env_get (lit "OLLAMA_CONTEXT_LENGTH") env
    = Some (Aggregator.str_of_Z (context args)) /\
  forall key,
    key <> lit "OLLAMA_MAX_INPUT_TOKENS" ->
    key <> lit "OLLAMA_CONTEXT_LENGTH" ->
    env_get key env = env_get key (environ w).
Proof.
  intros args w env.
  assert (Hstarted :
            launched (main args w)
            = Some ([lit "ollama"; lit "run"; lit "qwen2.5-coder:7b"], env,
                    lit "hello")) by reflexivity.
  split; [exact Hstarted|].
  exact (runner_environment args w _ env (lit "hello") Hstarted).
Defined.

(** The script ends with code 0 exactly when the runner was started and
    returned 0, and then prints the runner's output and nothing on the
    error stream; any other end prints no output and reports on the error
    stream; and a return code other than 0 is passed on as the exit
    code. *)
Theorem exit_code_tells_success (args : arguments) (w : world) :
  let r := main args w in
  (exit_code r = 0 <->
   exists cmd env input stdout stderr,
     launched r = Some (cmd, env, input) /\
     run w cmd env input = Exited 0 stdout stderr /\
     out r = [stdout] /\ err r = []) /\
  (exit_code r <> 0 -> out r = [] /\ exists message, err r = [message]) /\
  (forall cmd env input returncode stdout stderr,
     launched r = Some (cmd, env, input) ->
     run w cmd env input = Exited returncode stdout stderr ->
     exit_code r = returncode).
Proof.
  cbv zeta. unfold main.
  destruct (effective_prompt args w) as [[|c p]|].
  - cbn [exit_code out err launched]. repeat split; try discriminate; eauto.
    intros (cmd & env & input & so & se & H & _). discriminate.
  - destruct (run w [lit "ollama"; lit "run"; model args]
                (process_env args w) (c :: p)) as [e|rc so se] eqn:Hrun.
    + cbn [exit_code out err launched]. repeat split; try discriminate; eauto.
      * intros (cmd & env & input & so & se & [= <- <- <-] & H & _).
        rewrite Hrun in H. discriminate.
      * intros cmd env input rc so se [= <- <- <-] H.
        rewrite Hrun in H. discriminate.
    + destruct (Z.eqb_spec rc 0) as [->|Hrc];
        cbn [negb exit_code out err launched].
      * repeat split; try (intros; contradiction); eauto 10.
        intros cmd env input rc so' se' [= <- <- <-] H.
        rewrite Hrun in H. now injection H as <- _ _.
      * repeat split; eauto.
        -- intros H. contradiction.
        -- intros (cmd & env & input & so' & se' & _ & _ & H & _).
           discriminate.
        -- intros cmd env input rc' so' se' [= <- <- <-] H.
           rewrite Hrun in H. now injection H as <- _ _.
  - cbn [exit_code out err launched]. repeat split; try discriminate; eauto.
    intros (cmd & env & input & so & se & H & _). discriminate.
Qed.

Lemma exit_code_tells_success_witness :
  let args := mkArguments (lit "m") 4096 false (Some (lit "hello")) in
  let w := mkWorld [(lit "OLLAMA_FAIL", lit "1")] true [] sample_run in
  let r := main args w in
  exit_code r = 3 /\
  (exit_code r = 0 <->
   exists cmd env input stdout stderr,
     launched r = Some (cmd, env, input) /\
     run w cmd env input = Exited 0 stdout stderr /\
     out r = [stdout] /\ err r = []) /\
  (exit_code r <> 0 -> out r = [] /\ exists message, err r = [message]) /\
  (forall cmd env input returncode stdout stderr,
     launched r = Some (cmd, env, input) ->
     run w cmd env input = Exited returncode stdout stderr ->
     exit_code r = returncode).
Proof.
  intros args w r. split; [reflexivity|].
  exact (exit_code_tells_success args w).
Defined.

(** With [--pipe], or when standard input is not a terminal, the prompt
    is what standard input holds and the positional prompt is not looked
    at; if standard input is empty the script stops with code 1 without
    starting the runner, even when a prompt was given. *)
Theorem stdin_replaces_prompt (args : arguments) (w : world)
    (Hpiped : pipe args = true \/ stdin_isatty w = false) :
  (forall other,
     main (mkArguments (model args) (context args) (pipe args) other) w
     = main args w) /\
  (stdin_text w = [] ->
   exit_code (main args w) = 1 /\ launched (main args w) = None) /\
  (stdin_text w <> [] ->
   exists cmd env,
     launched (main args w) = Some (cmd, env, stdin_text w)).
Proof.
  assert (Hprompt : forall other,
            effective_prompt
              (mkArguments (model args) (context args) (pipe args) other) w
            = Some (stdin_text w)).
  { intros other. unfold effective_prompt. cbn [pipe Lite.prompt].
    destruct Hpiped as [-> | ->]; [reflexivity|].
    now rewrite orb_true_r. }
  assert (Hargs : effective_prompt args w = Some (stdin_text w))
    by (destruct args; apply Hprompt).
  repeat split.
  - intros other. unfold main, process_env. cbn [model context].
    now rewrite Hprompt, Hargs.
  - unfold main. rewrite Hargs, H. reflexivity.
  - unfold main. rewrite Hargs, H. reflexivity.
  - intros Hne. unfold main. rewrite Hargs.
    destruct (stdin_text w) as [|c p]; [contradiction|].
    destruct (run w _ _ (c :: p)) as [e|rc so se];
      [|destruct (negb (rc =? 0))]; cbn; eauto.
Qed.

Lemma stdin_replaces_prompt_witness :
  let args := mkArguments (lit "m") 4096 false (Some (lit "hello")) in
  let w := mkWorld [] false [] sample_run in
  (pipe args = true \/ stdin_isatty w = false) /\
  (forall other,
     main (mkArguments (model args) (context args) (pipe args) other) w
     = main args w) /\
  (stdin_text w = [] ->
   exit_code (main args w) = 1 /\ launched (main args w) = None) /\
  (stdin_text w <> [] ->
   exists cmd env,
     launched (main args w) = Some (cmd, env, stdin_text w)).
Proof.
  intros args w.
  assert (Hpiped : pipe args = true \/ stdin_isatty w = false)
    by (right; reflexivity).
  split; [exact Hpiped|].
  exact (stdin_replaces_prompt args w Hpiped).
Defined.

End LiteFacts.

(** ** The context-window test *)

Module ContextTestFacts.
Import PyStr ContextTest.
Local Open Scope Z_scope.

(** *** The generated file *)

Lemma newlines_app (a b : str) : newlines (a ++ b) = newlines a + newlines b.
Proof. apply TokensFacts.count_if_app. Qed.

Lemma digits_no_newline (d : Decimal.uint) :
  newlines (lit (DecimalString.NilEmpty.string_of_uint d)) = 0.
Proof. induction d; cbn in *; assumption || reflexivity. Qed.

Lemma uint_no_newline (d : Decimal.uint) :
  newlines (lit (DecimalString.NilZero.string_of_uint d)) = 0.
Proof.
  destruct d; [reflexivity|..];
    match goal with
    | |- newlines (lit (DecimalString.NilZero.string_of_uint ?x)) = 0 =>
        exact (digits_no_newline x)
    end.
Qed.

(** [str(i)] never holds a line break. *)
Lemma str_of_Z_no_newline (z : Z) : newlines (Aggregator.str_of_Z z) = 0.
Proof.
  unfold Aggregator.str_of_Z.
  destruct (Z.to_int z) as [d|d]; cbn [DecimalString.NilZero.string_of_int].
  - apply uint_no_newline.
  - change (newlines ([45%N] ++ lit (DecimalString.NilZero.string_of_uint d))
            = 0).
    rewrite newlines_app, uint_no_newline. reflexivity.
Qed.

Lemma numbered_line_one_newline (i : Z) : newlines (numbered_line i) = 1.
Proof.
  unfold numbered_line.
  rewrite !newlines_app, !str_of_Z_no_newline. reflexivity.
Qed.

Lemma numbered_lines_newlines (l : list Z) :
  newlines (flat_map numbered_line l) = len l.
Proof.
  induction l as [|i l IH]; [reflexivity|].
  cbn [flat_map]. rewrite newlines_app, numbered_line_one_newline, IH.
  unfold len. cbn [List.length]. lia.
Qed.

Lemma line_numbers_In (num_lines i : Z) :
  In i (line_numbers num_lines) <-> 1 <= i <= num_lines.
Proof.
  unfold line_numbers. rewrite in_map_iff. split.
  - intros [k [<- Hk]]. apply in_seq in Hk. lia.
  - intros Hi. exists (Z.to_nat i). split; [lia|]. apply in_seq. lia.
Qed.

Lemma line_numbers_last (num_lines : Z) :
  1 <= num_lines ->
  line_numbers num_lines = line_numbers (num_lines - 1) ++ [num_lines].
Proof.
  intros Hn. unfold line_numbers.
  replace (Z.to_nat num_lines) with (S (Z.to_nat (num_lines - 1))) by lia.
  rewrite seq_S, map_app. cbn [map]. do 3 f_equal. lia.
Qed.

(** The file [generate_test_file] writes: it begins with the header; it
    holds three line breaks for the header and one for each numbered line,
    none when [num_lines] is not positive, the file then being the header
    alone; every line numbered from 1 to [num_lines] is in it; and it ends
    with the line numbered [num_lines]. *)
Theorem generated_file_shape (num_lines : Z) :
  startswith (file_content num_lines) header = true /\
  newlines (file_content num_lines) = 3 + Z.max 0 num_lines /\
  (num_lines <= 0 -> file_content num_lines = header) /\
  (forall i, 1 <= i <= num_lines ->
     contains (file_content num_lines) (numbered_line i) = true) /\
  (1 <= num_lines ->
   endswith (file_content num_lines) (numbered_line num_lines) = true).
Proof.
  unfold file_content. repeat split.
  - apply AggregatorFacts.startswith_app.
  - rewrite newlines_app, numbered_lines_newlines.
    unfold line_numbers, len. rewrite length_map, length_seq.
    change (newlines header) with 3. lia.
  - intros Hn. unfold line_numbers.
    replace (Z.to_nat num_lines) with 0%nat by lia.
    apply app_nil_r.
  - intros i Hi. apply line_numbers_In in Hi.
    apply in_split in Hi. destruct Hi as [before [after ->]].
    rewrite flat_map_app. cbn [flat_map].
    rewrite app_assoc.
    apply AggregatorFacts.contains_app.
  - intros Hn. rewrite line_numbers_last by assumption.
    rewrite flat_map_app. cbn [flat_map]. rewrite app_nil_r, app_assoc.
    unfold endswith. rewrite rev_app_distr.
    apply AggregatorFacts.startswith_app.
Qed.

Lemma generated_file_shape_witness :
  let num_lines := 3 in
  newlines (file_content num_lines) = 6 /\
  contains (file_content num_lines) (numbered_line 2) = true /\
  endswith (file_content num_lines)
    (lit "3. This is line number 3 in our context window test." ++ [10%N])
  = true.
Proof.
  intros num_lines.
  pose proof (generated_file_shape num_lines) as [_ [Hn [_ [Hin Hend]]]].
  split; [exact Hn|]. split.
  - apply Hin. unfold num_lines. lia.
  - apply Hend. unfold num_lines. lia.
Defined.

(** *** The captured response *)

Section Capture.

Variable isspace : char -> bool.

Notation has_marker := (fun line : str => contains line response_marker).

(** Scanning two runs of lines one after the other: the second run is read
    inside the response block when the scan was already inside it or the
    first run holds a marker line. *)
Lemma model_output_app (before after : list str) :
  forall in_response_block,
    model_output isspace in_response_block (before ++ after)
    = model_output isspace in_response_block before
      ++ model_output isspace
           (in_response_block || existsb has_marker before) after.
Proof.
  induction before as [|line before IH]; intros b; cbn [app existsb].
  - cbn [model_output app]. now rewrite orb_false_r.
  - cbn [model_output].
    destruct (contains line response_marker); cbn [orb].
    + rewrite IH. cbn [orb]. now rewrite orb_true_r.
    + destruct (b && negb match Aggregator.strip isspace line with
                          | [] => true
                          | _ :: _ => false
                          end
                && negb (startswith line (lit "[")));
        rewrite IH; reflexivity.
Qed.

Lemma model_output_sound (lines : list str) :
  forall in_response_block x,
    In x (model_output isspace in_response_block lines) ->
    exists before line after,
      lines = before ++ line :: after /\
      (in_response_block = true \/ existsb has_marker before = true) /\
      contains line response_marker = false /\
      startswith line (lit "[") = false /\
      x = Aggregator.strip isspace line /\ x <> [].
Proof.
  induction lines as [|l lines IH]; intros b x Hx; [destruct Hx|].
  cbn [model_output] in Hx.
  destruct (contains l response_marker) eqn:Hm.
  - destruct (IH _ _ Hx) as (before & line & after & -> & _ & H).
    exists (l :: before), line, after. split; [reflexivity|].
    split; [|exact H]. right. cbn [existsb]. now rewrite Hm.
  - assert (Hrest : In x (model_output isspace b lines) ->
              exists before line after,
                l :: lines = before ++ line :: after /\
                (b = true \/ existsb has_marker before = true) /\
                contains line response_marker = false /\
                startswith line (lit "[") = false /\
                x = Aggregator.strip isspace line /\ x <> []).
    { intros Hin.
      destruct (IH _ _ Hin) as (before & line & after & -> & Hb & H).
      exists (l :: before), line, after. split; [reflexivity|].
      split; [|exact H]. cbn [existsb]. rewrite Hm. exact Hb. }
    destruct b; cbn [andb] in Hx; [|now apply Hrest].
    destruct (Aggregator.strip isspace l) as [|c r] eqn:Hs;
      cbn [negb andb] in Hx; [now apply Hrest|].
    destruct (startswith l (lit "[")) eqn:Hb;
      cbn [negb] in Hx; [now apply Hrest|].
    destruct Hx as [<-|Hin]; [|now apply Hrest].
    exists [], l, lines. split; [reflexivity|]. split; [now left|].
    rewrite Hs. repeat split; try assumption. discriminate.
Qed.

(** What [run_context_test] keeps of the child's output: a text is
    captured exactly when it is the stripped form, not empty, of an output
    line that comes after a line holding the marker, does not hold the
    marker itself and does not begin with an opening bracket.  The test
    for the bracket is made on the line as read, so an indented bracket
    does not hide a line. *)
Theorem captured_lines (lines : list str) (x : str) :
  In x (model_output isspace false lines) <->
  exists before marker between line after,
    lines = before ++ marker :: between ++ line :: after /\
    contains marker response_marker = true /\
    contains line response_marker = false /\
    startswith line (lit "[") = false /\
    x = Aggregator.strip isspace line /\ x <> [].
Proof.
  split.
  - intros Hx.
    destruct (model_output_sound _ _ _ Hx)
      as (pre & line & after & -> & [Hb|Hb] & Hm & Hs & -> & Hne);
      [discriminate|].
    apply existsb_exists in Hb. destruct Hb as [marker [Hin Hmark]].
    apply in_split in Hin. destruct Hin as [before [between ->]].
    exists before, marker, between, line, after.
    rewrite <- app_assoc. cbn [app]. now repeat split.
  - intros (before & marker & between & line & after
            & -> & Hmark & Hm & Hs & -> & Hne).
    rewrite model_output_app. apply in_or_app. right.
    cbn [model_output orb]. rewrite Hmark.
    rewrite model_output_app. apply in_or_app. right.
    cbn [model_output orb]. rewrite Hm, Hs. cbn [andb negb].
    destruct (Aggregator.strip isspace line); [contradiction|].
    now left.
Qed.

End Capture.

Lemma captured_lines_witness :
  let lines := [lit "[Debug] sending" ++ [10%N];
                lit "=== Ollama Response ===" ++ [10%N];
                [10%N];
                lit "  [42] is the last line." ++ [10%N];
                lit "[Debug] done" ++ [10%N]] in
  model_output Tokens.ascii_isspace false lines
  = [lit "[42] is the last line."] /\
  In (lit "[42] is the last line.")
     (model_output Tokens.ascii_isspace false lines).
Proof.
  intros lines. split; [reflexivity|].
  apply (proj2 (captured_lines Tokens.ascii_isspace lines
                  (lit "[42] is the last line."))).
  exists [lit "[Debug] sending" ++ [10%N]],
         (lit "=== Ollama Response ===" ++ [10%N]),
         [[10%N]],
         (lit "  [42] is the last line." ++ [10%N]),
         [lit "[Debug] done" ++ [10%N]].
  repeat split; try reflexivity. discriminate.
Defined.

End ContextTestFacts.
